(** * Booking transaction engine of the event service (event.service.js)

    A shallow embedding of [src/service/event.service.js]: the availability
    check of a service variation, the creation and update of an event with its
    service lines and invoice, the deletion guard, the status toggle and the
    paginated listing.

    Conventions of the embedding.
    - A JavaScript number is an exact integer of [Z]: instants are
      milliseconds since the epoch (what [Date.getTime] returns), durations
      are hours, amounts of money are integers.  The development is about
      inputs on which the arithmetic of doubles is exact.
    - A property of a request payload is a [Field]: absent ([Undefined]),
      [Null], or a value.  [a || b] and [cond ? x : y] follow the truthiness
      of JavaScript (0 and the empty string are falsy).
    - A table of the database is the list of its rows in insertion order,
      [findMany] is [filter], [findUnique] and [findFirst] are [find].
    - A string is the sequence of the bytes of its UTF-8 encoding.
    - A transaction runs a body on the store; a body that throws leaves the
      store as it was. *)

From Stdlib Require Import ZArith List Bool String Ascii Lia QArith Qround.
From Stdlib Require Import DecimalString.
Import ListNotations.

Local Open Scope string_scope.
Local Open Scope Z_scope.

Set Implicit Arguments.

(** ** JavaScript values of a payload *)

Inductive Field (A : Type) : Type :=
| Undefined
| Null
| Val (a : A).

Arguments Undefined {A}.
Arguments Null {A}.
Arguments Val {A} a.

(** [!!x] for a number. *)
Definition truthyZ (x : Field Z) : bool :=
  match x with
  | Val n => negb (n =? 0)
  | _ => false
  end.

(** [!!x] for a string. *)
Definition truthyS (x : Field string) : bool :=
  match x with
  | Val s => negb (s =? EmptyString)%string
  | _ => false
  end.

(** [!!x] for a date string; a payload carries it already parsed. *)
Definition truthyD (x : Field Z) : bool :=
  match x with
  | Val _ => true
  | _ => false
  end.

(** [Number(x)] for a number-valued field that passed its truthiness test;
    [Number(null)] is 0. *)
Definition NumberF (x : Field Z) : Z :=
  match x with
  | Val n => n
  | _ => 0
  end.

(** [a || b] on numbers. *)
Definition orZ (a b : Z) : Z := if a =? 0 then b else a.

(** [x || b] for a field [x] holding a number. *)
Definition orF (x : Field Z) (b : Z) : Z :=
  if truthyZ x then NumberF x else b.

(** [x ? Number(x) : null]. *)
Definition numOrNull (x : Field Z) : option Z :=
  if truthyZ x then Some (NumberF x) else None.

(** [x ? new Date(x) : null]. *)
Definition dateOrNull (x : Field Z) : option Z :=
  match x with
  | Val t => Some t
  | _ => None
  end.

(** The code points that [String.prototype.trim] strips, the white space
    and the line terminators of ECMAScript, each as the bytes of its UTF-8
    encoding: U+0009 to U+000D, U+0020, U+00A0, U+1680, U+2000 to U+200A,
    U+2028, U+2029, U+202F, U+205F, U+3000 and U+FEFF. *)
Definition whiteSpace : list (list ascii) :=
  map (map ascii_of_nat)
    [[9]; [10]; [11]; [12]; [13]; [32]; [194; 160]; [225; 154; 128];
     [226; 128; 128]; [226; 128; 129]; [226; 128; 130]; [226; 128; 131];
     [226; 128; 132]; [226; 128; 133]; [226; 128; 134]; [226; 128; 135];
     [226; 128; 136]; [226; 128; 137]; [226; 128; 138]; [226; 128; 168];
     [226; 128; 169]; [226; 128; 175]; [226; 129; 159]; [227; 128; 128];
     [239; 187; 191]]%nat%list.

Fixpoint bytes_eqb (a b : list ascii) : bool :=
  match a, b with
  | nil, nil => true
  | x :: a', y :: b' => Ascii.eqb x y && bytes_eqb a' b'
  | _, _ => false
  end.

Definition isWhite (table : list (list ascii)) (cp : list ascii) : bool :=
  existsb (bytes_eqb cp) table.

(** The bytes left once every leading code point of [table] is dropped; a
    code point of the table takes one, two or three bytes. *)
Fixpoint dropWhite (table : list (list ascii)) (l : list ascii) : list ascii :=
  match l with
  | nil => nil
  | c1 :: r1 =>
      if isWhite table (c1 :: nil) then dropWhite table r1
      else
        match r1 with
        | nil => l
        | c2 :: r2 =>
            if isWhite table (c1 :: c2 :: nil) then dropWhite table r2
            else
              match r2 with
              | nil => l
              | c3 :: r3 =>
                  if isWhite table (c1 :: c2 :: c3 :: nil) then dropWhite table r3
                  else l
              end
        end
  end.

Definition trimStart (s : string) : string :=
  string_of_list_ascii (dropWhite whiteSpace (list_ascii_of_string s)).

(** From the end, the bytes of a code point come in reverse. *)
Definition trimEnd (s : string) : string :=
  string_of_list_ascii
    (rev (dropWhite (map (@rev ascii) whiteSpace) (rev (list_ascii_of_string s)))).

Definition lower (c : ascii) : ascii :=
  let n := nat_of_ascii c in
  if ((65 <=? n) && (n <=? 90))%nat then ascii_of_nat (n + 32) else c.

(** [String.prototype.toLowerCase], on the letters of ASCII. *)
Fixpoint toLowerCase (s : string) : string :=
  match s with
  | String c r => String (lower c) (toLowerCase r)
  | EmptyString => EmptyString
  end.

(** [String.prototype.trim]. *)
Definition trim (s : string) : string := trimEnd (trimStart s).

(** [x?.trim() || null]. *)
Definition trimOrNull (x : Field string) : option string :=
  match x with
  | Val s => if (trim s =? EmptyString)%string then None else Some (trim s)
  | _ => None
  end.

(** The double-quote character, as a string. *)
Definition dquote : string := String (ascii_of_nat 34) EmptyString.

(** Template-literal rendering of a number. *)
Definition showZ (z : Z) : string := NilZero.string_of_int (Z.to_int z).
Definition showNat (n : nat) : string := showZ (Z.of_nat n).

(** ** Stored records *)

Inductive EventStatus : Type :=
| PENDING | ACCEPTED | CONFIRMED | IN_PROGRESS | COMPLETED | CANCELLED | RESCHEDULED.

Definition EventStatus_eqb (a b : EventStatus) : bool :=
  match a, b with
  | PENDING, PENDING | ACCEPTED, ACCEPTED | CONFIRMED, CONFIRMED
  | IN_PROGRESS, IN_PROGRESS | COMPLETED, COMPLETED | CANCELLED, CANCELLED
  | RESCHEDULED, RESCHEDULED => true
  | _, _ => false
  end.

(** [EVENT_STATUSES] with the spelling of each member. *)
Definition EVENT_STATUSES : list (string * EventStatus) :=
  [ ("PENDING", PENDING); ("ACCEPTED", ACCEPTED); ("CONFIRMED", CONFIRMED);
    ("IN_PROGRESS", IN_PROGRESS); ("COMPLETED", COMPLETED);
    ("CANCELLED", CANCELLED); ("RESCHEDULED", RESCHEDULED) ].

Definition status_of_string (s : string) : option EventStatus :=
  option_map snd (find (fun p => (fst p =? s)%string) EVENT_STATUSES).

Record Event : Type := mkEvent {
  event_id : Z;
  event_name : string;
  description : option string;
  start_time : option Z;
  end_time : option Z;
  event_date : Z;
  estimated_cost : Z;
  final_cost : option Z;
  room_service_fee : option Z;
  status : EventStatus;
  account_id : option Z;
  room_id : option Z;
  event_type_id : option Z;
  date_create : Z
}.

Record EventService : Type := mkEventService {
  event_service_id : Z;
  es_event_id : Z;
  es_service_id : Z;
  es_variation_id : option Z;
  es_quantity : Z;
  es_custom_price : option Z;
  es_notes : option string;
  es_status : string;
  es_scheduled_time : option Z;
  es_duration_hours : option Z
}.

Record Invoice : Type := mkInvoice {
  invoice_id : Z;
  invoice_number : string;
  total_amount : Z;
  inv_event_id : Z;
  inv_account_id : option Z;
  inv_status : string;
  issue_date : Z;
  due_date : Z
}.

Inductive ItemType : Type := ROOM | SERVICE.

Record InvoiceDetail : Type := mkInvoiceDetail {
  id_invoice_id : Z;
  item_name : string;
  id_quantity : Z;
  unit_price : Z;
  subtotal : Z;
  item_type : ItemType;
  id_service_id : option Z;
  id_variation_id : option Z
}.

Record Room : Type := mkRoom {
  r_room_id : Z;
  room_name : string;
  r_is_active : bool;
  r_status : string;
  base_price : Z;
  hourly_rate : Z
}.

Record Variation : Type := mkVariation {
  variation_id : Z;
  variation_name : string;
  v_base_price : Z;
  v_is_active : bool
}.

Record EventType : Type := mkEventType {
  type_id : Z;
  t_is_active : bool
}.

Record Payment : Type := mkPayment { payment_id : Z; p_event_id : Z }.
Record Review : Type := mkReview { review_id : Z; rv_event_id : Z }.

(** The database: one list of rows per table, and the next value of the
    auto-incremented keys this service allocates. *)
Record Store : Type := mkStore {
  accounts : list Z;
  rooms : list Room;
  eventTypes : list EventType;
  variations : list Variation;
  events : list Event;
  eventServices : list EventService;
  invoices : list Invoice;
  invoiceDetails : list InvoiceDetail;
  payments : list Payment;
  reviews : list Review;
  next_event_id : Z;
  next_event_service_id : Z;
  next_invoice_id : Z
}.

Definition opt_eqb (a : option Z) (b : Z) : bool :=
  match a with
  | Some x => x =? b
  | None => false
  end.

(** ** Results *)

Record Pagination : Type := mkPagination {
  pg_page : Z;
  pg_limit : Z;
  totalCount : Z;
  totalPages : Z;
  hasNextPage : bool;
  hasPreviousPage : bool
}.

(** The third argument of [createValidationResult], one constructor per shape
    the service passes. *)
Inductive ResultData : Type :=
| NoData
| ConflictData (conflictingEvents : list EventService)
| VariationData (vid : Z)
| EventData_ (e : Event) (eventServicesCount : nat)
| BlockedData (eventServicesCount paymentsCount reviewsCount : nat) (hasInvoice : bool)
| DeletedData (eid : Z) (deletedEventServices deletedPayments deletedReviews deletedInvoice : nat)
| ToggledData (e : Event)
| ListData (evs : list (Event * nat)) (pagination : Pagination).

Record ValidationResult : Type := mkResult {
  isValid : bool;
  errors : list string;
  data : ResultData
}.

(** Modelled from the spec: [createValidationResult] of utils/validation.js is
    not among the sources; a Result carries the flag, the error messages and
    the optional data it was built from. *)
Definition createValidationResult (ok : bool) (errs : list string) (d : ResultData)
  : ValidationResult := mkResult ok errs d.

(** [handleError]: the message of the caught exception, no data. *)
Definition handleError (msg : string) : ValidationResult :=
  createValidationResult false [msg] NoData.

(** ** Availability of a service variation *)

Definition MS_PER_HOUR : Z := 3600 * 1000.

(** [tx.variation.findUnique]. *)
Definition findVariation (s : Store) (vid : Z) : option Variation :=
  find (fun v => variation_id v =? vid) (variations s).

Definition evStart (ev : EventService) : Z :=
  match es_scheduled_time ev with
  | Some t => t
  | None => 0
  end.

(** [evStart.getTime() + (ev.duration_hours || 0) * 3600 * 1000]. *)
Definition evEnd (ev : EventService) : Z :=
  evStart ev +
  (match es_duration_hours ev with Some d => orZ d 0 | None => 0 end) * MS_PER_HOUR.

(** The [where] clause of the candidate query. *)
Definition isCandidate (vid endTime : Z) (ev : EventService) : bool :=
  opt_eqb (es_variation_id ev) vid
  && (es_status ev =? "CONFIRMED")%string
  && match es_scheduled_time ev with
     | Some t => t <=? endTime
     | None => false
     end.

(** The overlap test of the [filter] callback. *)
Definition overlaps (startTime endTime : Z) (ev : EventService) : bool :=
  (startTime <? evEnd ev) && (evStart ev <? endTime).

Definition checkVariationAvailability
    (vid : Field Z) (scheduled_time : Field Z) (duration_hours : Field Z) (tx : Store)
  : ValidationResult :=
  if negb (truthyZ vid) || negb (truthyD scheduled_time) || negb (truthyZ duration_hours)
  then createValidationResult false
         ["Variation ID, scheduled time, and duration are required"] NoData
  else
    let startTime := NumberF scheduled_time in
    let endTime := startTime + NumberF duration_hours * MS_PER_HOUR in
    match findVariation tx (NumberF vid) with
    | None => createValidationResult false ["Variation not found or inactive"] NoData
    | Some variation =>
        if negb (v_is_active variation)
        then createValidationResult false ["Variation not found or inactive"] NoData
        else
          let candidates := filter (isCandidate (NumberF vid) endTime) (eventServices tx) in
          let conflictingEvents := filter (overlaps startTime endTime) candidates in
          if (0 <? List.length conflictingEvents)%nat
          then createValidationResult false
                 ["Variation is busy during the requested time slot"]
                 (ConflictData conflictingEvents)
          else createValidationResult true [] (VariationData (NumberF vid))
    end.


(** ** Request payloads *)

Record ServiceData : Type := mkServiceData {
  sd_service_id : Z;
  sd_variation_id : Field Z;
  sd_quantity : Field Z;
  sd_custom_price : Field Z;
  sd_notes : Field string;
  sd_status : Field string;
  sd_scheduled_time : Field Z;
  sd_duration_hours : Field Z
}.

Record EventData : Type := mkEventData {
  d_event_name : Field string;
  d_description : Field string;
  d_start_time : Field Z;
  d_end_time : Field Z;
  d_event_date : Field Z;
  d_estimated_cost : Field Z;
  d_final_cost : Field Z;
  d_room_service_fee : Field Z;
  d_account_id : Field Z;
  d_room_id : Field Z;
  d_event_type_id : Field Z;
  d_status : Field string;
  d_event_services : list ServiceData;
  d_duration_hours : Field Z
}.

Record User : Type := mkUser { role : string; u_account_id : Z }.

Record StringOptions : Type := mkStringOptions {
  required : bool;
  minLength : option Z;
  maxLength : option Z;
  sanitize : bool
}.

(** What [checkRoomAvailability] answers: [isValid], [data.isAvailable] and
    [data.reason] (the empty string when there is none). *)
Record RoomAvailability : Type := mkRoomAvailability {
  ra_isValid : bool;
  ra_isAvailable : bool;
  ra_reason : string
}.

Record Notification : Type := mkNotification {
  n_account_id : Z;
  n_title : string;
  n_message : string;
  n_type : string
}.

(** The database together with what the external notifier has received. *)
Record World : Type := mkWorld {
  db : Store;
  outbox : list Notification
}.

(** ** Transactions *)

(** How a statement of a transaction callback ends: it falls through with a
    value, the callback returns a result, or an exception is thrown. *)
Inductive Outcome (A : Type) : Type :=
| Next (a : A) (w : World)
| Returned (r : ValidationResult) (w : World)
| Thrown (msg : string).

Arguments Next {A} a w.
Arguments Returned {A} r w.
Arguments Thrown {A} msg.

Definition Tx (A : Type) : Type := World -> Outcome A.

Definition ret {A : Type} (a : A) : Tx A := fun w => Next a w.

Definition bind {A B : Type} (m : Tx A) (k : A -> Tx B) : Tx B :=
  fun w =>
    match m w with
    | Next a w' => k a w'
    | Returned r w' => Returned r w'
    | Thrown msg => Thrown msg
    end.

Definition returnResult {A : Type} (r : ValidationResult) : Tx A :=
  fun w => Returned r w.

Definition throw {A : Type} (msg : string) : Tx A := fun _ => Thrown msg.

Definition getStore : Tx Store := fun w => Next (db w) w.

Definition putStore (s : Store) : Tx unit :=
  fun w => Next tt (mkWorld s (outbox w)).

Definition when (b : bool) (m : Tx unit) : Tx unit := if b then m else ret tt.

Declare Scope tx_scope.
Delimit Scope tx_scope with tx.
Notation "x <- m ;; k" := (bind m (fun x => k))
  (at level 61, m at next level, right associativity) : tx_scope.
Notation "m ;;; k" := (bind m (fun _ => k))
  (at level 61, right associativity) : tx_scope.
Local Open Scope tx_scope.

(** [prisma.$transaction(callback)] inside [try { ... } catch]: the callback's
    result is committed with its writes; an exception rolls the writes back
    and [handleError] turns it into a negative result. *)
Definition transaction (body : Tx ValidationResult) (w : World)
  : ValidationResult * World :=
  match body w with
  | Next r w' => (r, w')
  | Returned r w' => (r, w')
  | Thrown msg => (handleError msg, w)
  end.

Definition invalid (errs : list string) : ValidationResult :=
  createValidationResult false errs NoData.

(** [a || b] on strings. *)
Definition orS (a b : string) : string := if (a =? EmptyString)%string then b else a.

Definition findRoom (s : Store) (rid : Z) : option Room :=
  find (fun r => r_room_id r =? rid) (rooms s).

Definition findEventType (s : Store) (tid : Z) : option EventType :=
  find (fun t => type_id t =? tid) (eventTypes s).

Definition findEvent (s : Store) (eid : Z) : option Event :=
  find (fun e => event_id e =? eid) (events s).

(** [tx.invoice.findFirst({ where: { event_id } })], also the [invoice]
    relation of an event. *)
Definition findInvoice (s : Store) (eid : Z) : option Invoice :=
  find (fun i => inv_event_id i =? eid) (invoices s).

Definition servicesOf (s : Store) (eid : Z) : list EventService :=
  filter (fun l => es_event_id l =? eid) (eventServices s).

Definition paymentsOf (s : Store) (eid : Z) : list Payment :=
  filter (fun p => p_event_id p =? eid) (payments s).

Definition reviewsOf (s : Store) (eid : Z) : list Review :=
  filter (fun r => rv_event_id r =? eid) (reviews s).

Definition detailsOf (s : Store) (iid : Z) : list InvoiceDetail :=
  filter (fun d => id_invoice_id d =? iid) (invoiceDetails s).

(** [variation?.base_price || 0] after the optional lookup of a line's
    variation. *)
Definition variationBasePrice (s : Store) (service : ServiceData) : Z :=
  if truthyZ (sd_variation_id service)
  then match findVariation s (NumberF (sd_variation_id service)) with
       | Some v => orZ (v_base_price v) 0
       | None => 0
       end
  else 0.

(** [variation?.variation_name || "Service"]. *)
Definition variationName (s : Store) (service : ServiceData) : string :=
  if truthyZ (sd_variation_id service)
  then match findVariation s (NumberF (sd_variation_id service)) with
       | Some v => orS (variation_name v) "Service"
       | None => "Service"
       end
  else "Service".

(** [Number(service.custom_price || variationBasePrice)]. *)
Definition lineUnitPrice (s : Store) (service : ServiceData) : Z :=
  orF (sd_custom_price service) (variationBasePrice s service).

(** [Number(service.quantity || 1)]. *)
Definition lineQuantity (service : ServiceData) : Z := orF (sd_quantity service) 1.

Definition lineCost (s : Store) (service : ServiceData) : Z :=
  lineUnitPrice s service * lineQuantity service.

(** ** The service, over the helpers it imports *)

Section EventService.

(** Helpers of utils/validation.js, room.service.js, event_service.service.js
    and utils/notification.js, which the service imports; and the offset of
    the host's local time from UTC, in milliseconds. *)
Variable validateString : Field string -> string -> StringOptions -> list string.
Variable validateNumber : Field Z -> string -> Z -> list string.
Variable validateDateRange : Field Z -> Field Z -> string -> list string.
Variable parseAndValidateId : Field Z -> string -> option Z.
Variable VARIATION_NAME_MIN_LENGTH VARIATION_NAME_MAX_LENGTH DESCRIPTION_MAX_LENGTH : Z.
Variable validateEventServiceData : ServiceData -> list string.
Variable checkRoomAvailability :
  Z -> Field Z -> Field Z -> option Z -> Store -> RoomAvailability.
(** [createNotification n] is [None] when the call returns and [Some msg]
    when it throws an error with message [msg]. *)
Variable createNotification : Notification -> option string.
Variable tzOffset : Z.

Definition MS_PER_DAY : Z := 24 * MS_PER_HOUR.

(** [new Date(t).setHours(0, 0, 0, 0)]: local midnight of the day of [t]. *)
Definition startOfLocalDay (t : Z) : Z := t - (t + tzOffset) mod MS_PER_DAY.

Definition idErrors (x : Field Z) (label msg : string) : list string :=
  if truthyZ x
  then match parseAndValidateId x label with
       | Some _ => []
       | None => [msg]
       end
  else [].

Definition validateEventData (eventData : EventData) : list string :=
  let nameValidation :=
    validateString (d_event_name eventData) "Event name"
      (mkStringOptions true (Some (orZ VARIATION_NAME_MIN_LENGTH 3))
         (Some (orZ VARIATION_NAME_MAX_LENGTH 1024)) true) in
  let dateValidation :=
    validateDateRange (d_start_time eventData) (d_end_time eventData) "Event " in
  (nameValidation ++ dateValidation)
  ++ (if truthyS (d_description eventData)
      then validateString (d_description eventData) "Description"
             (mkStringOptions false None (Some (orZ DESCRIPTION_MAX_LENGTH 1000)) true)
      else [])
  ++ (if truthyZ (d_estimated_cost eventData)
      then validateNumber (d_estimated_cost eventData) "Estimated cost" 0 else [])
  ++ (if truthyZ (d_final_cost eventData)
      then validateNumber (d_final_cost eventData) "Final cost" 0 else [])
  ++ (if truthyZ (d_room_service_fee eventData)
      then validateNumber (d_room_service_fee eventData) "Room service fee" 0 else [])
  ++ idErrors (d_account_id eventData) "Account ID" "Invalid account ID"
  ++ idErrors (d_room_id eventData) "Room ID" "Invalid room ID"
  ++ idErrors (d_event_type_id eventData) "Event Type ID" "Invalid event type ID"
  ++ (if truthyS (d_status eventData)
      then match status_of_string (match d_status eventData with Val s => s | _ => EmptyString end) with
           | Some _ => []
           | None => ["Invalid event status"]
           end
      else []).

(** *** Steps shared by creation and update *)

(** The account of the payload must exist. *)
Definition checkAccount (d : EventData) : Tx unit :=
  when (truthyZ (d_account_id d))
    (s <- getStore ;;
     if existsb (Z.eqb (NumberF (d_account_id d))) (accounts s)
     then ret tt
     else returnResult (invalid ["Account not found"])).

(** The event type of the payload must exist and be active. *)
Definition checkEventType (d : EventData) : Tx unit :=
  when (truthyZ (d_event_type_id d))
    (s <- getStore ;;
     match findEventType s (NumberF (d_event_type_id d)) with
     | Some eventType =>
         if t_is_active eventType then ret tt
         else returnResult (invalid ["Event type not found or inactive"])
     | None => returnResult (invalid ["Event type not found or inactive"])
     end).

(** The availability test of a room over the payload's window. *)
Definition checkRoomWindow (rid : Z) (d : EventData) (exclude : option Z) : Tx unit :=
  when (truthyD (d_start_time d) && truthyZ (d_duration_hours d))
    (s <- getStore ;;
     let availability :=
       checkRoomAvailability rid (d_start_time d) (d_duration_hours d) exclude s in
     if negb (ra_isValid availability) || negb (ra_isAvailable availability)
     then returnResult (invalid [orS (ra_reason availability) "Room is not available"])
     else ret tt).

(** [room.base_price || 0], plus the hourly part when [duration_hours] and
    [room.hourly_rate] are both truthy. *)
Definition roomCost (room : Room) (d : EventData) : Z :=
  orZ (base_price room) 0
  + (if truthyZ (d_duration_hours d) && negb (hourly_rate room =? 0)
     then hourly_rate room * NumberF (d_duration_hours d)
     else 0).

(** The loop over [event_services]: validation, availability of a scheduled
    variation, and the cost of the line added to the running total. *)
Fixpoint serviceCosts (services : list ServiceData) (calculatedEstimatedCost : Z)
  : Tx Z :=
  match services with
  | [] => ret calculatedEstimatedCost
  | service :: rest =>
      let serviceErrors := validateEventServiceData service in
      if (0 <? List.length serviceErrors)%nat
      then returnResult (invalid serviceErrors)
      else
        when (truthyZ (sd_variation_id service)
              && truthyD (sd_scheduled_time service)
              && truthyZ (sd_duration_hours service))
          (s <- getStore ;;
           let availabilityCheck :=
             checkVariationAvailability (sd_variation_id service)
               (sd_scheduled_time service) (sd_duration_hours service) s in
           if negb (isValid availabilityCheck)
           then returnResult availabilityCheck
           else ret tt) ;;;
        s <- getStore ;;
        serviceCosts rest (calculatedEstimatedCost + lineCost s service)
  end.

(** The rows [createMany] inserts for the lines of event [eid], keys from
    [k] on. *)
Fixpoint serviceRows (eid k : Z) (services : list ServiceData) : list EventService :=
  match services with
  | [] => []
  | service :: rest =>
      mkEventService k eid (sd_service_id service)
        (numOrNull (sd_variation_id service))
        (orF (sd_quantity service) 1)
        (numOrNull (sd_custom_price service))
        (trimOrNull (sd_notes service))
        (match sd_status service with Val st => orS st "CONFIRMED" | _ => "CONFIRMED" end)
        (dateOrNull (sd_scheduled_time service))
        (numOrNull (sd_duration_hours service))
      :: serviceRows eid (k + 1) rest
  end.

Definition createEventServices (eid : Z) (services : list ServiceData) : Tx unit :=
  when (0 <? List.length services)%nat
    (s <- getStore ;;
     putStore (mkStore (accounts s) (rooms s) (eventTypes s) (variations s) (events s)
                 (eventServices s ++ serviceRows eid (next_event_service_id s) services)
                 (invoices s) (invoiceDetails s) (payments s) (reviews s)
                 (next_event_id s)
                 (next_event_service_id s + Z.of_nat (List.length services))
                 (next_invoice_id s))).

Definition addInvoiceDetail (line : InvoiceDetail) : Tx unit :=
  s <- getStore ;;
  putStore (mkStore (accounts s) (rooms s) (eventTypes s) (variations s) (events s)
              (eventServices s) (invoices s) (invoiceDetails s ++ [line])
              (payments s) (reviews s)
              (next_event_id s) (next_event_service_id s) (next_invoice_id s)).

(** The ROOM line of an invoice; reading [room_name] of a room that is not
    found throws. *)
Definition roomDetail (iid rid : Z) : Tx unit :=
  s <- getStore ;;
  match findRoom s rid with
  | Some room =>
      addInvoiceDetail
        (mkInvoiceDetail iid (room_name room) 1 (base_price room) (base_price room)
           ROOM None None)
  | None => throw "Cannot read properties of null (reading 'room_name')"
  end.

(** The SERVICE lines of an invoice, one per service line of the payload. *)
Fixpoint serviceDetails (iid : Z) (services : list ServiceData) : Tx unit :=
  match services with
  | [] => ret tt
  | service :: rest =>
      s <- getStore ;;
      addInvoiceDetail
        (mkInvoiceDetail iid (variationName s service)
           (lineQuantity service)
           (lineUnitPrice s service)
           (lineUnitPrice s service * lineQuantity service)
           SERVICE (Some (sd_service_id service))
           (numOrNull (sd_variation_id service))) ;;;
      serviceDetails iid rest
  end.

(** [event_date ? new Date(event_date)
               : new Date(new Date(start_time).setHours(0, 0, 0, 0))];
    with neither, the date is invalid and the write is refused. *)
Definition eventDateOf (d : EventData) : Tx Z :=
  match d_event_date d with
  | Val t => ret t
  | _ =>
      match d_start_time d with
      | Val t => ret (startOfLocalDay t)
      | Null => ret (startOfLocalDay 0)
      | Undefined => throw "Invalid value for argument `event_date`: Provided Date object is invalid. Expected Date."
      end
  end.

(** A status string the enum column accepts. *)
Definition statusOf (st : string) : Tx EventStatus :=
  match status_of_string st with
  | Some v => ret v
  | None => throw "Invalid value for argument `status`. Expected EventStatus."
  end.

(** *** createEvent *)

(** The room step of creation: the room must be found, active and AVAILABLE
    and clear over the window; its price is added to the running total. *)
Definition createRoomStep (d : EventData) (calculatedEstimatedCost : Z) : Tx Z :=
  if truthyZ (d_room_id d)
  then
    s <- getStore ;;
    match findRoom s (NumberF (d_room_id d)) with
    | Some room =>
        if negb (r_is_active room) || negb (r_status room =? "AVAILABLE")%string
        then returnResult (invalid ["Room not found, inactive, or unavailable"])
        else
          checkRoomWindow (NumberF (d_room_id d)) d None ;;;
          ret (calculatedEstimatedCost + roomCost room d)
    | None => returnResult (invalid ["Room not found, inactive, or unavailable"])
    end
  else ret calculatedEstimatedCost.

(** [tx.event.create]. No line of the service writes [date_create]: the
    column is the creation timestamp of the event, filled by the database with
    the instant of the insertion. *)
Definition insertEvent (d : EventData) (calculatedEstimatedCost now : Z) : Tx Event :=
  name <- match d_event_name d with
          | Val n => ret (trim n)
          | _ => throw "Cannot read properties of undefined (reading 'trim')"
          end ;;
  date <- eventDateOf d ;;
  st <- match d_status d with
        | Undefined => ret PENDING
        | Val v => statusOf v
        | Null => throw "Invalid value for argument `status`. Expected EventStatus."
        end ;;
  s <- getStore ;;
  let newEvent :=
    mkEvent (next_event_id s) name
      (trimOrNull (d_description d))
      (dateOrNull (d_start_time d))
      (dateOrNull (d_end_time d))
      date
      calculatedEstimatedCost
      (numOrNull (d_final_cost d))
      (numOrNull (d_room_service_fee d))
      st
      (numOrNull (d_account_id d))
      (numOrNull (d_room_id d))
      (numOrNull (d_event_type_id d))
      now in
  putStore (mkStore (accounts s) (rooms s) (eventTypes s) (variations s)
              (events s ++ [newEvent])
              (eventServices s) (invoices s) (invoiceDetails s) (payments s) (reviews s)
              (next_event_id s + 1) (next_event_service_id s) (next_invoice_id s)) ;;;
  ret newEvent.

(** [tx.invoice.create]. *)
Definition insertInvoice (newEvent : Event) (total now : Z) : Tx Invoice :=
  s <- getStore ;;
  let invoice :=
    mkInvoice (next_invoice_id s) ("INV-" ++ showZ now)%string total
      (event_id newEvent) (account_id newEvent) "PENDING" now
      (now + 7 * 24 * 60 * 60 * 1000) in
  putStore (mkStore (accounts s) (rooms s) (eventTypes s) (variations s) (events s)
              (eventServices s) (invoices s ++ [invoice]) (invoiceDetails s)
              (payments s) (reviews s)
              (next_event_id s) (next_event_service_id s) (next_invoice_id s + 1)) ;;;
  ret invoice.

(** The invoice of a new event and its lines, when the cost is positive. *)
Definition createInvoice (d : EventData) (newEvent : Event)
    (calculatedEstimatedCost now : Z) : Tx unit :=
  when (0 <? calculatedEstimatedCost)
    (invoice <- insertInvoice newEvent calculatedEstimatedCost now ;;
     when (truthyZ (d_room_id d))
       (roomDetail (invoice_id invoice) (NumberF (d_room_id d))) ;;;
     when (0 <? List.length (d_event_services d))%nat
       (serviceDetails (invoice_id invoice) (d_event_services d))).

(** [await createNotification(...)]: the notifier receives the message, or
    the call throws. *)
Definition notify (n : Notification) : Tx unit :=
  fun w =>
    match createNotification n with
    | None => Next tt (mkWorld (db w) (outbox w ++ [n]))
    | Some msg => Thrown msg
    end.

Definition bookingNotification (newEvent : Event) (aid : Z) : Notification :=
  mkNotification aid "Booking Successful"
    ("Your event " ++ dquote ++ event_name newEvent ++ dquote
     ++ " has been booked successfully!")%string
    "CONFIRMATION".

Definition notifyBooking (newEvent : Event) : Tx unit :=
  match account_id newEvent with
  | Some aid => when (negb (aid =? 0)) (notify (bookingNotification newEvent aid))
  | None => ret tt
  end.

(** The callback of the transaction of [createEvent], up to the invoice:
    the checks, the cost and the rows written. *)
Definition createEventWrites (d : EventData) (now : Z) : Tx Event :=
  checkAccount d ;;;
  cost1 <- createRoomStep d (orF (d_estimated_cost d) 0) ;;
  checkEventType d ;;;
  calculatedEstimatedCost <- serviceCosts (d_event_services d) cost1 ;;
  newEvent <- insertEvent d calculatedEstimatedCost now ;;
  createEventServices (event_id newEvent) (d_event_services d) ;;;
  createInvoice d newEvent calculatedEstimatedCost now ;;;
  ret newEvent.

(** The whole callback: the writes, the notification, the result. The new
    event is read back before any line is inserted, so its
    [event_services] is empty. *)
Definition createEventTx (d : EventData) (now : Z) : Tx ValidationResult :=
  newEvent <- createEventWrites d now ;;
  notifyBooking newEvent ;;;
  ret (createValidationResult true [] (EventData_ newEvent 0)).

Definition createEvent (eventData : EventData) (now : Z) (w : World)
  : ValidationResult * World :=
  let validationErrors := validateEventData eventData in
  if (0 <? List.length validationErrors)%nat
  then (invalid validationErrors, w)
  else transaction (createEventTx eventData now) w.

(** *** updateEvent *)

(** [x !== undefined ? conv(x) : undefined]: an absent property leaves the
    stored column as it is. *)
Definition updated {A B : Type} (x : Field A) (conv : Field A -> B) (old : B) : B :=
  match x with
  | Undefined => old
  | _ => conv x
  end.

(** The ownership and lead-time policy for a CUSTOMER;
    [(eventStart - now) / (1000 * 60 * 60) < 24] is compared after
    multiplying both sides by the milliseconds of an hour. *)
Definition policyError (existingEvent : Event) (user : option User) (now : Z)
  : option string :=
  match user with
  | Some u =>
      if (role u =? "CUSTOMER")%string
      then
        if negb (opt_eqb (account_id existingEvent) (u_account_id u))
        then Some "You can only update your own events."
        else
          let eventStart :=
            match start_time existingEvent with Some t => t | None => 0 end in
          if eventStart - now <? 24 * MS_PER_HOUR
          then Some "You can only update events at least 24 hours in advance."
          else None
      else None
  | None => None
  end.

(** The room step of an update. A room other than the stored one restarts
    the total from that room's price; otherwise the total is kept and the
    stored room is re-validated when the start or the duration is supplied. *)
Definition updateRoomStep (existingEvent : Event) (d : EventData)
    (calculatedEstimatedCost : Z) : Tx Z :=
  if truthyZ (d_room_id d) && negb (opt_eqb (room_id existingEvent) (NumberF (d_room_id d)))
  then
    s <- getStore ;;
    match findRoom s (NumberF (d_room_id d)) with
    | Some room =>
        if negb (r_is_active room) || negb (r_status room =? "AVAILABLE")%string
        then returnResult (invalid ["Room not found, inactive, or unavailable"])
        else
          checkRoomWindow (NumberF (d_room_id d)) d (Some (event_id existingEvent)) ;;;
          ret (roomCost room d)
    | None => returnResult (invalid ["Room not found, inactive, or unavailable"])
    end
  else
    match room_id existingEvent with
    | Some rid =>
        if (truthyD (d_start_time d) || truthyZ (d_duration_hours d)) && negb (rid =? 0)
        then
          s <- getStore ;;
          match findRoom s rid with
          | Some room =>
              if negb (r_is_active room) || negb (r_status room =? "AVAILABLE")%string
              then returnResult (invalid ["Current room is not available"])
              else
                checkRoomWindow rid d (Some (event_id existingEvent)) ;;;
                ret calculatedEstimatedCost
          | None => returnResult (invalid ["Current room is not available"])
          end
        else ret calculatedEstimatedCost
    | None => ret calculatedEstimatedCost
    end.

(** [tx.event.update]. *)
Definition writeEvent (existingEvent : Event) (d : EventData)
    (calculatedEstimatedCost : Z) : Tx Event :=
  date <- eventDateOf d ;;
  st <- match d_status d with
        | Undefined => ret (status existingEvent)
        | Val v => statusOf v
        | Null => throw "Invalid value for argument `status`. Expected EventStatus."
        end ;;
  s <- getStore ;;
  let updatedEvent :=
    mkEvent (event_id existingEvent)
      (match d_event_name d with Val n => trim n | _ => event_name existingEvent end)
      (updated (d_description d) trimOrNull (description existingEvent))
      (updated (d_start_time d) dateOrNull (start_time existingEvent))
      (updated (d_end_time d) dateOrNull (end_time existingEvent))
      date
      calculatedEstimatedCost
      (updated (d_final_cost d) (fun x => Some (NumberF x)) (final_cost existingEvent))
      (updated (d_room_service_fee d) (fun x => Some (NumberF x))
         (room_service_fee existingEvent))
      st
      (updated (d_account_id d) numOrNull (account_id existingEvent))
      (updated (d_room_id d) numOrNull (room_id existingEvent))
      (updated (d_event_type_id d) numOrNull (event_type_id existingEvent))
      (date_create existingEvent) in
  putStore (mkStore (accounts s) (rooms s) (eventTypes s) (variations s)
              (map (fun e => if event_id e =? event_id existingEvent
                             then updatedEvent else e) (events s))
              (eventServices s) (invoices s) (invoiceDetails s) (payments s) (reviews s)
              (next_event_id s) (next_event_service_id s) (next_invoice_id s)) ;;;
  ret updatedEvent.

(** [tx.eventService.deleteMany({ where: { event_id } })]. *)
Definition deleteEventServices (eid : Z) : Tx unit :=
  s <- getStore ;;
  putStore (mkStore (accounts s) (rooms s) (eventTypes s) (variations s) (events s)
              (filter (fun l => negb (es_event_id l =? eid)) (eventServices s))
              (invoices s) (invoiceDetails s) (payments s) (reviews s)
              (next_event_id s) (next_event_service_id s) (next_invoice_id s)).

(** The service lines of an update: with a non-empty list the stored lines
    of the event are deleted and the supplied ones inserted. *)
Definition replaceEventServices (eid : Z) (services : list ServiceData) : Tx unit :=
  when (0 <? List.length services)%nat
    (deleteEventServices eid ;;;
     createEventServices eid services).

(** [tx.invoice.update] of the total, then [tx.invoiceDetail.deleteMany]. *)
Definition resetInvoice (existingInvoice : Invoice) (total : Z) : Tx unit :=
  s <- getStore ;;
  putStore (mkStore (accounts s) (rooms s) (eventTypes s) (variations s) (events s)
              (eventServices s)
              (map (fun i => if invoice_id i =? invoice_id existingInvoice
                             then mkInvoice (invoice_id i) (invoice_number i) total
                                    (inv_event_id i) (inv_account_id i) (inv_status i)
                                    (issue_date i) (due_date i)
                             else i) (invoices s))
              (filter (fun l => negb (id_invoice_id l =? invoice_id existingInvoice))
                 (invoiceDetails s))
              (payments s) (reviews s)
              (next_event_id s) (next_event_service_id s) (next_invoice_id s)).

(** [room_id || existingEvent.room_id]. *)
Definition invoiceRoomId (existingEvent : Event) (d : EventData) : option Z :=
  if truthyZ (d_room_id d) then Some (NumberF (d_room_id d))
  else match room_id existingEvent with
       | Some rid => if rid =? 0 then None else Some rid
       | None => None
       end.

(** The invoice of an updated event: rewritten when the computed cost
    differs from the stored one and an invoice exists. *)
Definition updateInvoice (existingEvent : Event) (d : EventData)
    (calculatedEstimatedCost : Z) : Tx unit :=
  when (negb (calculatedEstimatedCost =? estimated_cost existingEvent))
    (s <- getStore ;;
     match findInvoice s (event_id existingEvent) with
     | Some existingInvoice =>
         resetInvoice existingInvoice calculatedEstimatedCost ;;;
         match invoiceRoomId existingEvent d with
         | Some rid => roomDetail (invoice_id existingInvoice) rid
         | None => ret tt
         end ;;;
         when (0 <? List.length (d_event_services d))%nat
           (serviceDetails (invoice_id existingInvoice) (d_event_services d))
     | None => ret tt
     end).

(** The callback of the transaction of [updateEvent]. *)
Definition updateEventTx (existingEvent : Event) (d : EventData) : Tx ValidationResult :=
  checkAccount d ;;;
  cost1 <- updateRoomStep existingEvent d
             (orF (d_estimated_cost d) (orZ (estimated_cost existingEvent) 0)) ;;
  checkEventType d ;;;
  calculatedEstimatedCost <- serviceCosts (d_event_services d) cost1 ;;
  s0 <- getStore ;;
  updatedEvent <- writeEvent existingEvent d calculatedEstimatedCost ;;
  replaceEventServices (event_id existingEvent) (d_event_services d) ;;;
  updateInvoice existingEvent d calculatedEstimatedCost ;;;
  ret (createValidationResult true []
         (EventData_ updatedEvent
            (List.length (servicesOf s0 (event_id existingEvent))))).

Definition updateEvent (validEventId : Z) (updateData : EventData)
    (user : option User) (now : Z) (w : World) : ValidationResult * World :=
  match findEvent (db w) validEventId with
  | None => (invalid ["Event not found"], w)
  | Some existingEvent =>
      match policyError existingEvent user now with
      | Some msg => (invalid [msg], w)
      | None =>
          let validationErrors := validateEventData updateData in
          if (0 <? List.length validationErrors)%nat
          then (invalid validationErrors, w)
          else transaction (updateEventTx existingEvent updateData) w
      end
  end.

(** *** deleteEvent *)

Definition deletePayments (eid : Z) : Tx unit :=
  s <- getStore ;;
  putStore (mkStore (accounts s) (rooms s) (eventTypes s) (variations s) (events s)
              (eventServices s) (invoices s) (invoiceDetails s)
              (filter (fun p => negb (p_event_id p =? eid)) (payments s)) (reviews s)
              (next_event_id s) (next_event_service_id s) (next_invoice_id s)).

Definition deleteReviews (eid : Z) : Tx unit :=
  s <- getStore ;;
  putStore (mkStore (accounts s) (rooms s) (eventTypes s) (variations s) (events s)
              (eventServices s) (invoices s) (invoiceDetails s) (payments s)
              (filter (fun r => negb (rv_event_id r =? eid)) (reviews s))
              (next_event_id s) (next_event_service_id s) (next_invoice_id s)).

(** [invoiceDetail.deleteMany] of the invoice's lines, then [invoice.delete]. *)
Definition deleteInvoice (iid : Z) : Tx unit :=
  s <- getStore ;;
  putStore (mkStore (accounts s) (rooms s) (eventTypes s) (variations s) (events s)
              (eventServices s)
              (filter (fun i => negb (invoice_id i =? iid)) (invoices s))
              (filter (fun l => negb (id_invoice_id l =? iid)) (invoiceDetails s))
              (payments s) (reviews s)
              (next_event_id s) (next_event_service_id s) (next_invoice_id s)).

Definition deleteEventRow (eid : Z) : Tx unit :=
  s <- getStore ;;
  putStore (mkStore (accounts s) (rooms s) (eventTypes s) (variations s)
              (filter (fun e => negb (event_id e =? eid)) (events s))
              (eventServices s) (invoices s) (invoiceDetails s) (payments s) (reviews s)
              (next_event_id s) (next_event_service_id s) (next_invoice_id s)).

(** The callback of the transaction of [deleteEvent]. *)
Definition deleteEventTx (validEventId : Z) (forceDelete : bool)
    (invoice : option Invoice) : Tx unit :=
  when forceDelete
    (deleteEventServices validEventId ;;;
     deletePayments validEventId ;;;
     deleteReviews validEventId ;;;
     match invoice with
     | Some i => deleteInvoice (invoice_id i)
     | None => ret tt
     end) ;;;
  deleteEventRow validEventId.

Definition isSome {A : Type} (o : option A) : bool :=
  match o with Some _ => true | None => false end.

Definition blockedMessage (nServices nPayments nReviews : nat) (hasInv : bool) : string :=
  ("Cannot delete event. It has " ++ showNat nServices ++ " services, "
   ++ showNat nPayments ++ " payments, " ++ showNat nReviews ++ " reviews, and "
   ++ (if hasInv then "1" else "0")
   ++ " invoice. Use forceDelete to delete anyway.")%string.

Definition deleteEvent (validEventId : Z) (forceDelete : bool) (w : World)
  : ValidationResult * World :=
  match findEvent (db w) validEventId with
  | None => (invalid ["Event not found"], w)
  | Some existingEvent =>
      let event_services := servicesOf (db w) validEventId in
      let invoice := findInvoice (db w) validEventId in
      let pays := paymentsOf (db w) validEventId in
      let revs := reviewsOf (db w) validEventId in
      let hasDependencies :=
        (0 <? List.length event_services)%nat || isSome invoice
        || (0 <? List.length pays)%nat || (0 <? List.length revs)%nat in
      if hasDependencies && negb forceDelete
      then (createValidationResult false
              [blockedMessage (List.length event_services) (List.length pays)
                 (List.length revs) (isSome invoice)]
              (BlockedData (List.length event_services) (List.length pays)
                 (List.length revs) (isSome invoice)), w)
      else
        transaction
          (deleteEventTx validEventId forceDelete invoice ;;;
           ret (createValidationResult true []
                  (DeletedData validEventId
                     (if forceDelete then List.length event_services else 0%nat)
                     (if forceDelete then List.length pays else 0%nat)
                     (if forceDelete then List.length revs else 0%nat)
                     (if forceDelete && isSome invoice then 1%nat else 0%nat)))) w
  end.

(** *** toggleEventStatus *)

Definition toggledStatus (st : EventStatus) : EventStatus :=
  if EventStatus_eqb st PENDING then CONFIRMED else PENDING.

Definition setStatus (e : Event) (st : EventStatus) : Event :=
  mkEvent (event_id e) (event_name e) (description e) (start_time e) (end_time e)
    (event_date e) (estimated_cost e) (final_cost e) (room_service_fee e) st
    (account_id e) (room_id e) (event_type_id e) (date_create e).

Definition toggleEventStatus (validEventId : Z) (w : World) : ValidationResult * World :=
  match findEvent (db w) validEventId with
  | None => (invalid ["Event not found"], w)
  | Some event =>
      let newStatus := toggledStatus (status event) in
      let s := db w in
      let updatedEvent := setStatus event newStatus in
      (createValidationResult true [] (ToggledData updatedEvent),
       mkWorld
         (mkStore (accounts s) (rooms s) (eventTypes s) (variations s)
            (map (fun e => if event_id e =? validEventId then setStatus e newStatus else e)
               (events s))
            (eventServices s) (invoices s) (invoiceDetails s) (payments s) (reviews s)
            (next_event_id s) (next_event_service_id s) (next_invoice_id s))
         (outbox w))
  end.

(** *** getAllEvents *)

Record Filters : Type := mkFilters {
  f_account_id : Field Z;
  f_room_id : Field Z;
  f_event_type_id : Field Z;
  f_status : Field string;
  dateMin : Field Z;
  dateMax : Field Z;
  search : Field string;
  page : Field Z;
  limit : Field Z;
  sortBy : Field string;
  sortOrder : Field string;
  includeEventServices : bool
}.

Record PaginationCheck : Type := mkPaginationCheck {
  validPage : Z;
  validLimit : Z;
  paginationErrors : list string
}.

(** [validatePagination] of utils/validation.js; the database's ORDER BY;
    the database's case-insensitive [contains]. *)
Variable validatePagination : Z -> Z -> PaginationCheck.
Variable orderRows : string -> string -> list Event -> list Event.
Variable containsInsensitive : string -> string -> bool.

(** A destructured property with a default value. *)
Definition withDefault {A : Type} (x : Field A) (dflt : A) : Field A :=
  match x with
  | Undefined => Val dflt
  | _ => x
  end.

Definition strOf (x : Field string) : string :=
  match x with Val s => s | _ => EmptyString end.

Definition includes (l : list string) (s : string) : bool :=
  existsb (fun x => (x =? s)%string) l.

(** [buildSortOrder]: the field and the direction of the ordering. *)
Definition buildSortOrder (sortBy sortOrder : Field string) : string * string :=
  let validSortFields :=
    ["event_name"; "start_time"; "end_time"; "estimated_cost"; "final_cost";
     "room_service_fee"; "date_create"; "status"] in
  let validSortOrders := ["asc"; "desc"] in
  let field :=
    match sortBy with
    | Val f => if includes validSortFields f then f else "date_create"
    | _ => "date_create"
    end in
  let order :=
    match sortOrder with
    | Val o => if includes validSortOrders (toLowerCase o) then toLowerCase o else "asc"
    | _ => "asc"
    end in
  (field, order).

(** One equality clause of [where] on an id; a clause that is not a number
    is refused by the database client. *)
Definition idClause (x : Field Z) (label : string) : Tx (option Z) :=
  if truthyZ x
  then match parseAndValidateId x label with
       | Some n => ret (Some n)
       | None => throw "Invalid value provided. Expected Int."
       end
  else ret None.

Definition statusClause (x : Field string) : Tx (option EventStatus) :=
  if truthyS x then (st <- statusOf (strOf x) ;; ret (Some st)) else ret None.

Definition optMatches (clause : option Z) (column : option Z) : bool :=
  match clause with
  | Some n => opt_eqb column n
  | None => true
  end.

(** The rows the [where] clause selects. *)
Definition matchesWhere (f : Filters) (aid rid tid : option Z)
    (st : option EventStatus) (e : Event) : bool :=
  optMatches aid (account_id e)
  && optMatches rid (room_id e)
  && optMatches tid (event_type_id e)
  && match st with Some v => EventStatus_eqb (status e) v | None => true end
  && match dateMin f with
     | Val lo => match start_time e with Some t => lo <=? t | None => false end
     | _ => true
     end
  && match dateMax f with
     | Val hi => match start_time e with Some t => t <=? hi | None => false end
     | _ => true
     end
  && (if truthyS (search f) && negb (trim (strOf (search f)) =? EmptyString)%string
      then containsInsensitive (event_name e) (trim (strOf (search f)))
           || match description e with
              | Some dsc => containsInsensitive dsc (trim (strOf (search f)))
              | None => false
              end
      else true).

(** [Math.ceil(a / b)]. *)
Definition ceilDiv (a b : Z) : Z := Qceiling (inject_Z a / inject_Z b)%Q.

Definition getAllEventsQuery (f : Filters) (vp : PaginationCheck) : Tx ValidationResult :=
  aid <- idClause (f_account_id f) "Account ID" ;;
  rid <- idClause (f_room_id f) "Room ID" ;;
  tid <- idClause (f_event_type_id f) "Event Type ID" ;;
  st <- statusClause (f_status f) ;;
  s <- getStore ;;
  let skip := (validPage vp - 1) * validLimit vp in
  let orderBy := buildSortOrder (withDefault (sortBy f) "date_create")
                   (withDefault (sortOrder f) "asc") in
  let selected := filter (matchesWhere f aid rid tid st) (events s) in
  let found :=
    firstn (Z.to_nat (validLimit vp))
      (skipn (Z.to_nat skip) (orderRows (fst orderBy) (snd orderBy) selected)) in
  let total := Z.of_nat (List.length selected) in
  let processedEvents :=
    map (fun event =>
           (event,
            if includeEventServices f
            then List.length (servicesOf s (event_id event)) else 0%nat)) found in
  ret (createValidationResult true []
         (ListData processedEvents
            (mkPagination (validPage vp) (validLimit vp) total
               (ceilDiv total (validLimit vp))
               (validPage vp <? ceilDiv total (validLimit vp))
               (1 <? validPage vp)))).

Definition getAllEvents (filters : Filters) (w : World) : ValidationResult :=
  let vp := validatePagination (NumberF (withDefault (page filters) 1))
              (NumberF (withDefault (limit filters) 20)) in
  if (0 <? List.length (paginationErrors vp))%nat
  then invalid (paginationErrors vp)
  else match getAllEventsQuery filters vp w with
       | Next r _ => r
       | Returned r _ => r
       | Thrown msg => handleError msg
       end.

End EventService.

(** ** The rules in the words of the specification *)

(** The end of a stored booking: its start plus its duration, a booking
    without a duration ending as it starts. *)
Definition candidateEnd (cstart : Z) (cdur : option Z) : Z :=
  cstart + (match cdur with Some d => d | None => 0 end) * MS_PER_HOUR.

(** The spec's conflict with the window [start, proposedEnd) on variation
    [vid]: a CONFIRMED booking of the variation whose window strictly
    overlaps it. *)
Definition specConflictWith (vid start proposedEnd : Z) (ev : EventService) : bool :=
  match es_variation_id ev, es_scheduled_time ev with
  | Some x, Some cstart =>
      (x =? vid) && (es_status ev =? "CONFIRMED")%string
      && (start <? candidateEnd cstart (es_duration_hours ev))
      && (cstart <? proposedEnd)
  | _, _ => false
  end.

(** The override of the spec's cost rule: the caller's value, 0 if absent. *)
Definition specOverride (d : EventData) : Z :=
  match d_estimated_cost d with Val c => c | _ => 0 end.

(** The room part of the rule: the base price, plus rate times duration
    when a duration is known. *)
Definition specRoomCost (room : Room) (d : EventData) : Z :=
  base_price room
  + match d_duration_hours d with
    | Val h => hourly_rate room * h
    | _ => 0
    end.

(** The base price of the variation of a line, 0 without a variation. *)
Definition specVariationPrice (s : Store) (service : ServiceData) : Z :=
  match sd_variation_id service with
  | Val x =>
      if x =? 0 then 0
      else match findVariation s x with Some v => v_base_price v | None => 0 end
  | _ => 0
  end.

(** A line of the rule as the spec words it: the custom price if present,
    else the variation's base price, times the quantity, 1 by default. *)
Definition specLineCost (s : Store) (service : ServiceData) : Z :=
  match sd_custom_price service with
  | Val p => p
  | _ => specVariationPrice s service
  end
  * match sd_quantity service with
    | Val q => q
    | _ => 1
    end.

Definition sumZ (l : list Z) : Z := fold_right Z.add 0 l.

(** The rule of the spec over a payload, with the room the payload names. *)
Definition specCost (s : Store) (d : EventData) : Z :=
  specOverride d
  + match d_room_id d with
    | Val rid =>
        if rid =? 0 then 0
        else match findRoom s rid with
             | Some room => specRoomCost room d
             | None => 0
             end
    | _ => 0
    end
  + sumZ (map (specLineCost s) (d_event_services d)).

(** The rule with the lines as the service prices them: a custom price or a
    quantity of 0 counts as absent. *)
Definition linesCost (s : Store) (services : list ServiceData) : Z :=
  sumZ (map (lineCost s) services).

Definition roomPart (s : Store) (d : EventData) : Z :=
  if truthyZ (d_room_id d)
  then match findRoom s (NumberF (d_room_id d)) with
       | Some room => specRoomCost room d
       | None => 0
       end
  else 0.

Definition bookingCost (s : Store) (d : EventData) : Z :=
  specOverride d + roomPart s d + linesCost s (d_event_services d).

(** No line of the payload carries a custom price or a quantity of 0. *)
Definition noZeroLine (service : ServiceData) : bool :=
  negb (match sd_custom_price service with Val p => p =? 0 | _ => false end)
  && negb (match sd_quantity service with Val q => q =? 0 | _ => false end).

(** The sum of the subtotals of the lines of an invoice. *)
Definition detailsTotal (s : Store) (iid : Z) : Z :=
  sumZ (map subtotal (detailsOf s iid)).

(** The schema's one-to-one relation: an event has at most one invoice. *)
Definition oneInvoicePerEvent (s : Store) : Prop :=
  forall i j, In i (invoices s) -> In j (invoices s) ->
    inv_event_id i = inv_event_id j -> invoice_id i = invoice_id j.


(** The rule for a line as amended: a custom price that is absent or 0
    gives the base price of the variation, a quantity that is absent or 0
    gives 1. *)
Definition amendedLineCost (s : Store) (service : ServiceData) : Z :=
  match sd_custom_price service with
  | Val p => if p =? 0 then specVariationPrice s service else p
  | _ => specVariationPrice s service
  end
  * match sd_quantity service with
    | Val q => if q =? 0 then 1 else q
    | _ => 1
    end.

(** The amended rule over a payload: the override, the room and the lines. *)
Definition amendedCost (s : Store) (d : EventData) : Z :=
  specOverride d
  + match d_room_id d with
    | Val rid =>
        if rid =? 0 then 0
        else match findRoom s rid with
             | Some room => specRoomCost room d
             | None => 0
             end
    | _ => 0
    end
  + sumZ (map (amendedLineCost s) (d_event_services d)).

(** A line whose custom price is not 0, and one whose quantity is not 0. *)
Definition pricedLine (service : ServiceData) : bool :=
  negb (match sd_custom_price service with Val p => p =? 0 | _ => false end).

Definition countedLine (service : ServiceData) : bool :=
  negb (match sd_quantity service with Val q => q =? 0 | _ => false end).

(** An optional number of a supplied line as it is stored: null when absent
    or 0. *)
Definition suppliedNumber (x : Field Z) : option Z :=
  match x with
  | Val n => if n =? 0 then None else Some n
  | _ => None
  end.

(** The stored row [row] is the supplied line [service] of event [eid]: it
    carries the service, the variation, the custom price, the time and the
    duration of the line, its quantity or 1, its status or CONFIRMED, and its
    notes without the white space around them. *)
Definition lineStored (eid : Z) (service : ServiceData) (row : EventService) : Prop :=
  es_event_id row = eid
  /\ es_service_id row = sd_service_id service
  /\ es_variation_id row = suppliedNumber (sd_variation_id service)
  /\ es_quantity row
     = match sd_quantity service with
       | Val q => if q =? 0 then 1 else q
       | _ => 1
       end
  /\ es_custom_price row = suppliedNumber (sd_custom_price service)
  /\ es_notes row
     = match sd_notes service with
       | Val n => if (trim n =? EmptyString)%string then None else Some (trim n)
       | _ => None
       end
  /\ es_status row
     = match sd_status service with
       | Val st => if (st =? EmptyString)%string then "CONFIRMED" else st
       | _ => "CONFIRMED"
       end
  /\ es_scheduled_time row
     = match sd_scheduled_time service with Val t => Some t | _ => None end
  /\ es_duration_hours row = suppliedNumber (sd_duration_hours service).

(** The keys [k], [k + 1], ... of [n] rows. *)
Fixpoint keysFrom (k : Z) (n : nat) : list Z :=
  match n with
  | O => nil
  | S m => k :: keysFrom (k + 1) m
  end.

(** An id filter of a listing request holds of a column: a filter that is
    absent or 0 holds of every row, any other holds of the rows whose column
    is the id it parses to. *)
Definition idFilterHolds (parse : Field Z -> string -> option Z) (x : Field Z)
    (label : string) (column : option Z) : bool :=
  match x with
  | Val n =>
      if n =? 0 then true
      else match parse x label, column with
           | Some k, Some c => c =? k
           | _, _ => false
           end
  | _ => true
  end.

(** An event matches the filters of a listing request: the account, the
    room, the event type and the status asked for, a start within the dates
    asked for, and the searched text in its name or its description. *)
Definition matchesRequest (parse : Field Z -> string -> option Z)
    (contains : string -> string -> bool) (f : Filters) (e : Event) : bool :=
  idFilterHolds parse (f_account_id f) "Account ID" (account_id e)
  && idFilterHolds parse (f_room_id f) "Room ID" (room_id e)
  && idFilterHolds parse (f_event_type_id f) "Event Type ID" (event_type_id e)
  && match f_status f with
     | Val st =>
         if (st =? EmptyString)%string then true
         else match status_of_string st with
              | Some v => EventStatus_eqb (status e) v
              | None => false
              end
     | _ => true
     end
  && match dateMin f, start_time e with
     | Val lo, Some t => lo <=? t
     | Val _, None => false
     | _, _ => true
     end
  && match dateMax f, start_time e with
     | Val hi, Some t => t <=? hi
     | Val _, None => false
     | _, _ => true
     end
  && match search f with
     | Val text =>
         if (trim text =? EmptyString)%string then true
         else contains (event_name e) (trim text)
              || match description e with
                 | Some dsc => contains dsc (trim text)
                 | None => false
                 end
     | _ => true
     end.

(** The matching events of a store. *)
Definition matchingEvents (parse : Field Z -> string -> option Z)
    (contains : string -> string -> bool) (f : Filters) (s : Store) : list Event :=
  filter (matchesRequest parse contains f) (events s).

(** A run of white-space code points, and bytes that neither start nor end
    with one. *)
Definition whiteBytes (l : list ascii) : Prop :=
  exists cps, Forall (fun cp => In cp whiteSpace) cps /\ l = List.concat cps.

Definition noWhiteStart (l : list ascii) : Prop :=
  forall cp rest, In cp whiteSpace -> l <> (cp ++ rest)%list.

Definition noWhiteEnd (l : list ascii) : Prop :=
  forall cp rest, In cp whiteSpace -> l <> (rest ++ cp)%list.

(** [inner] is [outer] without the white space around it. *)
Definition trimmedFrom (outer inner : string) : Prop :=
  exists pre post,
    list_ascii_of_string outer
    = (pre ++ list_ascii_of_string inner ++ post)%list
    /\ whiteBytes pre /\ whiteBytes post
    /\ noWhiteStart (list_ascii_of_string inner)
    /\ noWhiteEnd (list_ascii_of_string inner).
(** ** Reference helpers and a sample database *)

(** Modelled from the spec: [validateString] of utils/validation.js is not
    among the sources; a required name, with length bounds. *)
Definition validateStringRef (x : Field string) (label : string) (o : StringOptions)
  : list string :=
  match x with
  | Val s =>
      let n := Z.of_nat (String.length (trim s)) in
      if required o && (n =? 0) then [(label ++ " is required")%string]
      else if match minLength o with Some lo => n <? lo | None => false end
      then [(label ++ " is too short")%string]
      else if match maxLength o with Some hi => hi <? n | None => false end
      then [(label ++ " is too long")%string]
      else []
  | _ => if required o then [(label ++ " is required")%string] else []
  end.

(** Modelled from the spec: [validateNumber] is not among the sources;
    monetary fields are non-negative. *)
Definition validateNumberRef (x : Field Z) (label : string) (min : Z) : list string :=
  match x with
  | Val n => if n <? min then [(label ++ " is below the minimum")%string] else []
  | _ => []
  end.

(** Modelled from the spec: [validateDateRange] is not among the sources; a
    well-formed range has its start before its end. *)
Definition validateDateRangeRef (a b : Field Z) (label : string) : list string :=
  match a, b with
  | Val t1, Val t2 =>
      if t1 <? t2 then [] else [(label ++ "start time must be before end time")%string]
  | _, _ => [(label ++ "start time and end time are required")%string]
  end.

(** Modelled from the spec: [parseAndValidateId] is not among the sources;
    an id is a positive number. *)
Definition parseAndValidateIdRef (x : Field Z) (label : string) : option Z :=
  match x with
  | Val n => if 0 <? n then Some n else None
  | _ => None
  end.

(** Modelled from the spec: [validateEventServiceData] of
    event_service.service.js is not among the sources; a quantity is at least
    1 and a custom price is non-negative, absent fields being skipped. *)
Definition validateEventServiceDataRef (service : ServiceData) : list string :=
  (if truthyZ (sd_quantity service) && (NumberF (sd_quantity service) <? 1)
   then ["Quantity must be at least 1"] else [])
  ++ (if truthyZ (sd_custom_price service) && (NumberF (sd_custom_price service) <? 0)
      then ["Custom price must be non-negative"] else []).

(** Modelled from the spec: [checkRoomAvailability] of room.service.js is
    not among the sources; the room must be active and AVAILABLE, and no
    CONFIRMED event of the room other than the excluded one may strictly
    overlap the proposed window. *)
Definition checkRoomAvailabilityRef (rid : Z) (startF durF : Field Z)
    (exclude : option Z) (s : Store) : RoomAvailability :=
  match findRoom s rid with
  | Some room =>
      if negb (r_is_active room) || negb (r_status room =? "AVAILABLE")%string
      then mkRoomAvailability true false "Room is inactive or unavailable"
      else
        let proposedStart := NumberF startF in
        let proposedEnd := proposedStart + NumberF durF * MS_PER_HOUR in
        let busy (e : Event) : bool :=
          opt_eqb (room_id e) rid
          && EventStatus_eqb (status e) CONFIRMED
          && negb (opt_eqb exclude (event_id e))
          && match start_time e with
             | Some cs =>
                 (cs <=? proposedEnd)
                 && (proposedStart <? match end_time e with Some ce => ce | None => cs end)
                 && (cs <? proposedEnd)
             | None => false
             end in
        if existsb busy (events s)
        then mkRoomAvailability true false "Room is already booked for this time slot"
        else mkRoomAvailability true true EmptyString
  | None => mkRoomAvailability false false "Room not found"
  end.

(** Modelled from the spec: [validatePagination] is not among the sources;
    a page is at least 1 and a limit lies between 1 and 100. *)
Definition validatePaginationRef (p l : Z) : PaginationCheck :=
  mkPaginationCheck p l
    ((if p <? 1 then ["Page must be at least 1"] else [])
     ++ (if (l <? 1) || (100 <? l) then ["Limit must be between 1 and 100"] else [])).

(** A notifier that delivers, and one that is down. *)
Definition notifierUp (n : Notification) : option string := None.
Definition notifierDown (n : Notification) : option string := Some "Notifier unavailable".

(** The database keeps the rows as stored. *)
Definition orderRowsRef (field order : string) (l : list Event) : list Event := l.

Fixpoint isPrefix (p s : string) : bool :=
  match p, s with
  | EmptyString, _ => true
  | String a p', String b s' => Ascii.eqb a b && isPrefix p' s'
  | String _ _, EmptyString => false
  end.

Fixpoint contains (needle hay : string) : bool :=
  isPrefix needle hay
  || match hay with
     | String _ r => contains needle r
     | EmptyString => false
     end.

Definition containsInsensitiveRef (hay needle : string) : bool :=
  contains (toLowerCase needle) (toLowerCase hay).

(** The service over the reference helpers, in UTC. *)
Abbreviation createEventRef notifier :=
  (createEvent validateStringRef validateNumberRef validateDateRangeRef
     parseAndValidateIdRef 3 1024 1000 validateEventServiceDataRef
     checkRoomAvailabilityRef notifier 0).

Abbreviation updateEventRef :=
  (updateEvent validateStringRef validateNumberRef validateDateRangeRef
     parseAndValidateIdRef 3 1024 1000 validateEventServiceDataRef
     checkRoomAvailabilityRef 0).

Abbreviation getAllEventsRef :=
  (getAllEvents parseAndValidateIdRef validatePaginationRef orderRowsRef
     containsInsensitiveRef).

Definition hour (h : Z) : Z := h * MS_PER_HOUR.

(** One account, one room (base price 100, hourly rate 20), one variation
    (base price 30), no booking yet. *)
Definition emptyVenue : Store :=
  mkStore [7]
    [mkRoom 1 "Hall" true "AVAILABLE" 100 20]
    [mkEventType 1 true]
    [mkVariation 5 "Catering" 30 true]
    [] [] [] [] [] []
    1 1 1.

Definition venue : World := mkWorld emptyVenue [].

Definition noService : ServiceData :=
  mkServiceData 9 Undefined Undefined Undefined Undefined Undefined Undefined Undefined.

(** A line of service 9 with a custom price and a quantity. *)
Definition customLine (price qty : Field Z) : ServiceData :=
  mkServiceData 9 (Val 5) qty price Undefined Undefined Undefined Undefined.

(** A booking of the hall from 10:00 to 12:00 for account 7. *)
Definition hallBooking (services : list ServiceData) : EventData :=
  mkEventData (Val "Launch") Undefined (Val (hour 10)) (Val (hour 12)) Undefined
    Undefined Undefined Undefined (Val 7) (Val 1) Undefined Undefined
    services (Val 2).

(** The scenario of the spec: the hall for two hours and one line of
    50 x 2. *)
Definition scenario : EventData := hallBooking [customLine (Val 50) (Val 2)].

(** The event the scenario stores when booked at instant 1000, and the
    database after it. *)
Definition launch : Event :=
  mkEvent 1 "Launch" None (Some (hour 10)) (Some (hour 12)) 0 240
    None None PENDING (Some 7) (Some 1) None 1000.

Definition booked : World :=
  Eval vm_compute in snd (createEventRef notifierUp scenario 1000 venue).

(** An update of event 1 that names the event and its times again and
    supplies [services]; the room is not named. *)
Definition resupply (services : list ServiceData) (duration : Field Z) : EventData :=
  mkEventData (Val "Launch") Undefined (Val (hour 10)) (Val (hour 12)) Undefined
    Undefined Undefined Undefined Undefined Undefined Undefined Undefined
    services duration.

(** The scenario with an event date of its own, two days after the start. *)
Definition datedScenario : EventData :=
  mkEventData (Val "Launch") Undefined (Val (hour 10)) (Val (hour 12)) (Val (hour 48))
    Undefined Undefined Undefined (Val 7) (Val 1) Undefined Undefined
    [customLine (Val 50) (Val 2)] (Val 2).

Definition bookedDated : World :=
  Eval vm_compute in snd (createEventRef notifierUp datedScenario 1000 venue).

(** The booked database with a second booking of the catering, from 10:00
    for two hours, CONFIRMED. *)
Definition cateringRow : EventService :=
  mkEventService 1 1 9 (Some 5) 2 (Some 50) None "CONFIRMED" (Some (hour 10)) (Some 2).

Definition cateringBooked : Store :=
  mkStore [7] [mkRoom 1 "Hall" true "AVAILABLE" 100 20] [mkEventType 1 true]
    [mkVariation 5 "Catering" 30 true] [] [cateringRow] [] [] [] [] 2 2 1.

(** The booked database with a payment and two reviews of event 1. *)
Definition settled : World :=
  Eval vm_compute in
  let s := db booked in
  mkWorld
    (mkStore (accounts s) (rooms s) (eventTypes s) (variations s) (events s)
       (eventServices s) (invoices s) (invoiceDetails s)
       [mkPayment 1 1] [mkReview 1 1; mkReview 2 1]
       (next_event_id s) (next_event_service_id s) (next_invoice_id s))
    (outbox booked).

(** ** Specifications of transaction steps *)

(** [wp m w Q R]: run from [w], the step [m] either falls through with a
    value and a world satisfying [Q], or makes the callback return a result
    and a world satisfying [R], or throws. *)
Definition wp {A : Type} (m : Tx A) (w : World)
    (Q : A -> World -> Prop) (R : ValidationResult -> World -> Prop) : Prop :=
  match m w with
  | Next a w' => Q a w'
  | Returned r w' => R r w'
  | Thrown _ => True
  end.

(** A callback that returns early returns a negative result and has written
    nothing. *)
Definition refused (w : World) (r : ValidationResult) (w' : World) : Prop :=
  isValid r = false /\ w' = w.

(** A step past the checks never returns early. *)
Definition never (r : ValidationResult) (w' : World) : Prop := False.

(** The bookings and the notifier are as they were. *)
Definition sameBookings (w w' : World) : Prop :=
  events (db w') = events (db w)
  /\ eventServices (db w') = eventServices (db w)
  /\ next_event_service_id (db w') = next_event_service_id (db w)
  /\ rooms (db w') = rooms (db w)
  /\ variations (db w') = variations (db w)
  /\ outbox w' = outbox w.

(** The columns of an updated event whose property is absent from the
    payload are those of the stored event. *)
Definition keptFields (old : Event) (d : EventData) (e : Event) : Prop :=
  event_id e = event_id old
  /\ date_create e = date_create old
  /\ (d_event_name d = Undefined -> event_name e = event_name old)
  /\ (d_description d = Undefined -> description e = description old)
  /\ (d_start_time d = Undefined -> start_time e = start_time old)
  /\ (d_end_time d = Undefined -> end_time e = end_time old)
  /\ (d_final_cost d = Undefined -> final_cost e = final_cost old)
  /\ (d_room_service_fee d = Undefined -> room_service_fee e = room_service_fee old)
  /\ (d_status d = Undefined -> status e = status old)
  /\ (d_account_id d = Undefined -> account_id e = account_id old)
  /\ (d_room_id d = Undefined -> room_id e = room_id old)
  /\ (d_event_type_id d = Undefined -> event_type_id e = event_type_id old).

(** The event date an update stores: the payload's, or else the local
    midnight of the payload's start time. *)
Definition writtenEventDate (tzOffset : Z) (d : EventData) : Z :=
  match d_event_date d with
  | Val t => t
  | _ => startOfLocalDay tzOffset (NumberF (d_start_time d))
  end.

(** The ROOM line and a SERVICE line of invoice [iid]. *)
Definition roomLine (iid : Z) (room : Room) : InvoiceDetail :=
  mkInvoiceDetail iid (room_name room) 1 (base_price room) (base_price room)
    ROOM None None.

Definition serviceLine (s : Store) (iid : Z) (service : ServiceData) : InvoiceDetail :=
  mkInvoiceDetail iid (variationName s service) (lineQuantity service)
    (lineUnitPrice s service) (lineUnitPrice s service * lineQuantity service)
    SERVICE (Some (sd_service_id service)) (numOrNull (sd_variation_id service)).

(** A step that appends invoices and invoice lines and writes nothing
    else. *)
Definition invoiceStep (w w' : World) (newInvoices : list Invoice)
    (newLines : list InvoiceDetail) : Prop :=
  sameBookings w w'
  /\ invoices (db w') = (invoices (db w) ++ newInvoices)%list
  /\ invoiceDetails (db w') = (invoiceDetails (db w) ++ newLines)%list
  /\ next_invoice_id (db w') = next_invoice_id (db w) + Z.of_nat (List.length newInvoices).

(** The lines an invoice is given for a payload: the room at its base
    price, then the service lines. *)
Definition invoiceLines (s : Store) (iid : Z) (d : EventData) : list InvoiceDetail :=
  ((if truthyZ (d_room_id d)
    then match findRoom s (NumberF (d_room_id d)) with
         | Some room => [roomLine iid room]
         | None => []
         end
    else [])
   ++ map (serviceLine s iid) (d_event_services d))%list.

(** The part of the cost of a payload that no invoice line carries: the
    override and the hourly charge of the room. *)
Definition unbilledCost (s : Store) (d : EventData) : Z :=
  specOverride d
  + (if truthyZ (d_room_id d)
     then match findRoom s (NumberF (d_room_id d)) with
          | Some room =>
              match d_duration_hours d with
              | Val h => hourly_rate room * h
              | _ => 0
              end
          | None => 0
          end
     else 0).

(** The payload of an update names a room other than the stored one. *)
Definition roomChanged (old : Event) (d : EventData) : bool :=
  truthyZ (d_room_id d) && negb (opt_eqb (room_id old) (NumberF (d_room_id d))).

(** The cost an update stores: the price of a newly named room, or else the
    override or else the stored cost; plus the cost of the supplied lines. *)
Definition updatedCost (s : Store) (old : Event) (d : EventData) : Z :=
  (if roomChanged old d
   then match findRoom s (NumberF (d_room_id d)) with
        | Some room => specRoomCost room d
        | None => 0
        end
   else orF (d_estimated_cost d) (estimated_cost old))
  + linesCost s (d_event_services d).

(** ** Single-record fetch and type-scoped listing *)

(** [createValidationResult] for the read paths, whose data is a fetched
    record or a listing. *)
Record Fetch (A : Type) : Type := mkFetch {
  f_isValid : bool;
  f_errors : list string;
  f_data : option A
}.

Arguments mkFetch {A} f_isValid f_errors f_data.

(** The [include] options of a fetch; an absent option takes the default of
    the destructuring. *)
Record FetchOptions : Type := mkFetchOptions {
  o_includeAccount : Field bool;
  o_includeRoom : Field bool;
  o_includeEventType : Field bool;
  o_includeEventServices : Field bool
}.

Definition optionOr (x : Field bool) (dflt : bool) : bool :=
  match x with
  | Undefined => dflt
  | Null => false
  | Val b => b
  end.

(** The selected columns of an included room and event type. The names of
    accounts and event types are not columns of this model: an included
    account is its key. *)
Record RoomSummary : Type := mkRoomSummary {
  rs_room_id : Z;
  rs_room_name : string;
  rs_is_active : bool
}.

Record TypeSummary : Type := mkTypeSummary {
  ts_type_id : Z;
  ts_is_active : bool
}.

(** An event as a read path returns it: the row, the included relations
    (absent when not included or when the reference is null), and
    [eventServicesCount]. *)
Record FetchedEvent : Type := mkFetchedEvent {
  fe_event : Event;
  fe_account : option Z;
  fe_room : option RoomSummary;
  fe_event_type : option TypeSummary;
  fe_event_services : option (list (Z * option Z));
  fe_eventServicesCount : nat
}.

Definition includedAccount (s : Store) (e : Event) : option Z :=
  match account_id e with
  | Some a => if existsb (Z.eqb a) (accounts s) then Some a else None
  | None => None
  end.

Definition includedRoom (s : Store) (e : Event) : option RoomSummary :=
  match room_id e with
  | Some rid =>
      option_map (fun r => mkRoomSummary (r_room_id r) (room_name r) (r_is_active r))
        (findRoom s rid)
  | None => None
  end.

Definition includedEventType (s : Store) (e : Event) : option TypeSummary :=
  match event_type_id e with
  | Some tid =>
      option_map (fun t => mkTypeSummary (type_id t) (t_is_active t)) (findEventType s tid)
  | None => None
  end.

Definition includedServices (s : Store) (e : Event) : list (Z * option Z) :=
  map (fun l => (es_service_id l, es_variation_id l)) (servicesOf s (event_id e)).

(** [{ ...event, eventServicesCount: event.event_services?.length || 0 }]
    over the relations the [include] clause asks for. *)
Definition fetched (s : Store) (incAccount incRoom incType incServices : bool)
    (e : Event) : FetchedEvent :=
  mkFetchedEvent e
    (if incAccount then includedAccount s e else None)
    (if incRoom then includedRoom s e else None)
    (if incType then includedEventType s e else None)
    (if incServices then Some (includedServices s e) else None)
    (if incServices then List.length (includedServices s e) else 0%nat).

Definition getEventById (validEventId : Z) (options : FetchOptions) (w : World)
  : Fetch FetchedEvent :=
  let includeAccount := optionOr (o_includeAccount options) true in
  let includeRoom := optionOr (o_includeRoom options) true in
  let includeEventType := optionOr (o_includeEventType options) true in
  let includeEventServices := optionOr (o_includeEventServices options) false in
  match findEvent (db w) validEventId with
  | None => mkFetch false ["Event not found"] None
  | Some event =>
      mkFetch true []
        (Some (fetched (db w) includeAccount includeRoom includeEventType
                 includeEventServices event))
  end.

(** The options of a fetch that names none: [getEventById(id)]. *)
Definition noOptions : FetchOptions :=
  mkFetchOptions Undefined Undefined Undefined Undefined.

Record TypeListingOptions : Type := mkTypeListingOptions {
  tl_includeAccount : Field bool;
  tl_includeRoom : Field bool;
  tl_sortBy : Field string;
  tl_sortOrder : Field string
}.

Record TypeListing : Type := mkTypeListing {
  tl_events : list FetchedEvent;
  tl_eventTypeId : Z;
  tl_totalCount : nat
}.

Section TypeScopedListing.

(** The database's ORDER BY. *)
Variable orderRows : string -> string -> list Event -> list Event.

(** [getEventsByEventTypeId]: the events of a type, ordered; the [include]
    clause never holds [event_services]. *)
Definition getEventsByEventTypeId (validEventTypeId : Z)
    (options : TypeListingOptions) (w : World) : Fetch TypeListing :=
  let includeAccount := optionOr (tl_includeAccount options) false in
  let includeRoom := optionOr (tl_includeRoom options) false in
  let orderBy := buildSortOrder (withDefault (tl_sortBy options) "start_time")
                   (withDefault (tl_sortOrder options) "asc") in
  let found :=
    orderRows (fst orderBy) (snd orderBy)
      (filter (fun e => opt_eqb (event_type_id e) validEventTypeId) (events (db w))) in
  let processedEvents :=
    map (fetched (db w) includeAccount includeRoom false false) found in
  mkFetch true []
    (Some (mkTypeListing processedEvents validEventTypeId (List.length processedEvents))).

End TypeScopedListing.

(** ** The controllers of eventController.js *)

(** What a controller sends: a failure with a status and the errors of the
    service, or a success with a status, a message and the data. *)
Inductive Reply : Type :=
| Failure (statusCode : Z) (errs : list string)
| Success (statusCode : Z) (message : string) (payload : ResultData).

(** [req.body] with the account of the authenticated user attached. *)
Definition withAccount (d : EventData) (aid : Z) : EventData :=
  mkEventData (d_event_name d) (d_description d) (d_start_time d) (d_end_time d)
    (d_event_date d) (d_estimated_cost d) (d_final_cost d) (d_room_service_fee d)
    (Val aid) (d_room_id d) (d_event_type_id d) (d_status d) (d_event_services d)
    (d_duration_hours d).

(** [if (req.user && req.user.account_id && !eventData.account_id)
       eventData.account_id = req.user.account_id]. *)
Definition attachAccount (user : option User) (eventData : EventData) : EventData :=
  match user with
  | Some u =>
      if negb (u_account_id u =? 0) && negb (truthyZ (d_account_id eventData))
      then withAccount eventData (u_account_id u)
      else eventData
  | None => eventData
  end.

(** [req.query.x === "true"]. *)
Definition isTrue (x : Field string) : bool :=
  match x with
  | Val s => (s =? "true")%string
  | _ => false
  end.

(** [x || dflt] on a query string. *)
Definition orQuery (x : Field string) (dflt : string) : string :=
  if truthyS x then strOf x else dflt.

Section Controllers.

Variable validateString : Field string -> string -> StringOptions -> list string.
Variable validateNumber : Field Z -> string -> Z -> list string.
Variable validateDateRange : Field Z -> Field Z -> string -> list string.
Variable parseAndValidateId : Field Z -> string -> option Z.
Variable VARIATION_NAME_MIN_LENGTH VARIATION_NAME_MAX_LENGTH DESCRIPTION_MAX_LENGTH : Z.
Variable validateEventServiceData : ServiceData -> list string.
Variable checkRoomAvailability :
  Z -> Field Z -> Field Z -> option Z -> Store -> RoomAvailability.
Variable createNotification : Notification -> option string.
Variable tzOffset : Z.
Variable orderRows : string -> string -> list Event -> list Event.

Definition createEventController (user : option User) (body : EventData) (now : Z)
    (w : World) : Reply * World :=
  let eventData := attachAccount user body in
  let result :=
    createEvent validateString validateNumber validateDateRange parseAndValidateId
      VARIATION_NAME_MIN_LENGTH VARIATION_NAME_MAX_LENGTH DESCRIPTION_MAX_LENGTH
      validateEventServiceData checkRoomAvailability createNotification tzOffset
      eventData now w in
  if negb (isValid (fst result))
  then (Failure 400 (errors (fst result)), snd result)
  else (Success 201 "Event created successfully" (data (fst result)), snd result).

Definition updateEventController (id : Z) (user : option User) (body : EventData)
    (now : Z) (w : World) : Reply * World :=
  let result :=
    updateEvent validateString validateNumber validateDateRange parseAndValidateId
      VARIATION_NAME_MIN_LENGTH VARIATION_NAME_MAX_LENGTH DESCRIPTION_MAX_LENGTH
      validateEventServiceData checkRoomAvailability tzOffset id body user now w in
  if negb (isValid (fst result))
  then (Failure 400 (errors (fst result)), snd result)
  else (Success 200 "Event updated successfully" (data (fst result)), snd result).

Definition deleteEventController (id : Z) (forceDeleteQuery : Field string) (w : World)
  : Reply * World :=
  let result := deleteEvent id (isTrue forceDeleteQuery) w in
  if negb (isValid (fst result))
  then (Failure 400 (errors (fst result)), snd result)
  else (Success 200 "Event deleted successfully" (data (fst result)), snd result).

Definition toggleEventStatusController (id : Z) (w : World) : Reply * World :=
  let result := toggleEventStatus id w in
  if negb (isValid (fst result))
  then (Failure 404 (errors (fst result)), snd result)
  else (Success 200 "Event status toggled" (data (fst result)), snd result).

(** The query of [getEventsByEventTypeIdController]. *)
Record TypeListingQuery : Type := mkTypeListingQuery {
  q_includeAccount : Field string;
  q_includeRoom : Field string;
  q_sortBy : Field string;
  q_sortOrder : Field string
}.

(** [getEventsByEventTypeIdController]: the status, the events and the
    count it sends. *)
Definition getEventsByEventTypeIdController (eventTypeId : Z) (q : TypeListingQuery)
    (w : World) : Z * list FetchedEvent * nat :=
  let options :=
    mkTypeListingOptions (Val (isTrue (q_includeAccount q))) (Val (isTrue (q_includeRoom q)))
      (Val (orQuery (q_sortBy q) "event_date")) (Val (orQuery (q_sortOrder q) "asc")) in
  let result := getEventsByEventTypeId orderRows eventTypeId options w in
  match f_data result with
  | Some listing =>
      if f_isValid result then (200, tl_events listing, tl_totalCount listing)
      else (400, [], 0%nat)
  | None => (400, [], 0%nat)
  end.

End Controllers.

(** [getEventByIdController]: the query flags become the options. *)
Definition getEventByIdController (id : Z) (qAccount qRoom qType qServices : Field string)
    (w : World) : Z * Fetch FetchedEvent :=
  let options :=
    mkFetchOptions (Val (isTrue qAccount)) (Val (isTrue qRoom)) (Val (isTrue qType))
      (Val (isTrue qServices)) in
  let result := getEventById id options w in
  if negb (f_isValid result) then (404, result) else (200, result).

Definition staffRoles : list string := ["ADMIN"; "STAFF"].

(** [getEventDetails]: the event for its owner and for the staff, 403 for
    anyone else, 404 when there is none. *)
Definition getEventDetails (id : Z) (user : User) (w : World) : Z * Fetch FetchedEvent :=
  let result := getEventById id noOptions w in
  match f_data result with
  | Some fe =>
      if f_isValid result
         && negb (opt_eqb (account_id (fe_event fe)) (u_account_id user))
         && negb (includes staffRoles (role user))
      then (403, mkFetch false ["Unauthorized: Cannot access this event"] None)
      else (if f_isValid result then 200 else 404, result)
  | None => (if f_isValid result then 200 else 404, result)
  end.

(** ** Notions used to state what the service keeps *)

(** A row that an availability check of variation [vid] can see: a CONFIRMED
    booking of the variation with a scheduled time. *)
Definition relevantRow (vid : Z) (ev : EventService) : bool :=
  opt_eqb (es_variation_id ev) vid
  && (es_status ev =? "CONFIRMED")%string
  && isSome (es_scheduled_time ev).

(** The cancelled twin of the catering booking, and the database holding
    both. *)
Definition cancelledRow : EventService :=
  mkEventService 2 1 9 (Some 5) 1 None None "CANCELLED" (Some (hour 10)) (Some 2).

Definition cateringCancelled : Store :=
  mkStore [7] [mkRoom 1 "Hall" true "AVAILABLE" 100 20] [mkEventType 1 true]
    [mkVariation 5 "Catering" 30 true] [] [cateringRow; cancelledRow] [] [] [] [] 2 3 1.

(** A service line that passed the checks of the loop over
    [event_services] against the store [s]: no validation error, and when it
    carries a variation, a time and a duration, a positive availability
    check. *)
Definition lineAccepted (validate : ServiceData -> list string) (s : Store)
    (service : ServiceData) : Prop :=
  validate service = []
  /\ (truthyZ (sd_variation_id service) && truthyD (sd_scheduled_time service)
      && truthyZ (sd_duration_hours service) = true ->
      isValid (checkVariationAvailability (sd_variation_id service)
                 (sd_scheduled_time service) (sd_duration_hours service) s) = true).

(** A room that passed the checks of a write: found, active, AVAILABLE, and
    clear over the window when the payload has a start and a duration. *)
Definition roomAccepted
    (checkRoom : Z -> Field Z -> Field Z -> option Z -> Store -> RoomAvailability)
    (s : Store) (d : EventData) (rid : Z) (exclude : option Z) : Prop :=
  exists room,
    findRoom s rid = Some room
    /\ r_is_active room = true
    /\ r_status room = "AVAILABLE"
    /\ (truthyD (d_start_time d) && truthyZ (d_duration_hours d) = true ->
        ra_isValid (checkRoom rid (d_start_time d) (d_duration_hours d) exclude s) = true
        /\ ra_isAvailable (checkRoom rid (d_start_time d) (d_duration_hours d) exclude s)
           = true).

(** The references of a payload are good in store [s]. *)
Definition bookingAccepted (validate : ServiceData -> list string)
    (checkRoom : Z -> Field Z -> Field Z -> option Z -> Store -> RoomAvailability)
    (s : Store) (d : EventData) : Prop :=
  (truthyZ (d_account_id d) = true -> In (NumberF (d_account_id d)) (accounts s))
  /\ (truthyZ (d_room_id d) = true -> roomAccepted checkRoom s d (NumberF (d_room_id d)) None)
  /\ (truthyZ (d_event_type_id d) = true ->
      exists t, findEventType s (NumberF (d_event_type_id d)) = Some t
                /\ t_is_active t = true)
  /\ Forall (lineAccepted validate s) (d_event_services d).

(** The tables the event service only reads. *)
Definition catalog (s : Store)
  : list Z * list Room * list EventType * list Variation :=
  (accounts s, rooms s, eventTypes s, variations s).

(** The tables a creation, an update and a toggle leave alone: the catalog,
    the payments and the reviews. *)
Definition sameRest (w w' : World) : Prop :=
  catalog (db w') = catalog (db w)
  /\ payments (db w') = payments (db w)
  /\ reviews (db w') = reviews (db w).

(** What the event stored by a creation carries of its payload: the name
    and the description without the white space around them, a description
    that is absent, null or blank being null; the times; the payload's event
    date or else the local midnight of its start; PENDING without a status,
    else the status named; and each optional number or reference, null when
    absent or 0. *)
Definition createdFrom (tzOffset : Z) (d : EventData) (e : Event) : Prop :=
  (exists name, d_event_name d = Val name /\ trimmedFrom name (event_name e))
  /\ match d_description d, description e with
     | Val text, Some stored => trimmedFrom text stored /\ stored <> EmptyString
     | Val text, None => trimmedFrom text EmptyString
     | _, stored => stored = None
     end
  /\ start_time e = match d_start_time d with Val t => Some t | _ => None end
  /\ end_time e = match d_end_time d with Val t => Some t | _ => None end
  /\ event_date e = writtenEventDate tzOffset d
  /\ final_cost e = suppliedNumber (d_final_cost d)
  /\ room_service_fee e = suppliedNumber (d_room_service_fee d)
  /\ (d_status d = Undefined -> status e = PENDING)
  /\ (forall v, d_status d = Val v -> status_of_string v = Some (status e))
  /\ account_id e = suppliedNumber (d_account_id d)
  /\ room_id e = suppliedNumber (d_room_id d)
  /\ event_type_id e = suppliedNumber (d_event_type_id d).

(** A booking with no room, no line and no override: it costs nothing. *)
Definition freeBooking : EventData :=
  mkEventData (Val "  Meetup ") Undefined (Val (hour 34)) (Val (hour 36)) Undefined
    Undefined Undefined (Val 0) Undefined Undefined Undefined Undefined [] Undefined.

(** The no-break space U+00A0, and the free booking under a name with one
    on each side and a blank after. *)
Definition nbsp : string :=
  String (ascii_of_nat 194) (String (ascii_of_nat 160) EmptyString).

Definition galaBooking : EventData :=
  mkEventData (Val (nbsp ++ "Gala" ++ nbsp ++ " ")%string) Undefined (Val (hour 34))
    (Val (hour 36)) Undefined Undefined Undefined (Val 0) Undefined Undefined
    Undefined Undefined [] Undefined.

(** The start of a stored event as the lead-time policy reads it:
    [new Date(existingEvent.start_time)], the epoch for a null start. *)
Definition policyStart (e : Event) : Z :=
  match start_time e with
  | Some t => t
  | None => 0
  end.

(** The invoice [i] with its total set to [total], as [tx.invoice.update]
    leaves the invoice of key [iid]. *)
Definition retotal (iid total : Z) (i : Invoice) : Invoice :=
  if invoice_id i =? iid
  then mkInvoice (invoice_id i) (invoice_number i) total (inv_event_id i)
         (inv_account_id i) (inv_status i) (issue_date i) (due_date i)
  else i.

(** The booked database with the one line of event 1 scheduled from 10:00
    for two hours. *)
Definition scheduledLine : ServiceData :=
  mkServiceData 9 (Val 5) (Val 2) (Val 50) Undefined Undefined (Val (hour 10)) (Val 2).

Definition scheduledScenario : EventData := hallBooking [scheduledLine].

Definition bookedScheduled : World :=
  Eval vm_compute in snd (createEventRef notifierUp scheduledScenario 1000 venue).

(** Customers 7 and 8 and a member of the staff. *)
Definition owner : User := mkUser "CUSTOMER" 7.
Definition stranger : User := mkUser "CUSTOMER" 8.
Definition clerk : User := mkUser "STAFF" 3.

(** The booked database after the booking that costs nothing is added as
    event 2, and that event. *)
Definition meetup : Event :=
  mkEvent 2 "Meetup" None (Some (hour 34)) (Some (hour 36)) (hour 24) 0
    None None PENDING None None None 1500.

Definition twoBooked : World :=
  Eval vm_compute in snd (createEventRef notifierUp freeBooking 1500 booked).

(** The clause of a [where] on an id, and on the status, of a listing that
    goes through. *)
Definition clauseOf (parse : Field Z -> string -> option Z) (x : Field Z)
    (label : string) : option Z :=
  if truthyZ x then parse x label else None.

Definition statusClauseOf (f : Filters) : option EventStatus :=
  if truthyS (f_status f) then status_of_string (strOf (f_status f)) else None.

(** The events the filters of a listing select. *)
Definition selectedEvents (parse : Field Z -> string -> option Z)
    (contains : string -> string -> bool) (f : Filters) (s : Store) : list Event :=
  filter (matchesWhere contains f
            (clauseOf parse (f_account_id f) "Account ID")
            (clauseOf parse (f_room_id f) "Room ID")
            (clauseOf parse (f_event_type_id f) "Event Type ID")
            (statusClauseOf f))
    (events s).

(** The fields and the directions [buildSortOrder] lets through. *)
Definition validSortFields : list string :=
  ["event_name"; "start_time"; "end_time"; "estimated_cost"; "final_cost";
   "room_service_fee"; "date_create"; "status"].

(** The filters that ask for the CONFIRMED events, and for page 2 by
    one. *)
Definition confirmedOnly : Filters :=
  mkFilters Undefined Undefined Undefined (Val "CONFIRMED") Undefined Undefined
    Undefined Undefined Undefined Undefined Undefined false.

Definition secondOfOne : Filters :=
  mkFilters Undefined Undefined Undefined Undefined Undefined Undefined
    Undefined (Val 2) (Val 1) Undefined Undefined true.

(** The database with two bookings after the launch is toggled to
    CONFIRMED. *)
Definition twoToggled : World :=
  Eval vm_compute in snd (toggleEventStatus 1 twoBooked).

(** The launch as stored once it is CONFIRMED. *)
Definition confirmedLaunch : Event :=
  Eval vm_compute in hd launch (events (db twoToggled)).

(** The controllers over the reference helpers, in UTC. *)
Abbreviation createEventControllerRef notifier :=
  (createEventController validateStringRef validateNumberRef validateDateRangeRef
     parseAndValidateIdRef 3 1024 1000 validateEventServiceDataRef
     checkRoomAvailabilityRef notifier 0).

(** A seminar of event type 1, with no account and no room. *)
Definition typedBooking : EventData :=
  mkEventData (Val "Seminar") Undefined (Val (hour 58)) (Val (hour 60)) Undefined
    Undefined Undefined Undefined Undefined Undefined (Val 1) Undefined [] Undefined.

(** The database with the launch, the meetup and the seminar. *)
Definition threeBooked : World :=
  Eval vm_compute in snd (createEventRef notifierUp typedBooking 2000 twoBooked).

Definition seminar : Event :=
  mkEvent 3 "Seminar" None (Some (hour 58)) (Some (hour 60)) (hour 48) 0
    None None PENDING None None (Some 1) 2000.

(** A query that names nothing. *)
Definition plainQuery : TypeListingQuery :=
  mkTypeListingQuery Undefined Undefined Undefined Undefined.

(** ** Rules for transaction steps *)

Local Open Scope list_scope.

Section WpRules.

Context {A B : Type}.
Variables (Q : A -> World -> Prop) (R : ValidationResult -> World -> Prop).

Lemma wp_ret : forall (a : A) w, Q a w -> wp (ret a) w Q R.
Proof. intros a w H. exact H. Qed.

Lemma wp_returnResult : forall r w, R r w -> wp (returnResult r) w Q R.
Proof. intros r w H. exact H. Qed.

Lemma wp_throw : forall msg w, wp (throw msg) w Q R.
Proof. intros msg w. exact I. Qed.

Lemma wp_bind : forall (m : Tx B) (k : B -> Tx A) w,
  wp m w (fun b w' => wp (k b) w' Q R) R -> wp (bind m k) w Q R.
Proof.
  intros m k w H. unfold wp, bind in *. destruct (m w); auto.
Qed.

Lemma wp_conseq : forall (Q' : A -> World -> Prop) (R' : ValidationResult -> World -> Prop)
    (m : Tx A) w,
  wp m w Q' R' ->
  (forall a w', Q' a w' -> Q a w') ->
  (forall r w', R' r w' -> R r w') ->
  wp m w Q R.
Proof.
  intros Q' R' m w H HQ HR. unfold wp in *. destruct (m w); auto.
Qed.

End WpRules.

Lemma wp_getStore : forall (Q : Store -> World -> Prop) R w,
  Q (db w) w -> wp getStore w Q R.
Proof. intros Q R w H. exact H. Qed.

Lemma wp_putStore : forall (Q : unit -> World -> Prop) R s w,
  Q tt (mkWorld s (outbox w)) -> wp (putStore s) w Q R.
Proof. intros Q R s w H. exact H. Qed.

Lemma wp_when : forall (Q : unit -> World -> Prop) R b m w,
  (b = true -> wp m w Q R) -> (b = false -> Q tt w) -> wp (when b m) w Q R.
Proof.
  intros Q R b m w Ht Hf. destruct b; simpl; [apply Ht | apply Hf]; reflexivity.
Qed.

Lemma sameBookings_refl : forall w, sameBookings w w.
Proof. intro w. repeat split. Qed.

Lemma sameBookings_trans : forall w1 w2 w3,
  sameBookings w1 w2 -> sameBookings w2 w3 -> sameBookings w1 w3.
Proof.
  unfold sameBookings. intros w1 w2 w3 H12 H23.
  destruct H12 as (a1 & a2 & a3 & a4 & a5 & a6).
  destruct H23 as (b1 & b2 & b3 & b4 & b5 & b6).
  repeat split; congruence.
Qed.

(** A bind whose first step keeps the bookings. *)
Lemma wp_bind_same : forall (A B : Type) (m : Tx B) (k : B -> Tx A) w,
  wp m w (fun _ w' => sameBookings w w') never ->
  (forall b w', wp (k b) w' (fun _ w'' => sameBookings w' w'') never) ->
  wp (bind m k) w (fun _ w' => sameBookings w w') never.
Proof.
  intros A B m k w Hm Hk. apply wp_bind.
  eapply wp_conseq; [exact Hm | | auto].
  intros b w' Hs. eapply wp_conseq; [apply Hk | | auto].
  intros a w'' Hs'. simpl in *. eapply sameBookings_trans; eassumption.
Qed.

(** ** The steps of the booking transactions *)

Lemma orZ_0 : forall d, orZ d 0 = d.
Proof. intro d. unfold orZ. destruct (Z.eqb_spec d 0); congruence. Qed.

Lemma orF_override : forall d, orF (d_estimated_cost d) 0 = specOverride d.
Proof.
  intro d. unfold orF, specOverride, truthyZ, NumberF.
  destruct (d_estimated_cost d) as [| |c]; try reflexivity.
  destruct (Z.eqb_spec c 0); simpl; congruence.
Qed.

(** The hourly part is skipped only when it is 0. *)
Lemma roomCost_spec : forall room d, roomCost room d = specRoomCost room d.
Proof.
  intros room d. unfold roomCost, specRoomCost, truthyZ, NumberF. rewrite orZ_0.
  destruct (d_duration_hours d) as [| |h]; simpl; try reflexivity.
  destruct (Z.eqb_spec h 0); simpl; [subst; lia|].
  destruct (Z.eqb_spec (hourly_rate room) 0) as [E|E]; simpl; [rewrite E|]; lia.
Qed.

Lemma checkAccount_wp : forall d w,
  wp (checkAccount d) w (fun _ w' => w' = w) (refused w).
Proof.
  intros d w. unfold checkAccount. apply wp_when; [intros _|reflexivity].
  apply wp_bind, wp_getStore.
  destruct (existsb _ _); [reflexivity | split; reflexivity].
Qed.

Lemma checkEventType_wp : forall d w,
  wp (checkEventType d) w (fun _ w' => w' = w) (refused w).
Proof.
  intros d w. unfold checkEventType. apply wp_when; [intros _|reflexivity].
  apply wp_bind, wp_getStore.
  destruct (findEventType _ _) as [t|]; [destruct (t_is_active t)|];
    first [reflexivity | split; reflexivity].
Qed.

Section Steps.

Variable validateEventServiceData : ServiceData -> list string.
Variable checkRoomAvailability :
  Z -> Field Z -> Field Z -> option Z -> Store -> RoomAvailability.
Variable tzOffset : Z.

Lemma checkRoomWindow_wp : forall rid d exclude w,
  wp (checkRoomWindow checkRoomAvailability rid d exclude) w (fun _ w' => w' = w) (refused w).
Proof.
  intros rid d exclude w. unfold checkRoomWindow.
  apply wp_when; [intros _|reflexivity].
  apply wp_bind, wp_getStore.
  destruct (_ || _); [split; reflexivity | reflexivity].
Qed.

Lemma createRoomStep_wp : forall d c w,
  wp (createRoomStep checkRoomAvailability d c) w
     (fun c' w' => w' = w /\ c' = c + roomPart (db w) d) (refused w).
Proof.
  intros d c w. unfold createRoomStep, roomPart.
  destruct (truthyZ (d_room_id d)); [|apply wp_ret; split; [reflexivity|lia]].
  apply wp_bind, wp_getStore.
  destruct (findRoom (db w) (NumberF (d_room_id d))) as [room|];
    [|split; reflexivity].
  destruct (_ || _); [split; reflexivity|].
  apply wp_bind. eapply wp_conseq; [apply checkRoomWindow_wp | | auto].
  intros _ w' ->. apply wp_ret. now rewrite roomCost_spec.
Qed.

Lemma serviceCosts_wp : forall services c w,
  wp (serviceCosts validateEventServiceData services c) w
     (fun c' w' => w' = w /\ c' = c + linesCost (db w) services) (refused w).
Proof.
  induction services as [|service rest IH]; intros c w.
  - apply wp_ret. split; [reflexivity|]. unfold linesCost. simpl. lia.
  - simpl. destruct (0 <? _)%nat; [split; reflexivity|].
    apply wp_bind.
    apply wp_conseq with (Q' := fun _ w' => w' = w) (R' := refused w); [ | | auto].
    + apply wp_when; [intros _|reflexivity].
      apply wp_bind, wp_getStore.
      destruct (isValid _) eqn:E; simpl; [reflexivity|split; [exact E|reflexivity]].
    + intros _ w' ->. apply wp_bind, wp_getStore.
      eapply wp_conseq; [apply IH | | auto].
      intros c' w' [-> ->]. split; [reflexivity|].
      unfold linesCost. simpl. lia.
Qed.

(** The event [tx.event.create] writes. *)
Lemma insertEvent_wp : forall d c now w,
  wp (insertEvent tzOffset d c now) w
     (fun e w' =>
        estimated_cost e = c
        /\ event_id e = next_event_id (db w)
        /\ account_id e = numOrNull (d_account_id d)
        /\ events (db w') = events (db w) ++ [e]
        /\ eventServices (db w') = eventServices (db w)
        /\ next_event_service_id (db w') = next_event_service_id (db w)
        /\ rooms (db w') = rooms (db w)
        /\ variations (db w') = variations (db w)
        /\ outbox w' = outbox w
        /\ invoices (db w') = invoices (db w)
        /\ invoiceDetails (db w') = invoiceDetails (db w)
        /\ next_invoice_id (db w') = next_invoice_id (db w))
     never.
Proof.
  intros d c now w.
  unfold wp, insertEvent, eventDateOf, statusOf, bind, ret, throw, getStore, putStore.
  destruct (d_event_name d); try exact I;
    destruct (d_event_date d); destruct (d_start_time d); try exact I;
    destruct (d_status d) as [| |v]; try exact I;
    try destruct (status_of_string v); try exact I;
    simpl; repeat split.
Qed.


Ltac run_step :=
  unfold wp, bind, ret, throw, when, getStore, putStore, returnResult; simpl;
  repeat match goal with
         | |- context [match ?x with _ => _ end] => destruct x
         end;
  simpl; try exact I; repeat split.

Lemma createEventServices_wp : forall eid services w,
  wp (createEventServices eid services) w
     (fun _ w' =>
        events (db w') = events (db w)
        /\ eventServices (db w')
           = eventServices (db w)
             ++ serviceRows eid (next_event_service_id (db w)) services
        /\ rooms (db w') = rooms (db w)
        /\ variations (db w') = variations (db w)
        /\ outbox w' = outbox w
        /\ invoices (db w') = invoices (db w)
        /\ invoiceDetails (db w') = invoiceDetails (db w)
        /\ next_invoice_id (db w') = next_invoice_id (db w))
     never.
Proof.
  intros eid services w. unfold createEventServices.
  destruct services as [|service rest].
  - simpl. repeat split. now rewrite app_nil_r.
  - run_step.
Qed.

Lemma invoiceStep_refl : forall w, invoiceStep w w [] [].
Proof.
  intro w. unfold invoiceStep. rewrite !app_nil_r. simpl.
  repeat split. lia.
Qed.

Lemma invoiceStep_trans : forall w1 w2 w3 a b a' b',
  invoiceStep w1 w2 a b -> invoiceStep w2 w3 a' b' ->
  invoiceStep w1 w3 (a ++ a') (b ++ b').
Proof.
  unfold invoiceStep. intros w1 w2 w3 a b a' b' (S1 & I1 & D1 & N1) (S2 & I2 & D2 & N2).
  split; [eapply sameBookings_trans; eassumption|].
  rewrite I2, I1, D2, D1, N2, N1, !app_assoc, length_app, Nat2Z.inj_add.
  repeat split. lia.
Qed.

Lemma variationBasePrice_ext : forall s s' service,
  variations s' = variations s ->
  variationBasePrice s' service = variationBasePrice s service.
Proof.
  intros s s' service H. unfold variationBasePrice, findVariation. now rewrite H.
Qed.

Lemma serviceLine_ext : forall s s' iid service,
  variations s' = variations s -> serviceLine s' iid service = serviceLine s iid service.
Proof.
  intros s s' iid service H.
  unfold serviceLine, lineUnitPrice, variationName.
  rewrite (variationBasePrice_ext _ _ _ H). unfold findVariation. now rewrite H.
Qed.

Lemma addInvoiceDetail_exact : forall line w,
  wp (addInvoiceDetail line) w (fun _ w' => invoiceStep w w' [] [line]) never.
Proof.
  intros line w. unfold addInvoiceDetail, invoiceStep, sameBookings.
  unfold wp, bind, getStore, putStore. simpl. rewrite app_nil_r.
  repeat split. lia.
Qed.

Lemma roomDetail_exact : forall iid rid w,
  wp (roomDetail iid rid) w
     (fun _ w' => exists room,
        findRoom (db w) rid = Some room /\ invoiceStep w w' [] [roomLine iid room])
     never.
Proof.
  intros iid rid w. unfold roomDetail. apply wp_bind, wp_getStore.
  destruct (findRoom (db w) rid) as [room|]; [|apply wp_throw].
  eapply wp_conseq; [apply addInvoiceDetail_exact | | auto].
  intros u w' H. exists room. split; [reflexivity | exact H].
Qed.

Lemma serviceDetails_exact : forall iid services w,
  wp (serviceDetails iid services) w
     (fun _ w' => invoiceStep w w' [] (map (serviceLine (db w) iid) services)) never.
Proof.
  intros iid services. induction services as [|service rest IH]; intro w.
  - apply wp_ret, invoiceStep_refl.
  - simpl. apply wp_bind, wp_getStore. apply wp_bind.
    eapply wp_conseq; [apply addInvoiceDetail_exact | | auto].
    intros u1 w1 H1. eapply wp_conseq; [apply IH | | auto].
    intros u2 w2 H2. simpl in *.
    pose proof (invoiceStep_trans H1 H2) as H. simpl in H.
    destruct H1 as ((_ & _ & _ & _ & Hv & _) & _).
    rewrite (map_ext _ _ (fun x => @serviceLine_ext (db w) (db w1) iid x Hv)) in H.
    exact H.
Qed.

Lemma insertInvoice_exact : forall newEvent total now w,
  wp (insertInvoice newEvent total now) w
     (fun invoice w' =>
        invoiceStep w w' [invoice] []
        /\ invoice_id invoice = next_invoice_id (db w)
        /\ total_amount invoice = total
        /\ inv_event_id invoice = event_id newEvent)
     never.
Proof.
  intros newEvent total now w. unfold insertInvoice, invoiceStep, sameBookings.
  unfold wp, bind, ret, getStore, putStore. simpl. rewrite app_nil_r.
  repeat split.
Qed.

(** The invoice of a new event: none for a cost of 0 or less; otherwise one
    invoice with the cost as its total, and the lines of the payload. *)
Lemma createInvoice_exact : forall d newEvent c now w,
  wp (createInvoice d newEvent c now) w
     (fun _ w' =>
        if 0 <? c
        then exists invoice,
               invoiceStep w w' [invoice]
                 (invoiceLines (db w) (next_invoice_id (db w)) d)
               /\ invoice_id invoice = next_invoice_id (db w)
               /\ total_amount invoice = c
               /\ inv_event_id invoice = event_id newEvent
        else w' = w)
     never.
Proof.
  intros d newEvent c now w. unfold createInvoice.
  destruct (0 <? c); [|reflexivity]. simpl.
  apply wp_bind. eapply wp_conseq; [apply insertInvoice_exact | | auto].
  intros invoice w1 (H1 & Hid & Htot & Hev). simpl.
  assert (Hr1 : rooms (db w1) = rooms (db w)) by apply H1.
  assert (Hv1 : variations (db w1) = variations (db w)) by apply H1.
  apply wp_bind.
  apply wp_conseq with
    (Q' := fun (_ : unit) w2 =>
             invoiceStep w1 w2 []
               (if truthyZ (d_room_id d)
                then match findRoom (db w) (NumberF (d_room_id d)) with
                     | Some room => [roomLine (invoice_id invoice) room]
                     | None => []
                     end
                else []))
    (R' := never); [ | | auto].
  - apply wp_when; intro Hroom; rewrite Hroom.
    + eapply wp_conseq; [apply roomDetail_exact | | auto].
      intros u3 w2 (room & Hfind & H2). simpl.
      unfold findRoom in *. rewrite Hr1 in Hfind. rewrite Hfind. exact H2.
    + apply invoiceStep_refl.
  - intros u4 w2 H2. simpl.
    assert (Hv2 : variations (db w2) = variations (db w))
      by (rewrite <- Hv1; apply H2).
    apply wp_conseq with
      (Q' := fun (_ : unit) w3 =>
               invoiceStep w2 w3 []
                 (map (serviceLine (db w) (invoice_id invoice)) (d_event_services d)))
      (R' := never); [ | | auto].
    + apply wp_when; intro Hlen.
      * eapply wp_conseq; [apply serviceDetails_exact | | auto].
        intros u5 w3 H3. simpl in *.
        now rewrite (map_ext _ _ (fun x =>
                       @serviceLine_ext (db w) (db w2) (invoice_id invoice) x Hv2)) in H3.
      * destruct (d_event_services d); [apply invoiceStep_refl | discriminate].
    + intros u6 w3 H3. simpl. exists invoice.
      pose proof (invoiceStep_trans (invoiceStep_trans H1 H2) H3) as H.
      simpl in H. rewrite <- Hid. unfold invoiceLines.
      split; [exact H|]. repeat split; assumption.
Qed.

Lemma invoiceStep_same : forall w w' a b, invoiceStep w w' a b -> sameBookings w w'.
Proof. intros w w' a b H. apply H. Qed.

Lemma createInvoice_wp : forall d newEvent c now w,
  wp (createInvoice d newEvent c now) w (fun _ w' => sameBookings w w') never.
Proof.
  intros d newEvent c now w.
  eapply wp_conseq; [apply createInvoice_exact | | auto].
  intros u7 w'. simpl. destruct (0 <? c).
  - intros (invoice & H & _). exact (invoiceStep_same H).
  - intros ->. apply sameBookings_refl.
Qed.

Lemma roomDetail_wp : forall iid rid w,
  wp (roomDetail iid rid) w (fun _ w' => sameBookings w w') never.
Proof.
  intros iid rid w. eapply wp_conseq; [apply roomDetail_exact | | auto].
  intros u8 w' (room & _ & H). exact (invoiceStep_same H).
Qed.

Lemma serviceDetails_wp : forall iid services w,
  wp (serviceDetails iid services) w (fun _ w' => sameBookings w w') never.
Proof.
  intros iid services w. eapply wp_conseq; [apply serviceDetails_exact | | auto].
  intros u9 w' H. exact (invoiceStep_same H).
Qed.

Lemma when_same : forall b m w,
  (forall w0, wp m w0 (fun _ w' => sameBookings w0 w') never) ->
  wp (when b m) w (fun _ w' => sameBookings w w') never.
Proof.
  intros b m w H. apply wp_when; intros _; [apply H | apply sameBookings_refl].
Qed.

Lemma invoiceLines_ext : forall s s' iid d,
  rooms s' = rooms s -> variations s' = variations s ->
  invoiceLines s' iid d = invoiceLines s iid d.
Proof.
  intros s s' iid d Hr Hv. unfold invoiceLines, findRoom. rewrite Hr. f_equal.
  apply map_ext. intro x. now apply serviceLine_ext.
Qed.

Lemma sumZ_app : forall a b, sumZ (a ++ b) = sumZ a + sumZ b.
Proof.
  intros a b. unfold sumZ. induction a as [|x a IH]; simpl; [reflexivity|].
  rewrite IH. lia.
Qed.

(** The lines of an invoice and the unbilled part make up the cost. *)
Lemma invoiceLines_total : forall s iid d,
  sumZ (map subtotal (invoiceLines s iid d)) + unbilledCost s d = bookingCost s d.
Proof.
  intros s iid d. unfold invoiceLines, unbilledCost, bookingCost, roomPart, linesCost.
  rewrite map_app, sumZ_app, map_map. simpl.
  change (fun x => lineUnitPrice s x * lineQuantity x) with (lineCost s).
  destruct (truthyZ (d_room_id d)); [|simpl; lia].
  destruct (findRoom s (NumberF (d_room_id d))) as [room|]; [|simpl; lia].
  unfold specRoomCost. simpl. lia.
Qed.

(** The writes of a creation: the event carries the cost of the payload, the
    event and its lines are appended to their tables, and for a positive cost
    an invoice with that total and the lines of the payload. *)
Lemma createEventWrites_wp : forall d now w,
  wp (createEventWrites validateEventServiceData checkRoomAvailability tzOffset d now) w
     (fun e w' =>
        estimated_cost e = bookingCost (db w) d
        /\ event_id e = next_event_id (db w)
        /\ account_id e = numOrNull (d_account_id d)
        /\ events (db w') = events (db w) ++ [e]
        /\ eventServices (db w')
           = eventServices (db w)
             ++ serviceRows (event_id e) (next_event_service_id (db w))
                  (d_event_services d)
        /\ outbox w' = outbox w
        /\ if 0 <? bookingCost (db w) d
           then exists invoice,
                  invoices (db w') = invoices (db w) ++ [invoice]
                  /\ invoiceDetails (db w')
                     = invoiceDetails (db w)
                       ++ invoiceLines (db w) (invoice_id invoice) d
                  /\ invoice_id invoice = next_invoice_id (db w)
                  /\ total_amount invoice = bookingCost (db w) d
                  /\ inv_event_id invoice = event_id e
           else invoices (db w') = invoices (db w)
                /\ invoiceDetails (db w') = invoiceDetails (db w))
     (refused w).
Proof.
  intros d now w. unfold createEventWrites.
  apply wp_bind. eapply wp_conseq; [apply checkAccount_wp | | auto]. intros u1 w' ->.
  apply wp_bind. eapply wp_conseq; [apply createRoomStep_wp | | auto].
  intros c1 w' [-> ->].
  apply wp_bind. eapply wp_conseq; [apply checkEventType_wp | | auto]. intros u2 w' ->.
  apply wp_bind. eapply wp_conseq; [apply serviceCosts_wp | | auto].
  intros c2 w' [-> ->].
  apply wp_bind. eapply wp_conseq; [apply insertEvent_wp | | intros ? ? []].
  intros e w1 (Hc & Hid & Hacc & Hev & Hes & Hnx & Hro & Hva & Hob & Hi & Hd & Hn).
  apply wp_bind. eapply wp_conseq; [apply createEventServices_wp | | intros ? ? []].
  intros u3 w2 (Hev2 & Hes2 & Hro2 & Hva2 & Hob2 & Hi2 & Hd2 & Hn2).
  apply wp_bind. eapply wp_conseq; [apply createInvoice_exact | | intros ? ? []].
  intros u4 w3 Hinv. apply wp_ret. rewrite orF_override in *.
  change (specOverride d + roomPart (db w) d + linesCost (db w) (d_event_services d))
    with (bookingCost (db w) d) in *.
  clear u1 u2 u3 u4.
  assert (Hsame : sameBookings w2 w3).
  { destruct (0 <? _); [destruct Hinv as (i & Hs & _); exact (invoiceStep_same Hs)|].
    subst w3. apply sameBookings_refl. }
  destruct Hsame as (Hev3 & Hes3 & _ & _ & _ & Hob3).
  split; [exact Hc|]. split; [exact Hid|]. split; [exact Hacc|].
  split; [congruence|]. split; [congruence|]. split; [congruence|].
  destruct (0 <? bookingCost (db w) d).
  - destruct Hinv as (invoice & (_ & Hi3 & Hd3 & _) & Hiid & Htot & Hie).
    exists invoice.
    rewrite (@invoiceLines_ext (db w) (db w2)) in Hd3 by congruence.
    rewrite Hiid.
    repeat split; congruence.
  - subst w3. split; congruence.
Qed.

End Steps.

(** ** Availability: a conflict is a strict overlap *)

Section Availability.

Variables (tx : Store) (vid start dur : Z) (v : Variation).
Hypothesis vid_given : vid <> 0.
Hypothesis dur_given : dur <> 0.
Hypothesis variation_found : findVariation tx vid = Some v.
Hypothesis variation_active : v_is_active v = true.

Local Abbreviation proposedEnd := (start + dur * MS_PER_HOUR).
Local Abbreviation answer := (checkVariationAvailability (Val vid) (Val start) (Val dur) tx).
Local Abbreviation specConflict := (specConflictWith vid start proposedEnd).

Lemma evEnd_candidateEnd : forall ev cstart,
  es_scheduled_time ev = Some cstart ->
  evEnd ev = candidateEnd cstart (es_duration_hours ev).
Proof.
  intros ev cstart H. unfold evEnd, evStart, candidateEnd. rewrite H.
  destruct (es_duration_hours ev); [rewrite orZ_0|]; reflexivity.
Qed.

(** The pre-filter of the query loses no conflict. *)
Lemma candidate_overlap_spec : forall ev,
  isCandidate vid proposedEnd ev && overlaps start proposedEnd ev = specConflict ev.
Proof.
  intro ev. unfold isCandidate, overlaps, specConflictWith, opt_eqb.
  destruct (es_variation_id ev) as [x|]; [|reflexivity].
  destruct (es_scheduled_time ev) as [cstart|] eqn:Hs.
  - rewrite (evEnd_candidateEnd ev Hs). unfold evStart. rewrite Hs.
    destruct (x =? vid); [|reflexivity].
    destruct (es_status ev =? "CONFIRMED")%string; [|reflexivity].
    destruct (Z.leb_spec cstart proposedEnd); simpl.
    + reflexivity.
    + destruct (Z.ltb_spec cstart proposedEnd); [lia|].
      now rewrite andb_false_r.
  - now rewrite !andb_false_r.
Qed.

Lemma filter_filter : forall (A : Type) (p q : A -> bool) (l : list A),
  filter q (filter p l) = filter (fun x => p x && q x) l.
Proof.
  intros A p q l. induction l as [|a l IH]; [reflexivity|].
  simpl. destruct (p a); simpl; [destruct (q a)|]; now rewrite IH.
Qed.

Lemma conflicts_eq :
  filter (overlaps start proposedEnd) (filter (isCandidate vid proposedEnd) (eventServices tx))
  = filter specConflict (eventServices tx).
Proof.
  rewrite filter_filter. apply filter_ext. exact candidate_overlap_spec.
Qed.

Lemma answer_unfold :
  answer =
  let conflictingEvents := filter specConflict (eventServices tx) in
  if (0 <? List.length conflictingEvents)%nat
  then createValidationResult false
         ["Variation is busy during the requested time slot"]
         (ConflictData conflictingEvents)
  else createValidationResult true [] (VariationData vid).
Proof.
  unfold checkVariationAvailability. simpl.
  destruct (Z.eqb_spec vid 0); [contradiction|].
  destruct (Z.eqb_spec dur 0); [contradiction|]. simpl.
  rewrite variation_found, variation_active. simpl.
  rewrite conflicts_eq. reflexivity.
Qed.



End Availability.


(** ** Creation: cost and notification *)

Lemma lineCost_spec : forall s service,
  noZeroLine service = true -> lineCost s service = specLineCost s service.
Proof.
  intros s service H. unfold noZeroLine in H. apply andb_true_iff in H as [Hp Hq].
  unfold lineCost, specLineCost, lineUnitPrice, lineQuantity, orF, truthyZ, NumberF.
  assert (Hv : variationBasePrice s service = specVariationPrice s service).
  { unfold variationBasePrice, specVariationPrice, truthyZ, NumberF.
    destruct (sd_variation_id service) as [| |x]; try reflexivity.
    destruct (x =? 0); simpl; [reflexivity|].
    destruct (findVariation s x); [apply orZ_0 | reflexivity]. }
  f_equal.
  - destruct (sd_custom_price service) as [| |p]; try exact Hv.
    destruct (p =? 0); [discriminate | reflexivity].
  - destruct (sd_quantity service) as [| |q]; try reflexivity.
    destruct (q =? 0); [discriminate | reflexivity].
Qed.

Lemma bookingCost_spec : forall s d,
  forallb noZeroLine (d_event_services d) = true -> bookingCost s d = specCost s d.
Proof.
  intros s d H. unfold bookingCost, specCost. f_equal; [f_equal|].
  - unfold roomPart, truthyZ, NumberF.
    destruct (d_room_id d) as [| |rid]; try reflexivity.
    destruct (rid =? 0); reflexivity.
  - unfold linesCost. f_equal. apply map_ext_in. intros service Hin.
    apply lineCost_spec. rewrite forallb_forall in H. now apply H.
Qed.

Lemma lineCost_amended : forall s service,
  lineCost s service = amendedLineCost s service.
Proof.
  intros s service.
  unfold lineCost, amendedLineCost, lineUnitPrice, lineQuantity, orF, truthyZ, NumberF.
  assert (Hv : variationBasePrice s service = specVariationPrice s service).
  { unfold variationBasePrice, specVariationPrice, truthyZ, NumberF.
    destruct (sd_variation_id service) as [| |x]; try reflexivity.
    destruct (x =? 0); simpl; [reflexivity|].
    destruct (findVariation s x); [apply orZ_0 | reflexivity]. }
  f_equal.
  - destruct (sd_custom_price service) as [| |p]; try exact Hv.
    destruct (p =? 0); [exact Hv | reflexivity].
  - destruct (sd_quantity service) as [| |q]; try reflexivity.
    destruct (q =? 0); reflexivity.
Qed.

Lemma bookingCost_amended : forall s d, bookingCost s d = amendedCost s d.
Proof.
  intros s d. unfold bookingCost, amendedCost. f_equal; [f_equal|].
  - unfold roomPart, truthyZ, NumberF.
    destruct (d_room_id d) as [| |rid]; try reflexivity.
    destruct (rid =? 0); reflexivity.
  - unfold linesCost. f_equal. apply map_ext. intro service. apply lineCost_amended.
Qed.

Section Creation.

Variable validateString : Field string -> string -> StringOptions -> list string.
Variable validateNumber : Field Z -> string -> Z -> list string.
Variable validateDateRange : Field Z -> Field Z -> string -> list string.
Variable parseAndValidateId : Field Z -> string -> option Z.
Variable NAME_MIN NAME_MAX DESCRIPTION_MAX : Z.
Variable validateEventServiceData : ServiceData -> list string.
Variable checkRoomAvailability :
  Z -> Field Z -> Field Z -> option Z -> Store -> RoomAvailability.
Variable tzOffset : Z.

Local Abbreviation createWith notifier :=
  (createEvent validateString validateNumber validateDateRange parseAndValidateId
     NAME_MIN NAME_MAX DESCRIPTION_MAX validateEventServiceData checkRoomAvailability
     notifier tzOffset).
Local Abbreviation writes :=
  (createEventWrites validateEventServiceData checkRoomAvailability tzOffset).

Lemma numOrNull_nonzero : forall x aid, numOrNull x = Some aid -> (aid =? 0) = false.
Proof.
  intros x aid. unfold numOrNull, truthyZ, NumberF.
  destruct x as [| |n]; try discriminate.
  destruct (n =? 0) eqn:E; simpl; [discriminate|]. intro H. now inversion H; subst.
Qed.

(** What a successful creation did: the writes fell through with the event,
    the notifier took the message of an event with an account. *)
Lemma createEvent_success : forall notifier d now w r w',
  createWith notifier d now w = (r, w') ->
  isValid r = true ->
  exists e w1,
    writes d now w = Next e w1
    /\ r = createValidationResult true [] (EventData_ e 0)
    /\ db w' = db w1
    /\ outbox w'
       = outbox w1
         ++ match account_id e with
            | Some aid => [bookingNotification e aid]
            | None => []
            end.
Proof.
  intros notifier d now w r w' Hrun Hok. unfold createEvent in Hrun.
  destruct (0 <? _)%nat.
  { inversion Hrun; subst. discriminate. }
  unfold transaction, createEventTx, bind in Hrun.
  pose proof (createEventWrites_wp validateEventServiceData checkRoomAvailability
                tzOffset d now w) as Hw.
  unfold wp in Hw.
  destruct (writes d now w) as [e w1|r0 w0|msg].
  - exists e, w1. split; [reflexivity|].
    destruct Hw as (_ & _ & Hacc & _).
    unfold notifyBooking, when, notify, ret in Hrun.
    destruct (account_id e) as [aid|].
    + rewrite (numOrNull_nonzero _ (eq_sym Hacc)) in Hrun. simpl in Hrun.
      destruct (notifier (bookingNotification e aid)).
      * inversion Hrun; subst. discriminate.
      * inversion Hrun; subst. simpl. repeat split.
    + inversion Hrun; subst. simpl. repeat split. now rewrite app_nil_r.
  - destruct Hw as [Hr _]. inversion Hrun; subst. congruence.
  - inversion Hrun; subst. discriminate.
Qed.

(** C2 (amended). The estimated cost stored by a successful creation is
    the override (0 if absent), plus the room's base price and hourly rate
    times duration when a room is attached, plus for each line its unit price
    times its quantity, where a custom price that is absent or 0 gives the
    variation's base price and a quantity that is absent or 0 gives 1; when
    no line carries such a 0 this is the rule as the spec words it. *)
Theorem createEvent_estimated_cost : forall notifier d now w r w',
  createWith notifier d now w = (r, w') ->
  isValid r = true ->
  exists e,
    data r = EventData_ e 0
    /\ In e (events (db w'))
    /\ estimated_cost e = amendedCost (db w) d
    /\ (forallb noZeroLine (d_event_services d) = true ->
        estimated_cost e = specCost (db w) d).
Proof.
  intros notifier d now w r w' Hrun Hok.
  destruct (createEvent_success _ _ _ _ Hrun Hok) as (e & w1 & Hw & -> & Hdb & _).
  pose proof (createEventWrites_wp validateEventServiceData checkRoomAvailability
                tzOffset d now w) as Hwp.
  unfold wp in Hwp. rewrite Hw in Hwp.
  destruct Hwp as (Hc & _ & _ & Hev & _).
  exists e. split; [reflexivity|]. split.
  - rewrite Hdb, Hev. apply in_or_app. right. now left.
  - split; [rewrite Hc; apply bookingCost_amended|].
    intro Hz. rewrite Hc. now apply bookingCost_spec.
Qed.

(** X14. The invoice of a successful creation with a positive cost: its
    total is the stored cost, its lines are the room at its base price and the
    service lines, and the total exceeds the sum of the subtotals by the
    override and the hourly charge of the room. *)
Lemma createEvent_invoice : forall notifier d now w r w',
  createWith notifier d now w = (r, w') ->
  isValid r = true ->
  0 < bookingCost (db w) d ->
  exists invoice,
    invoices (db w') = invoices (db w) ++ [invoice]
    /\ invoiceDetails (db w')
       = invoiceDetails (db w) ++ invoiceLines (db w) (invoice_id invoice) d
    /\ total_amount invoice = bookingCost (db w) d
    /\ total_amount invoice
       = sumZ (map subtotal (invoiceLines (db w) (invoice_id invoice) d))
         + unbilledCost (db w) d.
Proof.
  intros notifier d now w r w' Hrun Hok Hpos.
  destruct (createEvent_success _ _ _ _ Hrun Hok) as (e & w1 & Hw & _ & Hdb & _).
  pose proof (createEventWrites_wp validateEventServiceData checkRoomAvailability
                tzOffset d now w) as Hwp.
  unfold wp in Hwp. rewrite Hw in Hwp.
  destruct Hwp as (_ & _ & _ & _ & _ & _ & Hinv).
  apply Z.ltb_lt in Hpos. rewrite Hpos in Hinv.
  destruct Hinv as (invoice & Hi & Hd & _ & Htot & _).
  exists invoice. rewrite Hdb.
  split; [exact Hi|]. split; [exact Hd|]. split; [exact Htot|].
  rewrite Htot. symmetry. apply invoiceLines_total.
Qed.

(** C9 (amended). A successful creation for an account has handed the
    booking confirmation to the notifier; and had the notifier thrown on that
    message, the same call would have returned the notifier's error with
    nothing committed: the transaction is rolled back. *)
Theorem createEvent_notifier : forall notifier d now w r w' e n aid,
  createWith notifier d now w = (r, w') ->
  isValid r = true ->
  data r = EventData_ e n ->
  account_id e = Some aid ->
  outbox w' = outbox w ++ [bookingNotification e aid]
  /\ forall failing msg,
       failing (bookingNotification e aid) = Some msg ->
       createWith failing d now w = (handleError msg, w).
Proof.
  intros notifier d now w r w' e n aid Hrun Hok Hdata Hacc.
  destruct (createEvent_success _ _ _ _ Hrun Hok) as (e0 & w1 & Hw & Hr & Hdb & Hout).
  subst r. simpl in Hdata. inversion Hdata; subst e0 n. clear Hdata.
  pose proof (createEventWrites_wp validateEventServiceData checkRoomAvailability
                tzOffset d now w) as Hwp.
  unfold wp in Hwp. rewrite Hw in Hwp.
  destruct Hwp as (_ & _ & Hnum & _ & _ & Hob & _).
  rewrite Hacc in Hout. split; [congruence|].
  intros failing msg Hfail.
  unfold createEvent in *.
  destruct (0 <? _)%nat; [inversion Hrun; subst; discriminate|].
  unfold transaction, createEventTx, bind. rewrite Hw.
  unfold notifyBooking, when, notify. rewrite Hacc.
  rewrite Hacc in Hnum. rewrite (numOrNull_nonzero _ (eq_sym Hnum)). simpl.
  now rewrite Hfail.
Qed.

End Creation.

(** The run of the scenario on the sample database. *)
Lemma scenario_booked :
  createEventRef notifierUp scenario 1000 venue
  = (createValidationResult true [] (EventData_ launch 0), booked).
Proof. vm_compute. reflexivity. Qed.

(** The scenario of the spec costs 100 + 20 x 2 + 50 x 2. *)
Lemma createEvent_estimated_cost_witness :
  In launch (events (db booked))
  /\ estimated_cost launch = 240
  /\ amendedCost (db venue) scenario = 240
  /\ specCost (db venue) scenario = 240.
Proof.
  destruct (createEvent_estimated_cost
              validateStringRef validateNumberRef validateDateRangeRef
              parseAndValidateIdRef 3 1024 1000 validateEventServiceDataRef
              checkRoomAvailabilityRef 0 notifierUp scenario 1000 venue
              scenario_booked eq_refl)
    as (e & Hd & Hin & Hc & Hs).
  simpl in Hd. inversion Hd. subst e.
  split; [exact Hin|]. split; [reflexivity|].
  split; [rewrite <- Hc; reflexivity|].
  rewrite <- Hs; reflexivity.
Defined.

(** The run of a booking whose one line has a custom price of 0. *)
Lemma free_line_booked :
  exists w',
    createEventRef notifierUp (hallBooking [customLine (Val 0) Undefined]) 1000 venue
    = (createValidationResult true []
         (EventData_
            (mkEvent 1 "Launch" None (Some (hour 10)) (Some (hour 12)) 0 170
               None None PENDING (Some 7) (Some 1) None 1000) 0), w').
Proof. eexists. vm_compute. reflexivity. Qed.

(** The run of a booking whose one line has a custom price of 50 and a
    quantity of 0. *)
Lemma uncounted_line_booked :
  exists w',
    createEventRef notifierUp (hallBooking [customLine (Val 50) (Val 0)]) 1000 venue
    = (createValidationResult true []
         (EventData_
            (mkEvent 1 "Launch" None (Some (hour 10)) (Some (hour 12)) 0 190
               None None PENDING (Some 7) (Some 1) None 1000) 0), w')
    /\ forallb pricedLine [customLine (Val 50) (Val 0)] = true.
Proof. eexists. vm_compute. split; reflexivity. Qed.

(** The rule as worded fails twice. A line with a custom price of 0 is
    charged the base price of its variation: the stored cost is 170 where the
    rule as worded gives 140. And among the payloads whose custom prices are
    not 0, a line of 50 with a quantity of 0 is charged once: the stored cost
    is 190 where the rule as worded gives 140. *)
Lemma createEvent_cost_counterexample :
  ~ (forall d now w r w' e,
       createEventRef notifierUp d now w = (r, w') ->
       isValid r = true ->
       data r = EventData_ e 0 ->
       estimated_cost e = specCost (db w) d)
  /\ ~ (forall d now w r w' e,
          createEventRef notifierUp d now w = (r, w') ->
          isValid r = true ->
          data r = EventData_ e 0 ->
          forallb pricedLine (d_event_services d) = true ->
          estimated_cost e = specCost (db w) d).
Proof.
  split.
  - intro H. destruct free_line_booked as [w' Hrun].
    specialize (H _ _ _ _ _ _ Hrun eq_refl eq_refl).
    vm_compute in H. discriminate.
  - intro H. destruct uncounted_line_booked as (w' & Hrun & Hp).
    specialize (H _ _ _ _ _ _ Hrun eq_refl eq_refl Hp).
    vm_compute in H. discriminate.
Qed.

(** The run of the scenario with the notifier down. *)
Lemma scenario_notifier_down :
  createEventRef notifierDown scenario 1000 venue
  = (handleError "Notifier unavailable", venue).
Proof. vm_compute. reflexivity. Qed.

(** The booking succeeds and emits the confirmation; with the notifier down
    the same call fails and nothing is stored. *)
Lemma createEvent_notifier_witness :
  outbox booked = outbox venue ++ [bookingNotification launch 7]
  /\ createEventRef notifierDown scenario 1000 venue
     = (handleError "Notifier unavailable", venue).
Proof.
  destruct (createEvent_notifier
              validateStringRef validateNumberRef validateDateRangeRef
              parseAndValidateIdRef 3 1024 1000 validateEventServiceDataRef
              checkRoomAvailabilityRef 0 notifierUp scenario 1000 venue
              (e := launch) (n := 0%nat) (aid := 7)
              scenario_booked eq_refl eq_refl eq_refl)
    as [Hout Hfail].
  split.
  - exact Hout.
  - exact (Hfail notifierDown "Notifier unavailable" eq_refl).
Defined.

(** When the notifier errors, the booking is refused and the event, its
    lines and its invoice are not committed, although the same booking
    succeeds when the notifier answers. *)
Lemma createEvent_notifier_counterexample :
  isValid (fst (createEventRef notifierUp scenario 1000 venue)) = true
  /\ isValid (fst (createEventRef notifierDown scenario 1000 venue)) = false
  /\ events (db (snd (createEventRef notifierDown scenario 1000 venue))) = []
  /\ eventServices (db (snd (createEventRef notifierDown scenario 1000 venue))) = []
  /\ invoices (db (snd (createEventRef notifierDown scenario 1000 venue))) = [].
Proof.
  rewrite scenario_booked, scenario_notifier_down. repeat split.
Qed.

(** ** Update: the service lines are replaced wholesale *)

Lemma serviceRows_event : forall eid k services,
  Forall (fun l => es_event_id l = eid) (serviceRows eid k services).
Proof.
  intros eid k services. revert k.
  induction services as [|service rest IH]; intro k; simpl; constructor; auto.
Qed.

Lemma filter_all : forall (A : Type) (p : A -> bool) (l : list A),
  Forall (fun x => p x = true) l -> filter p l = l.
Proof.
  intros A p l H. induction H as [|x l Hx _ IH]; simpl; [reflexivity|].
  now rewrite Hx, IH.
Qed.

Lemma filter_none : forall (A : Type) (p : A -> bool) (l : list A),
  Forall (fun x => p x = false) l -> filter p l = [].
Proof.
  intros A p l H. induction H as [|x l Hx _ IH]; simpl; [reflexivity|].
  now rewrite Hx.
Qed.

Lemma servicesOf_replaced : forall eid k services (old : list EventService) other,
  filter (fun l => es_event_id l =? other)
    (filter (fun l => negb (es_event_id l =? eid)) old ++ serviceRows eid k services)
  = if other =? eid then serviceRows eid k services
    else filter (fun l => es_event_id l =? other) old.
Proof.
  intros eid k services old other. rewrite filter_app, filter_filter.
  destruct (Z.eqb_spec other eid) as [->|Hne].
  - rewrite filter_none, filter_all; [reflexivity| |].
    + eapply Forall_impl; [|apply serviceRows_event]. simpl. intros l ->. apply Z.eqb_refl.
    + apply Forall_forall. intros l _. destruct (es_event_id l =? eid); reflexivity.
  - rewrite (@filter_none _ _ (serviceRows eid k services)).
    + rewrite app_nil_r. apply filter_ext. intro l.
      destruct (Z.eqb_spec (es_event_id l) eid) as [E|E]; simpl; [|reflexivity].
      rewrite E. symmetry. now apply Z.eqb_neq, not_eq_sym.
    + eapply Forall_impl; [|apply serviceRows_event]. simpl. intros l ->.
      now apply Z.eqb_neq, not_eq_sym.
Qed.

(** The rows [createMany] inserts are the supplied lines, one by one. *)
Lemma serviceRows_stored : forall eid k services,
  Forall2 (lineStored eid) services (serviceRows eid k services).
Proof.
  intros eid k services. revert k.
  induction services as [|service rest IH]; intro k; simpl; constructor; [|apply IH].
  unfold lineStored, suppliedNumber, numOrNull, orF, orS, trimOrNull, dateOrNull,
    truthyZ, NumberF. simpl.
  split; [reflexivity|]. split; [reflexivity|].
  split; [destruct (sd_variation_id service) as [| |x]; try reflexivity;
          destruct (x =? 0); reflexivity|].
  split; [destruct (sd_quantity service) as [| |x]; try reflexivity;
          destruct (x =? 0); reflexivity|].
  split; [destruct (sd_custom_price service) as [| |x]; try reflexivity;
          destruct (x =? 0); reflexivity|].
  split; [reflexivity|]. split; [reflexivity|]. split; [reflexivity|].
  destruct (sd_duration_hours service) as [| |x]; try reflexivity.
  destruct (x =? 0); reflexivity.
Qed.

Lemma serviceRows_count : forall eid k services,
  List.length (serviceRows eid k services) = List.length services.
Proof.
  intros eid k services. revert k.
  induction services as [|x l IH]; intro k; simpl; [reflexivity|].
  f_equal. apply IH.
Qed.

Lemma serviceRows_keys : forall eid k services,
  map event_service_id (serviceRows eid k services)
  = keysFrom k (List.length services).
Proof.
  intros eid k services. revert k.
  induction services as [|x l IH]; intro k; simpl; [reflexivity|].
  f_equal. apply IH.
Qed.

Lemma serviceRows_key_bound : forall eid k services row,
  In row (serviceRows eid k services) -> k <= event_service_id row.
Proof.
  intros eid k services. revert k.
  induction services as [|x l IH]; intros k row Hin; simpl in Hin; [contradiction|].
  destruct Hin as [<-|Hin]; [simpl; lia|].
  apply IH in Hin. lia.
Qed.

Section Update.

Variable validateString : Field string -> string -> StringOptions -> list string.
Variable validateNumber : Field Z -> string -> Z -> list string.
Variable validateDateRange : Field Z -> Field Z -> string -> list string.
Variable parseAndValidateId : Field Z -> string -> option Z.
Variable NAME_MIN NAME_MAX DESCRIPTION_MAX : Z.
Variable validateEventServiceData : ServiceData -> list string.
Variable checkRoomAvailability :
  Z -> Field Z -> Field Z -> option Z -> Store -> RoomAvailability.
Variable tzOffset : Z.

Local Abbreviation update :=
  (updateEvent validateString validateNumber validateDateRange parseAndValidateId
     NAME_MIN NAME_MAX DESCRIPTION_MAX validateEventServiceData checkRoomAvailability
     tzOffset).

Lemma updateRoomStep_wp : forall existingEvent d w,
  wp (updateRoomStep checkRoomAvailability existingEvent d
        (orF (d_estimated_cost d) (orZ (estimated_cost existingEvent) 0))) w
     (fun c w' =>
        w' = w
        /\ c + linesCost (db w) (d_event_services d) = updatedCost (db w) existingEvent d)
     (refused w).
Proof.
  intros existingEvent d w. unfold updateRoomStep, updatedCost, roomChanged.
  rewrite orZ_0.
  destruct (_ && _).
  - apply wp_bind, wp_getStore.
    destruct (findRoom _ _) as [room|]; [|split; reflexivity].
    destruct (_ || _); [split; reflexivity|].
    apply wp_bind. eapply wp_conseq; [apply checkRoomWindow_wp | | auto].
    intros u w' ->. apply wp_ret. now rewrite roomCost_spec.
  - destruct (room_id existingEvent) as [rid|]; [|split; reflexivity].
    destruct (_ && _); [|split; reflexivity].
    apply wp_bind, wp_getStore.
    destruct (findRoom _ _) as [room|]; [|split; reflexivity].
    destruct (_ || _); [split; reflexivity|].
    apply wp_bind. eapply wp_conseq; [apply checkRoomWindow_wp | | auto].
    intros u w' ->. split; reflexivity.
Qed.

(** [tx.event.update] writes the row of the event and nothing else; the
    columns whose property is absent are kept, the event date is not. *)
Lemma writeEvent_wp : forall existingEvent d c w,
  wp (writeEvent tzOffset existingEvent d c) w
     (fun e w' =>
        keptFields existingEvent d e
        /\ estimated_cost e = c
        /\ event_date e = writtenEventDate tzOffset d
        /\ events (db w')
           = map (fun x => if event_id x =? event_id existingEvent then e else x)
               (events (db w))
        /\ eventServices (db w') = eventServices (db w)
        /\ next_event_service_id (db w') = next_event_service_id (db w)
        /\ outbox w' = outbox w)
     never.
Proof.
  intros existingEvent d c w.
  unfold wp, writeEvent, eventDateOf, statusOf, bind, ret, throw, getStore, putStore,
    keptFields, writtenEventDate.
  destruct (d_event_date d); destruct (d_start_time d); try exact I;
    destruct (d_status d) as [| |v]; try exact I;
    try destruct (status_of_string v); try exact I;
    simpl; repeat split;
    try (intro H; try discriminate H; try rewrite H; reflexivity).
Qed.

Lemma replaceEventServices_wp : forall eid services w,
  wp (replaceEventServices eid services) w
     (fun _ w' =>
        eventServices (db w')
        = match services with
          | [] => eventServices (db w)
          | _ =>
              filter (fun l => negb (es_event_id l =? eid)) (eventServices (db w))
              ++ serviceRows eid (next_event_service_id (db w)) services
          end
        /\ events (db w') = events (db w)
        /\ outbox w' = outbox w)
     never.
Proof.
  intros eid services w. unfold replaceEventServices.
  destruct services as [|service rest]; [repeat split|].
  unfold wp, when, deleteEventServices, createEventServices, bind, getStore, putStore.
  simpl. repeat split.
Qed.

Lemma resetInvoice_wp : forall existingInvoice total w,
  wp (resetInvoice existingInvoice total) w (fun _ w' => sameBookings w w') never.
Proof.
  intros existingInvoice total w. unfold resetInvoice, sameBookings.
  unfold wp, bind, getStore, putStore. simpl. repeat split.
Qed.

Lemma updateInvoice_wp : forall existingEvent d c w,
  wp (updateInvoice existingEvent d c) w (fun _ w' => sameBookings w w') never.
Proof.
  intros existingEvent d c w. unfold updateInvoice. apply when_same. clear w. intro w.
  apply wp_bind, wp_getStore.
  destruct (findInvoice _ _) as [existingInvoice|]; [|apply wp_ret, sameBookings_refl].
  apply wp_bind_same; [apply resetInvoice_wp|]. intros _ w1.
  apply wp_bind_same.
  - destruct (invoiceRoomId existingEvent d);
      [apply roomDetail_wp | apply wp_ret, sameBookings_refl].
  - intros _ w2. apply when_same. intro w0. apply serviceDetails_wp.
Qed.

Lemma updateEventTx_wp : forall existingEvent d w,
  wp (updateEventTx validateEventServiceData checkRoomAvailability tzOffset
        existingEvent d) w
     (fun r w' =>
        isValid r = true
        /\ eventServices (db w')
           = match d_event_services d with
             | [] => eventServices (db w)
             | _ =>
                 filter (fun l => negb (es_event_id l =? event_id existingEvent))
                   (eventServices (db w))
                 ++ serviceRows (event_id existingEvent) (next_event_service_id (db w))
                      (d_event_services d)
             end
        /\ exists e n,
             data r = EventData_ e n
             /\ keptFields existingEvent d e
             /\ event_date e = writtenEventDate tzOffset d
             /\ estimated_cost e = updatedCost (db w) existingEvent d
             /\ events (db w')
                = map (fun x => if event_id x =? event_id existingEvent then e else x)
                    (events (db w)))
     (refused w).
Proof.
  intros existingEvent d w. unfold updateEventTx.
  apply wp_bind. eapply wp_conseq; [apply checkAccount_wp | | auto]. intros _ w' ->.
  apply wp_bind. eapply wp_conseq; [apply updateRoomStep_wp | | auto].
  intros c1 w' [-> Hc1].
  apply wp_bind. eapply wp_conseq; [apply checkEventType_wp | | auto]. intros u2 w' ->.
  apply wp_bind. eapply wp_conseq; [apply serviceCosts_wp | | auto].
  intros c2 w' [-> Hc2].
  apply wp_bind, wp_getStore.
  apply wp_bind. eapply wp_conseq; [apply writeEvent_wp | | intros ? ? []].
  intros e w1 (Hkept & Hcost & Hdate & Hev & Hes & Hnx & _).
  apply wp_bind. eapply wp_conseq; [apply replaceEventServices_wp | | intros ? ? []].
  intros _ w2 (Hes2 & Hev2 & _).
  apply wp_bind. eapply wp_conseq; [apply updateInvoice_wp | | intros ? ? []].
  intros _ w3 (Hev3 & Hes3 & _).
  apply wp_ret. split; [reflexivity|]. split.
  - rewrite Hes3, Hes2, Hes, Hnx. reflexivity.
  - eexists. eexists. split; [reflexivity|].
    split; [exact Hkept|]. split; [exact Hdate|]. split; congruence.
Qed.

Lemma findEvent_id : forall s eid e, findEvent s eid = Some e -> event_id e = eid.
Proof.
  intros s eid e H. unfold findEvent in H. apply find_some in H as [_ H].
  now apply Z.eqb_eq.
Qed.

(** An update ends in one of two ways: refused with nothing written, or
    accepted with the lines of the event replaced when some were supplied
    and the row of the event rewritten. *)
Lemma updateEvent_lines : forall eid d user now w r w',
  update eid d user now w = (r, w') ->
  (isValid r = false /\ w' = w)
  \/ (isValid r = true
      /\ eventServices (db w')
         = match d_event_services d with
           | [] => eventServices (db w)
           | _ =>
               filter (fun l => negb (es_event_id l =? eid)) (eventServices (db w))
               ++ serviceRows eid (next_event_service_id (db w)) (d_event_services d)
           end
      /\ exists old e n,
           findEvent (db w) eid = Some old
           /\ data r = EventData_ e n
           /\ keptFields old d e
           /\ event_date e = writtenEventDate tzOffset d
           /\ estimated_cost e = updatedCost (db w) old d
           /\ events (db w')
              = map (fun x => if event_id x =? eid then e else x) (events (db w))).
Proof.
  intros eid d user now w r w' Hrun. unfold updateEvent in Hrun.
  destruct (findEvent (db w) eid) as [existingEvent|] eqn:Hfind;
    [|inversion Hrun; subst; left; split; reflexivity].
  destruct (policyError existingEvent user now);
    [inversion Hrun; subst; left; split; reflexivity|].
  destruct (0 <? _)%nat; [inversion Hrun; subst; left; split; reflexivity|].
  pose proof (updateEventTx_wp existingEvent d w) as Hwp.
  unfold wp in Hwp. unfold transaction in Hrun.
  rewrite (findEvent_id _ _ Hfind) in Hwp.
  destruct (updateEventTx _ _ _ existingEvent d w) as [r0 w0|r0 w0|msg];
    inversion Hrun; subst.
  - right. destruct Hwp as (Hok & Hes & e & n & Hd & Hk & Hdate & Hcost & Hev).
    split; [exact Hok|]. split; [exact Hes|].
    exists existingEvent, e, n.
    split; [reflexivity|]. split; [exact Hd|]. split; [exact Hk|].
    split; [exact Hdate|]. split; [exact Hcost | exact Hev].
  - left. exact Hwp.
  - left. split; reflexivity.
Qed.

Lemma find_replaced : forall eid e (l : list Event) old,
  event_id e = eid ->
  find (fun x => event_id x =? eid) l = Some old ->
  find (fun x => event_id x =? eid) (map (fun x => if event_id x =? eid then e else x) l)
  = Some e.
Proof.
  intros eid e l old He. induction l as [|x l IH]; [discriminate|].
  simpl. destruct (event_id x =? eid) eqn:E.
  - intros _. simpl. rewrite He, Z.eqb_refl. reflexivity.
  - intro H. simpl. rewrite E. now apply IH.
Qed.

(** X13. What an accepted update stores for the event: every column whose
    property is absent from the payload keeps its stored value, except the
    event date, which is the payload's or else the local midnight of the
    payload's start time, and the cost, which for an unchanged room is the
    override or else the stored cost, plus the cost of the supplied lines. *)
Lemma updateEvent_stored_event : forall eid d user now w r w',
  update eid d user now w = (r, w') ->
  isValid r = true ->
  exists old e,
    findEvent (db w) eid = Some old
    /\ findEvent (db w') eid = Some e
    /\ keptFields old d e
    /\ event_date e = writtenEventDate tzOffset d
    /\ estimated_cost e = updatedCost (db w) old d.
Proof.
  intros eid d user now w r w' Hrun Hok.
  destruct (updateEvent_lines _ _ _ _ _ Hrun) as [[Hr _]|(_ & _ & Hrest)]; [congruence|].
  destruct Hrest as (old & e & n & Hfind & _ & Hk & Hdate & Hcost & Hev).
  exists old, e. split; [exact Hfind|]. split; [|split; [|split]; assumption].
  unfold findEvent in *. rewrite Hev.
  apply find_replaced with (old := old); [|exact Hfind].
  destruct Hk as (Hid & _). rewrite Hid. now apply (findEvent_id (db w)).
Qed.

(** C5. An update with an empty list of service lines leaves every stored
    line as it was; an accepted update with a non-empty list leaves the event
    with exactly the supplied lines, one stored row per line and in their
    order, each row carrying what its line supplied, under keys that no row had
    before when the key counter is above every stored key; the lines of other
    events are untouched. *)
Theorem updateEvent_service_lines : forall eid d user now w r w',
  update eid d user now w = (r, w') ->
  (d_event_services d = [] -> eventServices (db w') = eventServices (db w))
  /\ (d_event_services d <> [] -> isValid r = true ->
      Forall2 (lineStored eid) (d_event_services d) (servicesOf (db w') eid)
      /\ List.length (servicesOf (db w') eid) = List.length (d_event_services d)
      /\ map event_service_id (servicesOf (db w') eid)
         = keysFrom (next_event_service_id (db w)) (List.length (d_event_services d))
      /\ ((forall row, In row (eventServices (db w)) ->
             event_service_id row < next_event_service_id (db w)) ->
          forall row, In row (servicesOf (db w) eid) ->
                      ~ In row (eventServices (db w')))
      /\ servicesOf (db w') eid
         = serviceRows eid (next_event_service_id (db w)) (d_event_services d)
      /\ forall other, other <> eid ->
           servicesOf (db w') other = servicesOf (db w) other).
Proof.
  intros eid d user now w r w' Hrun.
  destruct (updateEvent_lines _ _ _ _ _ Hrun) as [[Hr ->]|(Hr & Hes & _)].
  - split; [reflexivity|]. intros _ Hok. congruence.
  - split.
    + intro Hnil. now rewrite Hnil in Hes.
    + intros Hne _.
      assert (Hrows : servicesOf (db w') eid
                      = serviceRows eid (next_event_service_id (db w))
                          (d_event_services d)).
      { unfold servicesOf. rewrite Hes.
        destruct (d_event_services d) as [|service rest] eqn:Hd; [congruence|].
        rewrite servicesOf_replaced. now rewrite Z.eqb_refl. }
      split; [rewrite Hrows; apply serviceRows_stored|].
      split; [rewrite Hrows; apply serviceRows_count|].
      split; [rewrite Hrows; apply serviceRows_keys|].
      split.
      * intros Hkeys row Hold Hin. rewrite Hes in Hin.
        destruct (d_event_services d) as [|service rest] eqn:Hd; [congruence|].
        unfold servicesOf in Hold. apply filter_In in Hold as [Hstored Hev].
        apply in_app_or in Hin as [Hin|Hin].
        -- apply filter_In in Hin as [_ Hin]. rewrite Hev in Hin. discriminate.
        -- apply serviceRows_key_bound in Hin. specialize (Hkeys row Hstored). lia.
      * split; [exact Hrows|].
        intros other Ho. unfold servicesOf. rewrite Hes.
        destruct (d_event_services d) as [|service rest] eqn:Hd; [congruence|].
        rewrite servicesOf_replaced. now apply Z.eqb_neq in Ho as ->.
Qed.

End Update.

(** The run of the update that supplies one new line to event 1. *)
Lemma swap_run :
  exists r w',
    updateEventRef 1 (resupply [customLine (Val 10) (Val 3)] Undefined) None 2000 booked
    = (r, w')
    /\ isValid r = true
    /\ servicesOf (db w') 1
       = [mkEventService 2 1 9 (Some 5) 3 (Some 10) None "CONFIRMED" None None].
Proof. eexists. eexists. vm_compute. repeat split. Qed.

(** The run of the update that supplies no line. *)
Lemma rename_run :
  exists r w',
    updateEventRef 1 (resupply [] Undefined) None 2000 booked = (r, w').
Proof. eexists. eexists. vm_compute. reflexivity. Qed.

(** Every row of the booked database has a key below the counter. *)
Lemma booked_keys : forall row,
  In row (eventServices (db booked)) ->
  event_service_id row < next_event_service_id (db booked).
Proof.
  intros row Hin. vm_compute in Hin. destruct Hin as [<-|[]]. reflexivity.
Qed.

Lemma booked_line :
  In (mkEventService 1 1 9 (Some 5) 2 (Some 50) None "CONFIRMED" None None)
    (servicesOf (db booked) 1).
Proof. vm_compute. left. reflexivity. Qed.

(** The line of event 1 is replaced by the supplied one: one row, that of
    the supplied line, under the new key 2, and the old row is gone; an update
    without lines leaves the stored line. *)
Lemma updateEvent_service_lines_witness :
  (exists r w',
     updateEventRef 1 (resupply [customLine (Val 10) (Val 3)] Undefined) None 2000 booked
     = (r, w')
     /\ Forall2 (lineStored 1) [customLine (Val 10) (Val 3)] (servicesOf (db w') 1)
     /\ List.length (servicesOf (db w') 1) = 1%nat
     /\ map event_service_id (servicesOf (db w') 1) = [2]
     /\ ~ In (mkEventService 1 1 9 (Some 5) 2 (Some 50) None "CONFIRMED" None None)
            (eventServices (db w')))
  /\ (exists r w',
        updateEventRef 1 (resupply [] Undefined) None 2000 booked = (r, w')
        /\ eventServices (db w') = eventServices (db booked)).
Proof.
  split.
  - destruct swap_run as (r & w' & Hrun & Hok & _).
    exists r, w'. split; [exact Hrun|].
    assert (Hne : d_event_services (resupply [customLine (Val 10) (Val 3)] Undefined)
                  <> []) by discriminate.
    destruct (proj2 (updateEvent_service_lines _ _ _ _ _ _ _ _ _ _ _ _ _ _ _ Hrun)
                Hne Hok) as (Hall & Hlen & Hkeys & Hgone & _).
    split; [exact Hall|]. split; [exact Hlen|]. split; [exact Hkeys|].
    exact (Hgone booked_keys _ booked_line).
  - destruct rename_run as (r & w' & Hrun).
    exists r, w'. split; [exact Hrun|].
    apply (proj1 (updateEvent_service_lines _ _ _ _ _ _ _ _ _ _ _ _ _ _ _ Hrun)).
    reflexivity.
Defined.

(** C3. The invoice written for the scenario of the spec has a total of 240
    while its two lines, the room at its base price and the service line, sum
    to 200: the hourly part of the room is in the total and in no line. *)
Theorem createEvent_invoice_total_not_sum :
  createEventRef notifierUp scenario 1000 venue
  = (createValidationResult true [] (EventData_ launch 0), booked)
  /\ exists inv,
       findInvoice (db booked) 1 = Some inv
       /\ total_amount inv = 240
       /\ map subtotal (detailsOf (db booked) (invoice_id inv)) = [100; 100]
       /\ detailsTotal (db booked) (invoice_id inv) = 200.
Proof.
  split; [exact scenario_booked|].
  exists (mkInvoice 1 "INV-1000" 240 1 (Some 7) "PENDING" 1000 604801000).
  vm_compute. repeat split.
Qed.

(** C4. Event 1 is stored with the cost 240 of its room, two hours and one
    line of 50 x 2. An update that supplies the same duration and the same
    line, the room unchanged, stores 340: the lines are added to the stored
    cost, which already holds them, where the rule over the resulting
    composition gives 240. *)
Theorem updateEvent_cost_not_recomputed :
  option_map estimated_cost (findEvent (db booked) 1) = Some 240
  /\ (exists r w',
        updateEventRef 1 (resupply [customLine (Val 50) (Val 2)] (Val 2)) None 2000 booked
        = (r, w')
        /\ isValid r = true
        /\ option_map estimated_cost (findEvent (db w') 1) = Some 340
        /\ option_map room_id (findEvent (db w') 1) = Some (Some 1)
        /\ map (fun l => (es_custom_price l, es_quantity l)) (servicesOf (db w') 1)
           = [(Some 50, 2)])
  /\ specCost (db booked) scenario = 240.
Proof.
  split; [reflexivity|]. split.
  - eexists. eexists. vm_compute. repeat split.
  - vm_compute. reflexivity.
Qed.

(** C6. Event 1 is stored with an event date of its own. An update that
    names the event and its times again and carries no [event_date] is
    accepted and stores the local midnight of the start time as the event
    date. *)
Theorem updateEvent_event_date_recomputed :
  d_event_date (resupply [] Undefined) = Undefined
  /\ option_map event_date (findEvent (db bookedDated) 1) = Some (hour 48)
  /\ exists r w',
       updateEventRef 1 (resupply [] Undefined) None 2000 bookedDated = (r, w')
       /\ isValid r = true
       /\ option_map event_date (findEvent (db w') 1) = Some 0.
Proof.
  split; [reflexivity|]. split; [vm_compute; reflexivity|].
  eexists. eexists. vm_compute. repeat split.
Qed.

(** ** Lifecycle: the status toggle and the deletion guard *)

Lemma setStatus_same : forall e, setStatus e (status e) = e.
Proof. intros []. reflexivity. Qed.

Lemma setStatus_twice : forall e a b, setStatus (setStatus e a) b = setStatus e b.
Proof. intros [] a b. reflexivity. Qed.

Lemma find_setStatus : forall eid st (l : list Event),
  find (fun e => event_id e =? eid)
    (map (fun e => if event_id e =? eid then setStatus e st else e) l)
  = option_map (fun e => setStatus e st) (find (fun e => event_id e =? eid) l).
Proof.
  intros eid st l. induction l as [|e l IH]; [reflexivity|].
  simpl. destruct (event_id e =? eid) eqn:E; simpl; rewrite E; [reflexivity | exact IH].
Qed.

Lemma toggleEventStatus_found : forall eid w e,
  findEvent (db w) eid = Some e ->
  findEvent (db (snd (toggleEventStatus eid w))) eid
  = Some (setStatus e (toggledStatus (status e))).
Proof.
  intros eid w e H. unfold toggleEventStatus. rewrite H. unfold findEvent in *. simpl.
  now rewrite find_setStatus, H.
Qed.

(** C7. The toggle sends PENDING to CONFIRMED and every other status to
    PENDING; from PENDING or CONFIRMED, two toggles give the event back as it
    was. *)
Theorem toggleEventStatus_twice : forall eid w e,
  findEvent (db w) eid = Some e ->
  option_map status (findEvent (db (snd (toggleEventStatus eid w))) eid)
  = Some (if EventStatus_eqb (status e) PENDING then CONFIRMED else PENDING)
  /\ (status e = PENDING ->
      option_map status (findEvent (db (snd (toggleEventStatus eid w))) eid)
      = Some CONFIRMED)
  /\ (status e <> PENDING ->
      option_map status (findEvent (db (snd (toggleEventStatus eid w))) eid)
      = Some PENDING)
  /\ (status e = PENDING \/ status e = CONFIRMED ->
      findEvent (db (snd (toggleEventStatus eid (snd (toggleEventStatus eid w))))) eid
      = Some e).
Proof.
  intros eid w e H. rewrite (toggleEventStatus_found _ _ H). simpl.
  split; [reflexivity|]. split; [|split].
  - intros ->. reflexivity.
  - intro Hne. unfold toggledStatus. destruct (status e); try reflexivity. congruence.
  - intro Hst.
    rewrite (toggleEventStatus_found _ _ (toggleEventStatus_found _ _ H)).
    rewrite setStatus_twice. simpl.
    replace (toggledStatus (toggledStatus (status e))) with (status e).
    + now rewrite setStatus_same.
    + destruct Hst as [-> | ->]; reflexivity.
Qed.

(** The booked event is PENDING; two toggles store it as it was. *)
Lemma toggleEventStatus_twice_witness :
  option_map status (findEvent (db (snd (toggleEventStatus 1 booked))) 1) = Some CONFIRMED
  /\ findEvent (db (snd (toggleEventStatus 1 (snd (toggleEventStatus 1 booked))))) 1
     = Some launch.
Proof.
  assert (Hfind : findEvent (db booked) 1 = Some launch) by (vm_compute; reflexivity).
  destruct (toggleEventStatus_twice 1 booked Hfind) as (_ & H1 & _ & H2).
  split.
  - exact (H1 eq_refl).
  - exact (H2 (or_introl eq_refl)).
Defined.

Lemma find_all_false : forall (A : Type) (p : A -> bool) (l : list A),
  (forall x, In x l -> p x = false) -> find p l = None.
Proof.
  intros A p l H. induction l as [|a l IH]; [reflexivity|].
  simpl. rewrite (H a (or_introl eq_refl)). apply IH. intros x Hx. apply H. now right.
Qed.

Lemma filter_negb_empty : forall (A : Type) (p : A -> bool) (l : list A),
  filter p (filter (fun x => negb (p x)) l) = [].
Proof.
  intros A p l. rewrite filter_filter. apply filter_none, Forall_forall.
  intros x _. destruct (p x); reflexivity.
Qed.

(** C8. Deleting an unknown id is refused as not found. Deleting an event
    that has a service line, an invoice, a payment or a review without
    [forceDelete] is refused with the exact counts and nothing is deleted.
    With [forceDelete] the event goes together with its service lines, its
    payments, its reviews, its invoice and the lines of that invoice. *)
Theorem deleteEvent_guard : forall eid forceDelete w r w',
  deleteEvent eid forceDelete w = (r, w') ->
  (findEvent (db w) eid = None ->
   isValid r = false /\ errors r = ["Event not found"] /\ w' = w)
  /\ (findEvent (db w) eid <> None ->
      forceDelete = false ->
      servicesOf (db w) eid <> [] \/ findInvoice (db w) eid <> None
      \/ paymentsOf (db w) eid <> [] \/ reviewsOf (db w) eid <> [] ->
      isValid r = false
      /\ errors r
         = [blockedMessage (List.length (servicesOf (db w) eid))
              (List.length (paymentsOf (db w) eid))
              (List.length (reviewsOf (db w) eid))
              (isSome (findInvoice (db w) eid))]
      /\ data r
         = BlockedData (List.length (servicesOf (db w) eid))
             (List.length (paymentsOf (db w) eid))
             (List.length (reviewsOf (db w) eid))
             (isSome (findInvoice (db w) eid))
      /\ w' = w)
  /\ (findEvent (db w) eid <> None ->
      forceDelete = true ->
      oneInvoicePerEvent (db w) ->
      isValid r = true
      /\ findEvent (db w') eid = None
      /\ servicesOf (db w') eid = []
      /\ paymentsOf (db w') eid = []
      /\ reviewsOf (db w') eid = []
      /\ findInvoice (db w') eid = None
      /\ (forall inv, findInvoice (db w) eid = Some inv ->
                      detailsOf (db w') (invoice_id inv) = [])).
Proof.
  intros eid forceDelete w r w' Hrun. unfold deleteEvent in Hrun.
  destruct (findEvent (db w) eid) as [existingEvent|] eqn:Hfind.
  2:{ inversion Hrun; subst. split; [intros _; repeat split|].
      split; intros Hne; congruence. }
  split; [discriminate|]. split.
  - intros _ -> Hdeps.
    assert (Hd : ((0 <? List.length (servicesOf (db w) eid))%nat
                  || isSome (findInvoice (db w) eid)
                  || (0 <? List.length (paymentsOf (db w) eid))%nat
                  || (0 <? List.length (reviewsOf (db w) eid))%nat) = true).
    { destruct (servicesOf (db w) eid); [|reflexivity].
      destruct (findInvoice (db w) eid); [reflexivity|].
      destruct (paymentsOf (db w) eid); [|reflexivity].
      destruct (reviewsOf (db w) eid); [|reflexivity].
      destruct Hdeps as [H|[H|[H|H]]]; congruence. }
    rewrite Hd in Hrun. simpl in Hrun. inversion Hrun; subst. repeat split.
  - intros _ -> Huniq. rewrite andb_false_r in Hrun.
    unfold transaction, deleteEventTx, when, bind, deleteEventServices, deletePayments,
      deleteReviews, deleteInvoice, deleteEventRow, getStore, putStore, ret in Hrun.
    destruct (findInvoice (db w) eid) as [inv|] eqn:Hinv;
      simpl in Hrun; inversion Hrun; subst; clear Hrun;
      unfold findEvent, servicesOf, paymentsOf, reviewsOf, findInvoice, detailsOf; simpl;
      (split; [reflexivity|]);
      (split; [apply find_all_false; intros x Hx; apply filter_In in Hx as [_ Hx];
               now apply negb_true_iff in Hx|]);
      (split; [apply filter_negb_empty|]);
      (split; [apply filter_negb_empty|]);
      (split; [apply filter_negb_empty|]).
    + split.
      * apply find_all_false. intros x Hx. apply filter_In in Hx as [Hin Hx].
        apply negb_true_iff, Z.eqb_neq in Hx.
        destruct (Z.eqb_spec (inv_event_id x) eid) as [E|E]; [|reflexivity].
        exfalso. apply Hx. apply Huniq; [exact Hin| |].
        -- unfold findInvoice in Hinv. now apply find_some in Hinv as [Hi _].
        -- unfold findInvoice in Hinv. apply find_some in Hinv as [_ Hi].
           apply Z.eqb_eq in Hi. congruence.
      * intros inv0 Heq. inversion Heq; subst. apply filter_negb_empty.
    + split; [|discriminate].
      unfold findInvoice in Hinv. exact Hinv.
Qed.

(** The runs of the deletion of event 1 of the settled database, refused
    and forced, and of an unknown event. *)
Lemma settled_runs :
  deleteEvent 1 false settled
  = (createValidationResult false
       ["Cannot delete event. It has 1 services, 1 payments, 2 reviews, and 1 invoice. Use forceDelete to delete anyway."]
       (BlockedData 1 1 2 true), settled)
  /\ (exists r w', deleteEvent 1 true settled = (r, w'))
  /\ (exists r w', deleteEvent 3 true settled = (r, w')).
Proof.
  split; [vm_compute; reflexivity|].
  split; eexists; eexists; vm_compute; reflexivity.
Qed.

(** Event 1 of the settled database has one line, one payment, two reviews
    and an invoice: its deletion is refused with those counts and deletes
    nothing, and forced it leaves nothing of them; event 3 is not found. *)
Lemma deleteEvent_guard_witness :
  (isValid (fst (deleteEvent 1 false settled)) = false
   /\ data (fst (deleteEvent 1 false settled)) = BlockedData 1 1 2 true
   /\ snd (deleteEvent 1 false settled) = settled)
  /\ (exists r w',
        deleteEvent 1 true settled = (r, w')
        /\ isValid r = true
        /\ findEvent (db w') 1 = None
        /\ servicesOf (db w') 1 = []
        /\ paymentsOf (db w') 1 = []
        /\ reviewsOf (db w') 1 = []
        /\ findInvoice (db w') 1 = None
        /\ detailsOf (db w') 1 = [])
  /\ (exists r w',
        deleteEvent 3 true settled = (r, w')
        /\ errors r = ["Event not found"] /\ w' = settled).
Proof.
  destruct settled_runs as (Hblocked & (r1 & w1 & Hforced) & (r3 & w3 & Hmissing)).
  assert (Hfound : findEvent (db settled) 1 <> None) by (vm_compute; discriminate).
  assert (Hinv : findInvoice (db settled) 1
                 = Some (mkInvoice 1 "INV-1000" 240 1 (Some 7) "PENDING" 1000 604801000))
    by (vm_compute; reflexivity).
  split; [|split].
  - destruct (proj1 (proj2 (deleteEvent_guard _ _ _ Hblocked)) Hfound eq_refl)
      as (Hv & _ & Hd & Hw).
    + right. left. rewrite Hinv. discriminate.
    + rewrite Hblocked. repeat split.
  - exists r1, w1. split; [exact Hforced|].
    destruct (proj2 (proj2 (deleteEvent_guard _ _ _ Hforced)) Hfound eq_refl)
      as (Hv & He & Hs & Hp & Hr & Hi & Hd).
    + intros i j Hi Hj _.
      destruct Hi as [<-|[]]. destruct Hj as [<-|[]]. reflexivity.
    + repeat split; try assumption. exact (Hd _ Hinv).
  - exists r3, w3. split; [exact Hmissing|].
    destruct (proj1 (deleteEvent_guard _ _ _ Hmissing)) as (_ & He & Hw).
    + vm_compute. reflexivity.
    + split; assumption.
Defined.

(** ** Listing: the pagination metadata *)

(** [Math.ceil(a / b)] is the least number of pages of [b] rows that hold
    [a] rows. *)
Lemma ceilDiv_spec : forall a b,
  0 < b -> (ceilDiv a b - 1) * b < a <= ceilDiv a b * b.
Proof.
  intros a b Hb. unfold ceilDiv.
  set (x := (inject_Z a / inject_Z b)%Q).
  assert (Hb' : (inject_Z 0 < inject_Z b)%Q) by (rewrite <- Zlt_Qlt; exact Hb).
  assert (Hx : (x * inject_Z b == inject_Z a)%Q).
  { unfold x. rewrite Qmult_comm. apply Qmult_div_r.
    intro E. rewrite E in Hb'. now apply Qlt_irrefl in Hb'. }
  split.
  - pose proof (Qceiling_lt x) as Hlt.
    apply (Qmult_lt_compat_r _ _ (inject_Z b) Hb') in Hlt.
    rewrite Hx, <- inject_Z_mult, <- Zlt_Qlt in Hlt. exact Hlt.
  - pose proof (Qle_ceiling x) as Hle.
    apply (Qmult_le_compat_r _ _ (inject_Z b)) in Hle; [|now apply Qlt_le_weak].
    rewrite Hx, <- inject_Z_mult, <- Zle_Qle in Hle. exact Hle.
Qed.

Section Listing.

Variable parseAndValidateId : Field Z -> string -> option Z.
Variable validatePagination : Z -> Z -> PaginationCheck.
Variable orderRows : string -> string -> list Event -> list Event.
Variable containsInsensitive : string -> string -> bool.

Local Abbreviation list_events :=
  (getAllEvents parseAndValidateId validatePagination orderRows containsInsensitive).

Local Abbreviation checked f :=
  (validatePagination (NumberF (withDefault (page f) 1))
     (NumberF (withDefault (limit f) 20))).

(** The data of a listing that goes through. *)
Lemma getAllEvents_listing : forall f w r,
  list_events f w = r ->
  isValid r = true ->
  let vp := checked f in
  let orderBy := buildSortOrder (withDefault (sortBy f) "date_create")
                   (withDefault (sortOrder f) "asc") in
  let selected := selectedEvents parseAndValidateId containsInsensitive f (db w) in
  let total := Z.of_nat (List.length selected) in
  data r
  = ListData
      (map (fun event =>
              (event,
               if includeEventServices f
               then List.length (servicesOf (db w) (event_id event)) else 0%nat))
         (firstn (Z.to_nat (validLimit vp))
            (skipn (Z.to_nat ((validPage vp - 1) * validLimit vp))
               (orderRows (fst orderBy) (snd orderBy) selected))))
      (mkPagination (validPage vp) (validLimit vp) total
         (ceilDiv total (validLimit vp))
         (validPage vp <? ceilDiv total (validLimit vp))
         (1 <? validPage vp)).
Proof.
  intros f w r Hrun Hok vp orderBy selected total.
  unfold getAllEvents in Hrun. fold vp in Hrun.
  destruct (0 <? _)%nat; [subst r; discriminate|].
  unfold selected, total, selectedEvents, clauseOf, statusClauseOf in *.
  unfold getAllEventsQuery, bind, idClause, statusClause, statusOf, bind, ret, throw,
    getStore in Hrun.
  destruct (truthyZ (f_account_id f));
    [destruct (parseAndValidateId (f_account_id f) "Account ID");
       [|subst r; discriminate]|];
    (destruct (truthyZ (f_room_id f));
       [destruct (parseAndValidateId (f_room_id f) "Room ID");
          [|subst r; discriminate]|]);
    (destruct (truthyZ (f_event_type_id f));
       [destruct (parseAndValidateId (f_event_type_id f) "Event Type ID");
          [|subst r; discriminate]|]);
    (destruct (truthyS (f_status f));
       [destruct (status_of_string (strOf (f_status f)));
          [|subst r; discriminate]|]);
    subst r; reflexivity.
Qed.

(** A listing that goes through parsed every id and the status it was
    asked for. *)
Lemma getAllEvents_parsed : forall f w r,
  list_events f w = r ->
  isValid r = true ->
  (truthyZ (f_account_id f) = true ->
   parseAndValidateId (f_account_id f) "Account ID" <> None)
  /\ (truthyZ (f_room_id f) = true ->
      parseAndValidateId (f_room_id f) "Room ID" <> None)
  /\ (truthyZ (f_event_type_id f) = true ->
      parseAndValidateId (f_event_type_id f) "Event Type ID" <> None)
  /\ (truthyS (f_status f) = true -> status_of_string (strOf (f_status f)) <> None).
Proof.
  intros f w r Hrun Hok. unfold getAllEvents in Hrun.
  destruct (0 <? _)%nat; [subst r; discriminate|].
  unfold getAllEventsQuery, bind, idClause, statusClause, statusOf, bind, ret, throw,
    getStore in Hrun.
  destruct (truthyZ (f_account_id f));
    [destruct (parseAndValidateId (f_account_id f) "Account ID");
       [|subst r; discriminate]|];
    (destruct (truthyZ (f_room_id f));
       [destruct (parseAndValidateId (f_room_id f) "Room ID");
          [|subst r; discriminate]|]);
    (destruct (truthyZ (f_event_type_id f));
       [destruct (parseAndValidateId (f_event_type_id f) "Event Type ID");
          [|subst r; discriminate]|]);
    (destruct (truthyS (f_status f));
       [destruct (status_of_string (strOf (f_status f)));
          [|subst r; discriminate]|]);
    repeat split; intro; discriminate.
Qed.

(** A clause of the [where] on an id that parses selects the rows the
    filter holds of. *)
Lemma optMatches_idFilter : forall x label column,
  (truthyZ x = true -> parseAndValidateId x label <> None) ->
  optMatches (clauseOf parseAndValidateId x label) column
  = idFilterHolds parseAndValidateId x label column.
Proof.
  intros x label column Hp. unfold clauseOf, idFilterHolds, optMatches, opt_eqb.
  destruct x as [| |n]; simpl in *; try reflexivity.
  destruct (n =? 0); simpl in *; [reflexivity|].
  destruct (parseAndValidateId (Val n) label) as [k|]; [|exfalso; now apply Hp].
  destruct column; reflexivity.
Qed.

(** The [where] clause of a listing that goes through selects the events
    that match the request. *)
Lemma matchesWhere_request : forall f e,
  (truthyZ (f_account_id f) = true ->
   parseAndValidateId (f_account_id f) "Account ID" <> None) ->
  (truthyZ (f_room_id f) = true ->
   parseAndValidateId (f_room_id f) "Room ID" <> None) ->
  (truthyZ (f_event_type_id f) = true ->
   parseAndValidateId (f_event_type_id f) "Event Type ID" <> None) ->
  (truthyS (f_status f) = true -> status_of_string (strOf (f_status f)) <> None) ->
  matchesWhere containsInsensitive f
    (clauseOf parseAndValidateId (f_account_id f) "Account ID")
    (clauseOf parseAndValidateId (f_room_id f) "Room ID")
    (clauseOf parseAndValidateId (f_event_type_id f) "Event Type ID")
    (statusClauseOf f) e
  = matchesRequest parseAndValidateId containsInsensitive f e.
Proof.
  intros f e Ha Hr Ht Hs. unfold matchesWhere, matchesRequest.
  rewrite !optMatches_idFilter by assumption.
  assert (Hst : match statusClauseOf f with
                | Some v => EventStatus_eqb (status e) v
                | None => true
                end
                = match f_status f with
                  | Val st =>
                      if (st =? EmptyString)%string then true
                      else match status_of_string st with
                           | Some v => EventStatus_eqb (status e) v
                           | None => false
                           end
                  | _ => true
                  end).
  { unfold statusClauseOf, truthyS, strOf in *.
    destruct (f_status f) as [| |st]; simpl in *; try reflexivity.
    destruct (st =? EmptyString)%string; simpl in *; [reflexivity|].
    destruct (status_of_string st); [reflexivity | exfalso; now apply Hs]. }
  rewrite Hst. clear Hst.
  destruct (search f) as [| |text]; try reflexivity.
  destruct text as [|c text]; [reflexivity|].
  unfold truthyS, strOf. cbn [String.eqb negb andb].
  destruct (dateMin f); destruct (dateMax f); destruct (start_time e);
    try reflexivity.
  all: destruct (trim (String c text) =? EmptyString)%string; reflexivity.
Qed.

(** C10. A successful listing with validated page [p] and limit [l >= 1]
    returns at most [l] events, reports as [totalCount] the number of stored
    events that match the filters of the request, and reports [totalPages] as
    the ceiling of [totalCount / l], a next page exactly when
    [p < totalPages] and a previous page exactly when [p > 1]. *)
Theorem getAllEvents_pagination : forall filters w r,
  getAllEvents parseAndValidateId validatePagination orderRows containsInsensitive
    filters w = r ->
  isValid r = true ->
  let vp := validatePagination (NumberF (withDefault (page filters) 1))
              (NumberF (withDefault (limit filters) 20)) in
  1 <= validLimit vp ->
  exists evs pg,
    data r = ListData evs pg
    /\ Z.of_nat (List.length evs) <= validLimit vp
    /\ pg_page pg = validPage vp
    /\ pg_limit pg = validLimit vp
    /\ totalCount pg
       = Z.of_nat (List.length (matchingEvents parseAndValidateId containsInsensitive
                                  filters (db w)))
    /\ (totalPages pg - 1) * validLimit vp < totalCount pg <= totalPages pg * validLimit vp
    /\ (hasNextPage pg = true <-> validPage vp < totalPages pg)
    /\ (hasPreviousPage pg = true <-> validPage vp > 1).
Proof.
  intros filters w r Hrun Hok vp Hl.
  pose proof (getAllEvents_listing _ _ Hrun Hok) as Hdata. cbv zeta in Hdata.
  destruct (getAllEvents_parsed _ _ Hrun Hok) as (Ha & Hr & Ht & Hs).
  assert (Hsel : selectedEvents parseAndValidateId containsInsensitive filters (db w)
                 = matchingEvents parseAndValidateId containsInsensitive filters (db w)).
  { unfold selectedEvents, matchingEvents. apply filter_ext. intro e.
    now apply matchesWhere_request. }
  rewrite Hsel in Hdata. fold vp in Hdata.
  eexists. eexists. split; [exact Hdata|]. cbn [totalCount totalPages hasNextPage
    hasPreviousPage pg_page pg_limit].
  split; [rewrite length_map; etransitivity; [apply inj_le, firstn_le_length | lia]|].
  split; [reflexivity|]. split; [reflexivity|]. split; [reflexivity|].
  split; [apply ceilDiv_spec; lia|].
  split; [apply Z.ltb_lt | rewrite Z.ltb_lt; lia].
Qed.

End Listing.

(** The run of the request for the CONFIRMED events over the two
    bookings, of which the launch is CONFIRMED. *)
Lemma confirmed_page_run :
  exists r,
    getAllEventsRef confirmedOnly twoToggled = r
    /\ isValid r = true
    /\ List.length (events (db twoToggled)) = 2%nat
    /\ List.length (matchingEvents parseAndValidateIdRef containsInsensitiveRef
                      confirmedOnly (db twoToggled)) = 1%nat.
Proof.
  eexists. split; [reflexivity|]. split; [vm_compute; reflexivity|].
  split; vm_compute; reflexivity.
Qed.

(** Of the two stored bookings one matches the request for the CONFIRMED
    events: page 1 with the default limit of 20 counts 1 event, on one page,
    with no neighbour. *)
Lemma getAllEvents_pagination_witness :
  exists r evs pg,
    getAllEventsRef confirmedOnly twoToggled = r
    /\ data r = ListData evs pg
    /\ Z.of_nat (List.length evs) <= 20
    /\ totalCount pg = 1
    /\ (totalPages pg - 1) * 20 < totalCount pg <= totalPages pg * 20
    /\ (hasNextPage pg = true <-> 1 < totalPages pg)
    /\ (hasPreviousPage pg = true <-> 1 > 1).
Proof.
  destruct confirmed_page_run as (r & Hrun & Hok & _ & Hone).
  assert (Hl : 1 <= 20) by discriminate.
  destruct (getAllEvents_pagination parseAndValidateIdRef validatePaginationRef
              orderRowsRef containsInsensitiveRef _ _ Hrun Hok Hl)
    as (evs & pg & Hd & Hn & _ & _ & Hc & Hp & Hnext & Hprev).
  change (Z.of_nat (List.length evs) <= 20) in Hn.
  change ((totalPages pg - 1) * 20 < totalCount pg <= totalPages pg * 20) in Hp.
  change (hasNextPage pg = true <-> 1 < totalPages pg) in Hnext.
  change (hasPreviousPage pg = true <-> 1 > 1) in Hprev.
  exists r, evs, pg.
  split; [exact Hrun|]. split; [exact Hd|]. split; [exact Hn|].
  split; [rewrite Hc, Hone; reflexivity|].
  split; [exact Hp|]. split; [exact Hnext | exact Hprev].
Defined.

(** ** Availability: what a positive answer means *)

(** A check is positive exactly when its arguments are given, the variation
    is found and active, and no CONFIRMED booking of it overlaps. *)
Lemma checkVariationAvailability_valid : forall tx vid start dur,
  isValid (checkVariationAvailability (Val vid) (Val start) (Val dur) tx) = true <->
  vid <> 0 /\ dur <> 0
  /\ (exists v, findVariation tx vid = Some v /\ v_is_active v = true)
  /\ filter (specConflictWith vid start (start + dur * MS_PER_HOUR)) (eventServices tx) = [].
Proof.
  intros tx vid start dur. split.
  - intro H.
    destruct (Z.eq_dec vid 0) as [->|Hv]; [discriminate H|].
    destruct (Z.eq_dec dur 0) as [->|Hd].
    { unfold checkVariationAvailability in H. simpl in H.
      destruct (vid =? 0); discriminate H. }
    destruct (findVariation tx vid) as [v|] eqn:Hf.
    2:{ unfold checkVariationAvailability in H. simpl in H.
        apply Z.eqb_neq in Hv, Hd. rewrite Hv, Hd, Hf in H. discriminate H. }
    destruct (v_is_active v) eqn:Ha.
    2:{ unfold checkVariationAvailability in H. simpl in H.
        apply Z.eqb_neq in Hv, Hd. rewrite Hv, Hd, Hf, Ha in H. discriminate H. }
    rewrite (@answer_unfold tx vid start dur v Hv Hd Hf Ha) in H. simpl in H.
    repeat split; try assumption; [exists v; split; [reflexivity | exact Ha]|].
    destruct (filter _ (eventServices tx)); [reflexivity | discriminate H].
  - intros (Hv & Hd & (v & Hf & Ha) & Hnone).
    rewrite (@answer_unfold tx vid start dur v Hv Hd Hf Ha). simpl. rewrite Hnone. reflexivity.
Qed.

(** X1. If a window is free for a variation, every window inside it (with
    a non-zero duration) is free as well. *)
Theorem checkVariationAvailability_subwindow : forall tx vid start dur start' dur',
  dur' <> 0 ->
  start <= start' ->
  start' + dur' * MS_PER_HOUR <= start + dur * MS_PER_HOUR ->
  isValid (checkVariationAvailability (Val vid) (Val start) (Val dur) tx) = true ->
  isValid (checkVariationAvailability (Val vid) (Val start') (Val dur') tx) = true.
Proof.
  intros tx vid start dur start' dur' Hd' Hs He H.
  apply checkVariationAvailability_valid in H as (Hv & _ & Hvar & Hnone).
  apply checkVariationAvailability_valid.
  split; [exact Hv|]. split; [exact Hd'|]. split; [exact Hvar|].
  apply filter_none, Forall_forall. intros ev Hin.
  destruct (specConflictWith vid start' (start' + dur' * MS_PER_HOUR) ev) eqn:Hc;
    [|reflexivity].
  exfalso.
  assert (Hbig : In ev (filter (specConflictWith vid start (start + dur * MS_PER_HOUR))
                          (eventServices tx))).
  { apply filter_In. split; [exact Hin|].
    unfold specConflictWith in *.
    destruct (es_variation_id ev) as [x|]; [|discriminate Hc].
    destruct (es_scheduled_time ev) as [cstart|]; [|discriminate Hc].
    apply andb_true_iff in Hc as [Hc H4]. apply andb_true_iff in Hc as [Hc H3].
    rewrite Hc. simpl. apply andb_true_iff. split; apply Z.ltb_lt.
    - apply Z.ltb_lt in H3. lia.
    - apply Z.ltb_lt in H4. lia. }
  rewrite Hnone in Hbig. exact Hbig.
Qed.

(** With the catering booked from 10:00 to 12:00, the window 12:00-15:00 is
    free, and so is 13:00-14:00 inside it. *)
Lemma checkVariationAvailability_subwindow_witness :
  isValid (checkVariationAvailability (Val 5) (Val (hour 13)) (Val 1) cateringBooked) = true.
Proof.
  apply (@checkVariationAvailability_subwindow cateringBooked 5 (hour 12) 3 (hour 13) 1).
  - discriminate.
  - discriminate.
  - discriminate.
  - vm_compute. reflexivity.
Defined.

Lemma filter_relevant_conflict : forall vid start e (l : list EventService),
  filter (specConflictWith vid start e) l
  = filter (specConflictWith vid start e) (filter (relevantRow vid) l).
Proof.
  intros vid start e l. rewrite filter_filter. apply filter_ext. intro ev.
  unfold relevantRow, specConflictWith, opt_eqb, isSome.
  destruct (es_variation_id ev); [|reflexivity].
  destruct (es_scheduled_time ev); [|now rewrite andb_false_r].
  destruct (_ =? vid); [|reflexivity].
  destruct (es_status ev =? "CONFIRMED")%string; reflexivity.
Qed.

(** X2. The answer of a check depends only on the variations and on the
    CONFIRMED, scheduled bookings of the variation asked about: bookings in
    any other status, of another variation or without a scheduled time never
    change it. *)
Theorem checkVariationAvailability_relevant_rows : forall tx tx' vid start dur,
  variations tx' = variations tx ->
  filter (relevantRow vid) (eventServices tx') = filter (relevantRow vid) (eventServices tx) ->
  checkVariationAvailability (Val vid) (Val start) (Val dur) tx'
  = checkVariationAvailability (Val vid) (Val start) (Val dur) tx.
Proof.
  intros tx tx' vid start dur Hvar Hrows.
  destruct (Z.eq_dec vid 0) as [->|Hv]; [reflexivity|].
  destruct (Z.eq_dec dur 0) as [->|Hd].
  { unfold checkVariationAvailability. simpl. destruct (vid =? 0); reflexivity. }
  assert (Hfind : findVariation tx' vid = findVariation tx vid)
    by (unfold findVariation; now rewrite Hvar).
  destruct (findVariation tx vid) as [v|] eqn:Hf.
  2:{ unfold checkVariationAvailability. simpl.
      apply Z.eqb_neq in Hv, Hd. now rewrite Hv, Hd, Hfind, Hf. }
  destruct (v_is_active v) eqn:Ha.
  2:{ unfold checkVariationAvailability. simpl.
      apply Z.eqb_neq in Hv, Hd. now rewrite Hv, Hd, Hfind, Hf, Ha. }
  rewrite (@answer_unfold tx vid start dur v Hv Hd Hf Ha).
  rewrite (@answer_unfold tx' vid start dur v Hv Hd Hfind Ha).
  rewrite (filter_relevant_conflict vid start _ (eventServices tx')), Hrows,
    <- filter_relevant_conflict.
  reflexivity.
Qed.

(** A cancelled booking of the catering over the same hours changes no
    answer. *)
Lemma checkVariationAvailability_relevant_rows_witness :
  checkVariationAvailability (Val 5) (Val (hour 11)) (Val 1) cateringCancelled
  = checkVariationAvailability (Val 5) (Val (hour 11)) (Val 1) cateringBooked.
Proof.
  apply checkVariationAvailability_relevant_rows; reflexivity.
Defined.

(** ** What [trim] strips *)

Lemma bytes_eqb_eq : forall a b, bytes_eqb a b = true <-> a = b.
Proof.
  induction a as [|x a IH]; intros [|y b]; simpl; split; intro H;
    try reflexivity; try discriminate.
  - apply andb_true_iff in H as [Hx Hr]. apply Ascii.eqb_eq in Hx.
    apply IH in Hr. now subst.
  - inversion H; subst. rewrite Ascii.eqb_refl. simpl. now apply IH.
Qed.

Lemma isWhite_In : forall table cp, isWhite table cp = true <-> In cp table.
Proof.
  intros table cp. unfold isWhite. rewrite existsb_exists. split.
  - intros (x & Hin & Hx). apply bytes_eqb_eq in Hx. now subst.
  - intro Hin. exists cp. split; [exact Hin | now apply bytes_eqb_eq].
Qed.

(** What [dropWhite] drops is a run of code points of the table. *)
Lemma dropWhite_split : forall table n l,
  (List.length l <= n)%nat ->
  exists cps,
    Forall (fun cp => In cp table) cps /\ l = List.concat cps ++ dropWhite table l.
Proof.
  intros table n. induction n as [|n IH]; intros l Hl.
  { destruct l; [|simpl in Hl; lia]. exists []. split; [constructor | reflexivity]. }
  destruct l as [|c1 r1]; [exists []; split; [constructor | reflexivity]|].
  simpl in Hl. cbn [dropWhite].
  destruct (isWhite table [c1]) eqn:E1.
  { destruct (IH r1) as (cps & Hf & Heq); [lia|].
    exists ([c1] :: cps). split; [constructor; [now apply isWhite_In | exact Hf]|].
    simpl. f_equal. exact Heq. }
  destruct r1 as [|c2 r2]; [exists []; split; [constructor | reflexivity]|].
  simpl in Hl.
  destruct (isWhite table [c1; c2]) eqn:E2.
  { destruct (IH r2) as (cps & Hf & Heq); [lia|].
    exists ([c1; c2] :: cps). split; [constructor; [now apply isWhite_In | exact Hf]|].
    simpl. do 2 f_equal. exact Heq. }
  destruct r2 as [|c3 r3]; [exists []; split; [constructor | reflexivity]|].
  simpl in Hl.
  destruct (isWhite table [c1; c2; c3]) eqn:E3.
  { destruct (IH r3) as (cps & Hf & Heq); [lia|].
    exists ([c1; c2; c3] :: cps).
    split; [constructor; [now apply isWhite_In | exact Hf]|].
    simpl. do 3 f_equal. exact Heq. }
  exists []. split; [constructor | reflexivity].
Qed.

(** What [dropWhite] leaves starts with no code point of the table. *)
Lemma dropWhite_clean : forall table,
  (forall cp, In cp table -> (1 <= List.length cp <= 3)%nat) ->
  forall n l, (List.length l <= n)%nat ->
  forall cp rest, In cp table -> dropWhite table l <> cp ++ rest.
Proof.
  intros table Hsize n. induction n as [|n IH]; intros l Hl cp rest Hin.
  { destruct l; [|simpl in Hl; lia]. simpl. specialize (Hsize cp Hin).
    destruct cp; [simpl in Hsize; lia | discriminate]. }
  pose proof (Hsize cp Hin) as Hcp.
  destruct l as [|c1 r1]; [destruct cp; [simpl in Hcp; lia | discriminate]|].
  simpl in Hl. cbn [dropWhite].
  destruct (isWhite table [c1]) eqn:E1; [apply IH; [lia | exact Hin]|].
  assert (H1 : cp <> [c1]).
  { intros ->. apply isWhite_In in Hin. congruence. }
  destruct r1 as [|c2 r2].
  { intro H. destruct cp as [|a [|b cp]]; [simpl in Hcp; lia| |discriminate].
    inversion H; subst. now apply H1. }
  simpl in Hl.
  destruct (isWhite table [c1; c2]) eqn:E2; [apply IH; [lia | exact Hin]|].
  assert (H2 : cp <> [c1; c2]).
  { intros ->. apply isWhite_In in Hin. congruence. }
  destruct r2 as [|c3 r3].
  { intro H. destruct cp as [|a [|b [|c cp]]]; [simpl in Hcp; lia| | |discriminate].
    - inversion H; subst. now apply H1.
    - inversion H; subst. now apply H2. }
  simpl in Hl.
  destruct (isWhite table [c1; c2; c3]) eqn:E3; [apply IH; [lia | exact Hin]|].
  intro H. destruct cp as [|a [|b [|c [|x cp]]]]; [simpl in Hcp; lia| | | |simpl in Hcp; lia].
  - inversion H; subst. now apply H1.
  - inversion H; subst. now apply H2.
  - inversion H; subst. apply isWhite_In in Hin. congruence.
Qed.

Lemma whiteSpace_sizes : forall cp,
  In cp whiteSpace -> (1 <= List.length cp <= 3)%nat.
Proof.
  intros cp Hin. unfold whiteSpace in Hin. simpl in Hin.
  repeat (destruct Hin as [<-|Hin]; [simpl; lia|]). contradiction.
Qed.

Lemma rev_concat_runs : forall (cps : list (list ascii)),
  rev (List.concat cps) = List.concat (map (@rev ascii) (rev cps)).
Proof.
  induction cps as [|cp cps IH]; [reflexivity|].
  simpl. rewrite rev_app_distr, IH, map_app, concat_app. simpl.
  now rewrite app_nil_r.
Qed.

(** [trim] strips the white space around a string and nothing else. *)
Lemma trim_trimmedFrom : forall s, trimmedFrom s (trim s).
Proof.
  intro s. unfold trimmedFrom, trim, trimEnd, trimStart.
  rewrite !list_ascii_of_string_of_list_ascii.
  set (t := dropWhite whiteSpace (list_ascii_of_string s)).
  set (table' := map (@rev ascii) whiteSpace).
  assert (Hsize' : forall cp, In cp table' -> (1 <= List.length cp <= 3)%nat).
  { intros cp Hin. apply in_map_iff in Hin as (cp0 & <- & Hin).
    rewrite length_rev. now apply whiteSpace_sizes. }
  destruct (@dropWhite_split whiteSpace _ (list_ascii_of_string s) (le_n _))
    as (cps1 & Hf1 & Hs). fold t in Hs.
  destruct (@dropWhite_split table' _ (rev t) (le_n _)) as (cps2 & Hf2 & Ht).
  assert (Ht' : t = rev (dropWhite table' (rev t))
                    ++ List.concat (map (@rev ascii) (rev cps2))).
  { rewrite <- rev_concat_runs, <- rev_app_distr, <- Ht. now rewrite rev_involutive. }
  exists (List.concat cps1), (List.concat (map (@rev ascii) (rev cps2))).
  split; [rewrite <- Ht'; exact Hs|].
  split; [exists cps1; split; [exact Hf1 | reflexivity]|].
  split.
  { exists (map (@rev ascii) (rev cps2)). split; [|reflexivity].
    apply Forall_forall. intros cp Hin. apply in_map_iff in Hin as (cp2 & <- & Hin).
    apply in_rev in Hin. rewrite Forall_forall in Hf2. apply Hf2 in Hin.
    apply in_map_iff in Hin as (cp0 & <- & Hin). now rewrite rev_involutive. }
  split.
  - intros cp rest Hin Hu.
    apply (@dropWhite_clean whiteSpace whiteSpace_sizes _ (list_ascii_of_string s)
             (le_n _) cp (rest ++ List.concat (map (@rev ascii) (rev cps2))) Hin).
    fold t. rewrite Ht', Hu. now rewrite app_assoc.
  - intros cp rest Hin Hu.
    apply (@dropWhite_clean table' Hsize' _ (rev t) (le_n _) (rev cp) (rev rest)).
    + unfold table'. now apply in_map.
    + rewrite <- rev_app_distr, <- Hu. now rewrite rev_involutive.
Qed.

(** ** Creation: what is checked and what is written *)

Lemma bind_Next : forall (A B : Type) (m : Tx A) (k : A -> Tx B) w b w2,
  bind m k w = Next b w2 ->
  exists a w1, m w = Next a w1 /\ k a w1 = Next b w2.
Proof.
  intros A B m k w b w2 H. unfold bind in H.
  destruct (m w) as [a w1| |]; try discriminate. now exists a, w1.
Qed.

Lemma wp_Next : forall (A : Type) (m : Tx A) w Q R a w',
  wp m w Q R -> m w = Next a w' -> Q a w'.
Proof. intros A m w Q R a w' H E. unfold wp in H. now rewrite E in H. Qed.

Lemma checkAccount_passed : forall d w w',
  checkAccount d w = Next tt w' ->
  truthyZ (d_account_id d) = true -> In (NumberF (d_account_id d)) (accounts (db w)).
Proof.
  intros d w w' H Ht. unfold checkAccount, when, bind, getStore, ret, returnResult in H.
  rewrite Ht in H.
  destruct (existsb _ _) eqn:E; [|discriminate].
  apply existsb_exists in E as (x & Hin & Hx). apply Z.eqb_eq in Hx. now subst x.
Qed.

Lemma checkEventType_passed : forall d w w',
  checkEventType d w = Next tt w' ->
  truthyZ (d_event_type_id d) = true ->
  exists t, findEventType (db w) (NumberF (d_event_type_id d)) = Some t
            /\ t_is_active t = true.
Proof.
  intros d w w' H Ht. unfold checkEventType, when, bind, getStore, ret, returnResult in H.
  rewrite Ht in H.
  destruct (findEventType _ _) as [t|]; [|discriminate].
  destruct (t_is_active t) eqn:E; [|discriminate]. now exists t.
Qed.

Section CreationChecks.

Variable validateString : Field string -> string -> StringOptions -> list string.
Variable validateNumber : Field Z -> string -> Z -> list string.
Variable validateDateRange : Field Z -> Field Z -> string -> list string.
Variable parseAndValidateId : Field Z -> string -> option Z.
Variable NAME_MIN NAME_MAX DESCRIPTION_MAX : Z.
Variable validateEventServiceData : ServiceData -> list string.
Variable checkRoomAvailability :
  Z -> Field Z -> Field Z -> option Z -> Store -> RoomAvailability.
Variable tzOffset : Z.

Local Abbreviation createWith notifier :=
  (createEvent validateString validateNumber validateDateRange parseAndValidateId
     NAME_MIN NAME_MAX DESCRIPTION_MAX validateEventServiceData checkRoomAvailability
     notifier tzOffset).
Local Abbreviation writes :=
  (createEventWrites validateEventServiceData checkRoomAvailability tzOffset).

Lemma checkRoomWindow_passed : forall rid d exclude w w',
  checkRoomWindow checkRoomAvailability rid d exclude w = Next tt w' ->
  truthyD (d_start_time d) && truthyZ (d_duration_hours d) = true ->
  ra_isValid (checkRoomAvailability rid (d_start_time d) (d_duration_hours d) exclude (db w))
  = true
  /\ ra_isAvailable
       (checkRoomAvailability rid (d_start_time d) (d_duration_hours d) exclude (db w))
     = true.
Proof.
  intros rid d exclude w w' H Ht.
  unfold checkRoomWindow, when, bind, getStore, ret, returnResult in H. rewrite Ht in H.
  destruct (ra_isValid _); [|discriminate].
  destruct (ra_isAvailable _); [|discriminate]. split; reflexivity.
Qed.

Lemma createRoomStep_passed : forall d c w c' w',
  createRoomStep checkRoomAvailability d c w = Next c' w' ->
  truthyZ (d_room_id d) = true ->
  roomAccepted checkRoomAvailability (db w) d (NumberF (d_room_id d)) None.
Proof.
  intros d c w c' w' H Ht. unfold createRoomStep in H. rewrite Ht in H.
  apply bind_Next in H as (s & w1 & Hs & H). inversion Hs; subst s w1. clear Hs.
  destruct (findRoom (db w) (NumberF (d_room_id d))) as [room|] eqn:Hf; [|discriminate].
  destruct (r_is_active room) eqn:Ha; [|discriminate].
  destruct (r_status room =? "AVAILABLE")%string eqn:Hst; [|discriminate].
  simpl in H. apply bind_Next in H as ([] & w1 & Hwin & _).
  exists room. split; [exact Hf|]. split; [exact Ha|].
  split; [now apply String.eqb_eq|].
  exact (checkRoomWindow_passed _ _ _ _ Hwin).
Qed.

Lemma serviceCosts_passed : forall services c w c' w',
  serviceCosts validateEventServiceData services c w = Next c' w' ->
  Forall (lineAccepted validateEventServiceData (db w)) services.
Proof.
  induction services as [|service rest IH]; intros c w c' w' H; [constructor|].
  simpl in H.
  destruct (validateEventServiceData service) as [|err errs] eqn:Hval; [|discriminate].
  simpl in H. apply bind_Next in H as ([] & w1 & Hcheck & H).
  assert (Hw1 : w1 = w /\
                (truthyZ (sd_variation_id service) && truthyD (sd_scheduled_time service)
                 && truthyZ (sd_duration_hours service) = true ->
                 isValid (checkVariationAvailability (sd_variation_id service)
                            (sd_scheduled_time service) (sd_duration_hours service) (db w))
                 = true)).
  { unfold when, bind, getStore, ret, returnResult in Hcheck.
    destruct (_ && _).
    - destruct (isValid _) eqn:E; simpl in Hcheck; [|discriminate].
      injection Hcheck as Hw. split; [symmetry; exact Hw | intros _; reflexivity].
    - injection Hcheck as Hw. split; [symmetry; exact Hw | discriminate]. }
  destruct Hw1 as [-> Hav].
  apply bind_Next in H as (s & w2 & Hs & H). inversion Hs; subst s w2.
  constructor; [split; assumption | exact (IH _ _ _ _ H)].
Qed.

(** The steps of the writes of a creation that fell through. *)
Lemma createEventWrites_steps : forall d now w e w3,
  writes d now w = Next e w3 ->
  exists c1 c2 w1 w2,
    checkAccount d w = Next tt w
    /\ createRoomStep checkRoomAvailability d (orF (d_estimated_cost d) 0) w = Next c1 w
    /\ checkEventType d w = Next tt w
    /\ serviceCosts validateEventServiceData (d_event_services d) c1 w = Next c2 w
    /\ insertEvent tzOffset d c2 now w = Next e w1
    /\ createEventServices (event_id e) (d_event_services d) w1 = Next tt w2
    /\ createInvoice d e c2 now w2 = Next tt w3.
Proof.
  intros d now w e w3 H. unfold createEventWrites in H.
  apply bind_Next in H as ([] & wa & Ha & H).
  pose proof (@wp_Next _ _ _ _ _ _ _ (checkAccount_wp d w) Ha) as Hwa. simpl in Hwa. subst wa.
  apply bind_Next in H as (c1 & wb & Hb & H).
  pose proof (@wp_Next _ _ _ _ _ _ _ (createRoomStep_wp checkRoomAvailability d _ w) Hb) as [Hwb _].
  subst wb.
  apply bind_Next in H as ([] & wc & Hc & H).
  pose proof (@wp_Next _ _ _ _ _ _ _ (checkEventType_wp d w) Hc) as Hwc. simpl in Hwc. subst wc.
  apply bind_Next in H as (c2 & wd & Hd & H).
  pose proof (@wp_Next _ _ _ _ _ _ _ (serviceCosts_wp validateEventServiceData _ _ w) Hd) as [Hwd _].
  subst wd.
  apply bind_Next in H as (e0 & w1 & He & H).
  apply bind_Next in H as ([] & w2 & Hf & H).
  apply bind_Next in H as ([] & w3' & Hg & H).
  inversion H; subst e0 w3'.
  exists c1, c2, w1, w2. repeat split; assumption.
Qed.

Lemma validation_passed : forall (l : list string),
  (0 <? List.length l)%nat = false -> l = [].
Proof. intros [|x l] H; [reflexivity | discriminate]. Qed.

(** X3. A creation that succeeds passed every check against the database as
    it was before the call: the payload validated, its account exists, its
    room is found, active, AVAILABLE and clear over the window, its event type
    is found and active, and every service line validated and, when
    scheduled, found its variation free. *)
Theorem createEvent_success_checked : forall notifier d now w r w',
  createWith notifier d now w = (r, w') ->
  isValid r = true ->
  validateEventData validateString validateNumber validateDateRange parseAndValidateId
    NAME_MIN NAME_MAX DESCRIPTION_MAX d = []
  /\ bookingAccepted validateEventServiceData checkRoomAvailability (db w) d.
Proof.
  intros notifier d now w r w' Hrun Hok.
  edestruct createEvent_success as (e & w1 & Hw & _); [exact Hrun | exact Hok |].
  split.
  - unfold createEvent in Hrun.
    destruct (0 <? _)%nat eqn:E; [inversion Hrun; subst; discriminate|].
    now apply validation_passed.
  - destruct (createEventWrites_steps _ _ _ Hw)
      as (c1 & c2 & wa & wb & Ha & Hb & Hc & Hd & _).
    split; [exact (checkAccount_passed _ _ Ha)|].
    split; [exact (createRoomStep_passed _ _ _ Hb)|].
    split; [exact (checkEventType_passed _ _ Hc)|].
    exact (serviceCosts_passed _ _ _ Hd).
Qed.

End CreationChecks.

(** The scenario succeeds: account 7, the hall and the catering line were
    all good in the empty venue. *)
Lemma createEvent_success_checked_witness :
  bookingAccepted validateEventServiceDataRef checkRoomAvailabilityRef (db venue) scenario.
Proof.
  exact (proj2 (createEvent_success_checked
                  validateStringRef validateNumberRef validateDateRangeRef
                  parseAndValidateIdRef 3 1024 1000 validateEventServiceDataRef
                  checkRoomAvailabilityRef 0 notifierUp scenario 1000 venue
                  scenario_booked eq_refl)).
Defined.

(** *** Atomicity and effects *)

Lemma serviceRows_length : forall eid k services,
  List.length (serviceRows eid k services) = List.length services.
Proof.
  intros eid k services. revert k.
  induction services as [|x l IH]; intro k; simpl; [reflexivity|].
  f_equal. apply IH.
Qed.

Section CreationEffects.

Variable validateString : Field string -> string -> StringOptions -> list string.
Variable validateNumber : Field Z -> string -> Z -> list string.
Variable validateDateRange : Field Z -> Field Z -> string -> list string.
Variable parseAndValidateId : Field Z -> string -> option Z.
Variable NAME_MIN NAME_MAX DESCRIPTION_MAX : Z.
Variable validateEventServiceData : ServiceData -> list string.
Variable checkRoomAvailability :
  Z -> Field Z -> Field Z -> option Z -> Store -> RoomAvailability.
Variable tzOffset : Z.

Local Abbreviation createWith notifier :=
  (createEvent validateString validateNumber validateDateRange parseAndValidateId
     NAME_MIN NAME_MAX DESCRIPTION_MAX validateEventServiceData checkRoomAvailability
     notifier tzOffset).
Local Abbreviation writes :=
  (createEventWrites validateEventServiceData checkRoomAvailability tzOffset).

Lemma notifyBooking_wp : forall notifier e w,
  wp (notifyBooking notifier e) w (fun _ w' => db w' = db w) never.
Proof.
  intros notifier e w. unfold wp, notifyBooking, when, notify, ret.
  destruct (account_id e) as [aid|]; [|reflexivity].
  destruct (negb (aid =? 0)); [|reflexivity].
  destruct (notifier _); [exact I | reflexivity].
Qed.

Lemma createEventTx_wp : forall notifier d now w,
  wp (createEventTx validateEventServiceData checkRoomAvailability notifier tzOffset
        d now) w
     (fun r _ => isValid r = true) (refused w).
Proof.
  intros notifier d now w. unfold createEventTx.
  apply wp_bind. eapply wp_conseq; [apply createEventWrites_wp | | auto].
  intros e w1 _. apply wp_bind.
  eapply wp_conseq; [apply notifyBooking_wp | | intros ? ? []].
  intros u w2 _. reflexivity.
Qed.

(** A creation ends in one of two ways: refused with nothing written, or
    accepted. *)
Lemma createEvent_outcome : forall notifier d now w r w',
  createWith notifier d now w = (r, w') ->
  (isValid r = false /\ w' = w) \/ isValid r = true.
Proof.
  intros notifier d now w r w' Hrun. unfold createEvent in Hrun.
  destruct (0 <? _)%nat; [inversion Hrun; subst; left; split; reflexivity|].
  unfold transaction in Hrun.
  pose proof (createEventTx_wp notifier d now w) as Hwp. unfold wp in Hwp.
  destruct (createEventTx _ _ _ _ d now w) as [r0 w0|r0 w0|msg];
    inversion Hrun; subst.
  - right. exact Hwp.
  - left. exact Hwp.
  - left. split; reflexivity.
Qed.

(** X4. A creation that does not succeed writes nothing: the database and
    what the notifier received are as before the call, whether the payload
    failed validation, a reference was refused or an error was thrown in the
    transaction. *)
Theorem createEvent_atomic : forall notifier d now w r w',
  createEvent validateString validateNumber validateDateRange parseAndValidateId
    NAME_MIN NAME_MAX DESCRIPTION_MAX validateEventServiceData checkRoomAvailability
    notifier tzOffset d now w = (r, w') ->
  isValid r = false ->
  w' = w.
Proof.
  intros notifier d now w r w' Hrun Hbad.
  destruct (createEvent_outcome _ _ _ _ Hrun) as [[_ Hw]|Hok]; [exact Hw | congruence].
Qed.

(** X5. A successful creation appends one event under the next key, one
    row per supplied service line, and at most one notification, sent exactly
    when the event has an account; no stored event or service row is changed
    or removed. *)
Theorem createEvent_appends : forall notifier d now w r w',
  createWith notifier d now w = (r, w') ->
  isValid r = true ->
  exists e,
    data r = EventData_ e 0
    /\ event_id e = next_event_id (db w)
    /\ events (db w') = events (db w) ++ [e]
    /\ eventServices (db w')
       = eventServices (db w)
         ++ serviceRows (event_id e) (next_event_service_id (db w)) (d_event_services d)
    /\ List.length (eventServices (db w'))
       = (List.length (eventServices (db w)) + List.length (d_event_services d))%nat
    /\ outbox w'
       = outbox w
         ++ match numOrNull (d_account_id d) with
            | Some aid => [bookingNotification e aid]
            | None => []
            end.
Proof.
  intros notifier d now w r w' Hrun Hok.
  edestruct createEvent_success as (e & w1 & Hw & Hr & Hdb & Hout);
    [exact Hrun | exact Hok |].
  pose proof (@wp_Next _ _ _ _ _ _ _ (createEventWrites_wp validateEventServiceData
                checkRoomAvailability tzOffset d now w) Hw)
    as (_ & Hid & Hacc & Hev & Hes & Hob & _).
  exists e. subst r. split; [reflexivity|]. split; [exact Hid|].
  rewrite Hdb. split; [exact Hev|]. split; [exact Hes|]. split.
  - now rewrite Hes, length_app, serviceRows_length.
  - rewrite Hout, Hob, Hacc. reflexivity.
Qed.

(** X6. A successful creation writes an invoice exactly when the cost is
    positive: for a cost of 0 or less the invoices and their lines are
    untouched; otherwise one invoice is appended, for the new event, whose
    total is the estimated cost stored on the event. *)
Theorem createEvent_invoice_iff_cost : forall notifier d now w r w' e n,
  createEvent validateString validateNumber validateDateRange parseAndValidateId
    NAME_MIN NAME_MAX DESCRIPTION_MAX validateEventServiceData checkRoomAvailability
    notifier tzOffset d now w = (r, w') ->
  isValid r = true ->
  data r = EventData_ e n ->
  (estimated_cost e <= 0 ->
   invoices (db w') = invoices (db w) /\ invoiceDetails (db w') = invoiceDetails (db w))
  /\ (0 < estimated_cost e ->
      exists invoice,
        invoices (db w') = invoices (db w) ++ [invoice]
        /\ total_amount invoice = estimated_cost e
        /\ inv_event_id invoice = event_id e
        /\ invoice_id invoice = next_invoice_id (db w)).
Proof.
  intros notifier d now w r w' e n Hrun Hok Hdata.
  edestruct createEvent_success as (e0 & w1 & Hw & Hr & Hdb & _);
    [exact Hrun | exact Hok |].
  subst r. simpl in Hdata. inversion Hdata; subst e0 n. clear Hdata.
  pose proof (@wp_Next _ _ _ _ _ _ _ (createEventWrites_wp validateEventServiceData
                checkRoomAvailability tzOffset d now w) Hw)
    as (Hc & _ & _ & _ & _ & _ & Hinv).
  rewrite Hdb, Hc. split.
  - intro Hle. destruct (Z.ltb_spec 0 (bookingCost (db w) d)); [lia | exact Hinv].
  - intro Hpos. apply Z.ltb_lt in Hpos. rewrite Hpos in Hinv.
    destruct Hinv as (invoice & Hi & _ & Hid & Htot & Hev).
    exists invoice. repeat split; assumption.
Qed.

End CreationEffects.

(** With the notifier down the scenario is refused and the venue is as it
    was. *)
Lemma createEvent_atomic_witness :
  snd (createEventRef notifierDown scenario 1000 venue) = venue.
Proof.
  rewrite scenario_notifier_down at 1. simpl.
  exact (createEvent_atomic validateStringRef validateNumberRef validateDateRangeRef
           parseAndValidateIdRef 3 1024 1000 validateEventServiceDataRef
           checkRoomAvailabilityRef 0 notifierDown scenario 1000 venue
           scenario_notifier_down eq_refl).
Defined.

(** The scenario appends the launch, its one line and one notification. *)
Lemma createEvent_appends_witness :
  events (db booked) = events (db venue) ++ [launch]
  /\ List.length (eventServices (db booked)) = 1%nat
  /\ outbox booked = [bookingNotification launch 7].
Proof.
  destruct (createEvent_appends validateStringRef validateNumberRef validateDateRangeRef
              parseAndValidateIdRef 3 1024 1000 validateEventServiceDataRef
              checkRoomAvailabilityRef 0 notifierUp scenario 1000 venue
              scenario_booked eq_refl)
    as (e & Hd & _ & Hev & _ & Hlen & Hout).
  simpl in Hd. inversion Hd. subst e.
  split; [exact Hev|]. split; [exact Hlen | exact Hout].
Defined.

(** The run of the booking that costs nothing. *)
Lemma free_booking_run :
  exists e w',
    createEventRef notifierUp freeBooking 1000 venue
    = (createValidationResult true [] (EventData_ e 0), w')
    /\ estimated_cost e = 0
    /\ event_name e = "Meetup"
    /\ status e = PENDING
    /\ event_date e = hour 24
    /\ room_service_fee e = None.
Proof. eexists. eexists. vm_compute. repeat split. Qed.

(** The booking that costs nothing gets no invoice; the scenario gets one of
    240. *)
Lemma createEvent_invoice_iff_cost_witness :
  (exists w',
     snd (createEventRef notifierUp freeBooking 1000 venue) = w'
     /\ invoices (db w') = invoices (db venue))
  /\ exists invoice,
       invoices (db booked) = invoices (db venue) ++ [invoice]
       /\ total_amount invoice = 240.
Proof.
  split.
  - destruct free_booking_run as (e & w' & Hrun & Hc & _).
    exists w'. rewrite Hrun. split; [reflexivity|].
    refine (proj1 (proj1 (createEvent_invoice_iff_cost
                     validateStringRef validateNumberRef validateDateRangeRef
                     parseAndValidateIdRef 3 1024 1000 validateEventServiceDataRef
                     checkRoomAvailabilityRef 0 notifierUp freeBooking 1000 venue
                     Hrun eq_refl eq_refl) _)).
    rewrite Hc. discriminate.
  - destruct (proj2 (createEvent_invoice_iff_cost
                       validateStringRef validateNumberRef validateDateRangeRef
                       parseAndValidateIdRef 3 1024 1000 validateEventServiceDataRef
                       checkRoomAvailabilityRef 0 notifierUp scenario 1000 venue
                       scenario_booked eq_refl eq_refl))
      as (invoice & Hi & Ht & _).
    + reflexivity.
    + exists invoice. split; [exact Hi | exact Ht].
Defined.

(** *** The stored event *)

Lemma numOrNull_supplied : forall x, numOrNull x = suppliedNumber x.
Proof.
  intro x. unfold numOrNull, suppliedNumber, truthyZ, NumberF.
  destruct x as [| |n]; try reflexivity. destruct (n =? 0); reflexivity.
Qed.

Lemma dateOrNull_supplied : forall x,
  dateOrNull x = match x with Val t => Some t | _ => None end.
Proof. intro x. destruct x; reflexivity. Qed.

Lemma trimOrNull_trimmed : forall x,
  match x, trimOrNull x with
  | Val text, Some stored => trimmedFrom text stored /\ stored <> EmptyString
  | Val text, None => trimmedFrom text EmptyString
  | _, stored => stored = None
  end.
Proof.
  intro x. unfold trimOrNull. destruct x as [| |text]; try reflexivity.
  pose proof (trim_trimmedFrom text) as Ht.
  destruct (trim text =? EmptyString)%string eqn:E.
  - apply String.eqb_eq in E. now rewrite E in Ht.
  - apply String.eqb_neq in E. split; assumption.
Qed.

Lemma insertEvent_fields : forall tzOffset d c now w e w1,
  insertEvent tzOffset d c now w = Next e w1 -> createdFrom tzOffset d e.
Proof.
  intros tzOffset d c now w e w1 H.
  unfold insertEvent, bind in H.
  destruct (d_event_name d) as [| |name] eqn:Hname; try discriminate H.
  unfold ret at 1 in H.
  destruct (eventDateOf tzOffset d w) as [date wd|? ?|?] eqn:Hdate; try discriminate H.
  assert (Hd : date = writtenEventDate tzOffset d /\ wd = w).
  { clear H. unfold eventDateOf, writtenEventDate, ret, throw in *.
    destruct (d_event_date d); destruct (d_start_time d);
      try discriminate Hdate; injection Hdate as <- <-; split; reflexivity. }
  destruct Hd as [-> ->].
  assert (Hst : exists st,
             (d_status d = Undefined -> st = PENDING)
             /\ (forall v, d_status d = Val v -> status_of_string v = Some st)
             /\ match d_status d with
                | Undefined => ret PENDING
                | Val v => statusOf v
                | Null =>
                    throw "Invalid value for argument `status`. Expected EventStatus."
                end w = Next st w).
  { unfold statusOf, ret, throw in *.
    destruct (d_status d) as [| |v]; try discriminate H.
    - exists PENDING. split; [reflexivity|]. split; [discriminate | reflexivity].
    - destruct (status_of_string v) as [st|] eqn:E; try discriminate H.
      exists st. split; [discriminate|]. split; [|reflexivity].
      intros v0 Hv. inversion Hv; subst. exact E. }
  destruct Hst as (st & Hs1 & Hs2 & Hs3). rewrite Hs3 in H.
  unfold getStore, putStore, ret in H. inversion H; subst e w1. clear H.
  unfold createdFrom. cbn [event_name description start_time end_time event_date
    final_cost room_service_fee status account_id room_id event_type_id].
  split; [exists name; split; [exact Hname | apply trim_trimmedFrom]|].
  split; [pose proof (trimOrNull_trimmed (d_description d)) as Hx;
          destruct (d_description d); exact Hx|].
  rewrite !dateOrNull_supplied, !numOrNull_supplied.
  repeat (split; [reflexivity|]).
  split; [exact Hs1|]. split; [exact Hs2|].
  repeat split.
Qed.

Section CreationFields.

Variable validateString : Field string -> string -> StringOptions -> list string.
Variable validateNumber : Field Z -> string -> Z -> list string.
Variable validateDateRange : Field Z -> Field Z -> string -> list string.
Variable parseAndValidateId : Field Z -> string -> option Z.
Variable NAME_MIN NAME_MAX DESCRIPTION_MAX : Z.
Variable validateEventServiceData : ServiceData -> list string.
Variable checkRoomAvailability :
  Z -> Field Z -> Field Z -> option Z -> Store -> RoomAvailability.
Variable tzOffset : Z.

Local Abbreviation createWith notifier :=
  (createEvent validateString validateNumber validateDateRange parseAndValidateId
     NAME_MIN NAME_MAX DESCRIPTION_MAX validateEventServiceData checkRoomAvailability
     notifier tzOffset).

(** X7. The event a successful creation stores and returns carries the
    payload's name without the white space around it, its description
    likewise and null when blank, PENDING when the payload has no status and
    otherwise the status it names, the payload's event date or else the local
    midnight of its start time, and null for every optional number or
    reference that is absent or 0. *)
Theorem createEvent_stores_payload : forall notifier d now w r w' e n,
  createEvent validateString validateNumber validateDateRange parseAndValidateId
    NAME_MIN NAME_MAX DESCRIPTION_MAX validateEventServiceData checkRoomAvailability
    notifier tzOffset d now w = (r, w') ->
  isValid r = true ->
  data r = EventData_ e n ->
  createdFrom tzOffset d e /\ In e (events (db w')).
Proof.
  intros notifier d now w r w' e n Hrun Hok Hdata.
  edestruct createEvent_success as (e0 & w1 & Hw & Hr & Hdb & _);
    [exact Hrun | exact Hok |].
  subst r. simpl in Hdata. inversion Hdata; subst e0 n. clear Hdata.
  destruct (createEventWrites_steps _ _ _ _ _ _ Hw)
    as (c1 & c2 & wa & wb & _ & _ & _ & _ & Hins & _).
  split; [exact (insertEvent_fields _ _ _ _ _ Hins)|].
  pose proof (@wp_Next _ _ _ _ _ _ _ (createEventWrites_wp validateEventServiceData
                checkRoomAvailability tzOffset d now w) Hw)
    as (_ & _ & _ & Hev & _).
  rewrite Hdb, Hev. apply in_or_app. right. now left.
Qed.

End CreationFields.

Lemma gala_run :
  exists e w',
    createEventRef notifierUp galaBooking 1000 venue
    = (createValidationResult true [] (EventData_ e 0), w')
    /\ event_name e = "Gala"
    /\ status e = PENDING
    /\ event_date e = hour 24
    /\ room_service_fee e = None.
Proof. eexists. eexists. vm_compute. repeat split. Qed.

(** The booking named "Gala" between two no-break spaces and before a
    blank, with a fee of 0 and no status, is stored as "Gala", PENDING, without
    fee, dated at the midnight before its start. *)
Lemma createEvent_stores_payload_witness :
  exists e,
    createdFrom 0 galaBooking e
    /\ event_name e = "Gala" /\ status e = PENDING /\ event_date e = hour 24
    /\ room_service_fee e = None.
Proof.
  destruct gala_run as (e & w' & Hrun & Hn & Hs & Hd & Hf).
  exists e. split; [|repeat split; assumption].
  exact (proj1 (createEvent_stores_payload
                  validateStringRef validateNumberRef validateDateRangeRef
                  parseAndValidateIdRef 3 1024 1000 validateEventServiceDataRef
                  checkRoomAvailabilityRef 0 notifierUp galaBooking 1000 venue
                  Hrun eq_refl eq_refl)).
Defined.

(** ** Update: policy, atomicity, conflicts and the invoice *)

(** A stored CONFIRMED booking of variation [vid] whose window strictly
    overlaps the window of a line refutes the acceptance of the line. *)
Lemma lineAccepted_no_overlap : forall validate s line row vid t h cstart,
  lineAccepted validate s line ->
  sd_variation_id line = Val vid -> vid <> 0 ->
  sd_scheduled_time line = Val t ->
  sd_duration_hours line = Val h -> h <> 0 ->
  In row (eventServices s) ->
  es_variation_id row = Some vid ->
  es_status row = "CONFIRMED" ->
  es_scheduled_time row = Some cstart ->
  t < candidateEnd cstart (es_duration_hours row) ->
  cstart < t + h * MS_PER_HOUR ->
  False.
Proof.
  intros validate s line row vid t h cstart [_ Hav] Hv Hvid Ht Hh Hh0 Hin Hrv Hst Hsc Ho1 Ho2.
  rewrite Hv, Ht, Hh in Hav.
  assert (Hargs : truthyZ (Val vid) && truthyD (Val t) && truthyZ (Val h) = true).
  { simpl. apply Z.eqb_neq in Hvid, Hh0. now rewrite Hvid, Hh0. }
  apply Hav, checkVariationAvailability_valid in Hargs as (_ & _ & _ & Hnone).
  assert (Hc : In row (filter (specConflictWith vid t (t + h * MS_PER_HOUR))
                         (eventServices s))).
  { apply filter_In. split; [exact Hin|]. unfold specConflictWith.
    rewrite Hrv, Hsc, Hst, Z.eqb_refl, String.eqb_refl. simpl.
    apply andb_true_iff. split; now apply Z.ltb_lt. }
  rewrite Hnone in Hc. exact Hc.
Qed.

Section UpdateBehaviour.

Variable validateString : Field string -> string -> StringOptions -> list string.
Variable validateNumber : Field Z -> string -> Z -> list string.
Variable validateDateRange : Field Z -> Field Z -> string -> list string.
Variable parseAndValidateId : Field Z -> string -> option Z.
Variable NAME_MIN NAME_MAX DESCRIPTION_MAX : Z.
Variable validateEventServiceData : ServiceData -> list string.
Variable checkRoomAvailability :
  Z -> Field Z -> Field Z -> option Z -> Store -> RoomAvailability.
Variable tzOffset : Z.

Local Abbreviation update :=
  (updateEvent validateString validateNumber validateDateRange parseAndValidateId
     NAME_MIN NAME_MAX DESCRIPTION_MAX validateEventServiceData checkRoomAvailability
     tzOffset).
Local Abbreviation updateTx :=
  (updateEventTx validateEventServiceData checkRoomAvailability tzOffset).

(** An accepted update found the event, passed the policy and the
    validation, and its transaction fell through. *)
Lemma updateEvent_success : forall eid d user now w r w',
  update eid d user now w = (r, w') ->
  isValid r = true ->
  exists old,
    findEvent (db w) eid = Some old
    /\ policyError old user now = None
    /\ updateTx old d w = Next r w'.
Proof.
  intros eid d user now w r w' Hrun Hok. unfold updateEvent in Hrun.
  destruct (findEvent (db w) eid) as [old|] eqn:Hfind;
    [|inversion Hrun; subst; discriminate].
  destruct (policyError old user now) eqn:Hpol; [inversion Hrun; subst; discriminate|].
  destruct (0 <? _)%nat; [inversion Hrun; subst; discriminate|].
  unfold transaction in Hrun.
  pose proof (updateEventTx_wp validateEventServiceData checkRoomAvailability tzOffset
                old d w) as Hwp.
  unfold wp in Hwp.
  destruct (updateTx old d w) as [r0 w0|r0 w0|msg] eqn:Htx; inversion Hrun; subst.
  - exists old. split; [reflexivity|]. split; [exact Hpol | exact Htx].
  - destruct Hwp as [Hbad _]. congruence.
  - discriminate.
Qed.

(** The steps of the transaction of an update that fell through. *)
Lemma updateEventTx_steps : forall old d w r w3,
  updateTx old d w = Next r w3 ->
  exists c1 c2 e w1 w2,
    checkAccount d w = Next tt w
    /\ updateRoomStep checkRoomAvailability old d
         (orF (d_estimated_cost d) (orZ (estimated_cost old) 0)) w = Next c1 w
    /\ checkEventType d w = Next tt w
    /\ serviceCosts validateEventServiceData (d_event_services d) c1 w = Next c2 w
    /\ writeEvent tzOffset old d c2 w = Next e w1
    /\ replaceEventServices (event_id old) (d_event_services d) w1 = Next tt w2
    /\ updateInvoice old d c2 w2 = Next tt w3
    /\ data r = EventData_ e (List.length (servicesOf (db w) (event_id old))).
Proof.
  intros old d w r w3 H. unfold updateEventTx in H.
  apply bind_Next in H as ([] & wa & Ha & H).
  pose proof (@wp_Next _ _ _ _ _ _ _ (checkAccount_wp d w) Ha) as Hwa.
  simpl in Hwa. subst wa.
  apply bind_Next in H as (c1 & wb & Hb & H).
  pose proof (@wp_Next _ _ _ _ _ _ _
                (updateRoomStep_wp checkRoomAvailability old d w) Hb) as [Hwb _].
  subst wb.
  apply bind_Next in H as ([] & wc & Hc & H).
  pose proof (@wp_Next _ _ _ _ _ _ _ (checkEventType_wp d w) Hc) as Hwc.
  simpl in Hwc. subst wc.
  apply bind_Next in H as (c2 & wd & Hd & H).
  pose proof (@wp_Next _ _ _ _ _ _ _
                (serviceCosts_wp validateEventServiceData _ _ w) Hd) as [Hwd _].
  subst wd.
  apply bind_Next in H as (s0 & we & Hs & H). inversion Hs; subst s0 we. clear Hs.
  apply bind_Next in H as (e & w1 & He & H).
  apply bind_Next in H as ([] & w2 & Hf & H).
  apply bind_Next in H as ([] & w3' & Hg & H).
  inversion H; subst.
  exists c1, c2, e, w1, w2. repeat split; assumption.
Qed.

(** X8. An update that is not accepted writes nothing, whatever refused it:
    an unknown id, the ownership or lead-time policy, the validation, a
    reference, a conflict, or an error thrown in the transaction. *)
Theorem updateEvent_atomic : forall eid d user now w r w',
  updateEvent validateString validateNumber validateDateRange parseAndValidateId
    NAME_MIN NAME_MAX DESCRIPTION_MAX validateEventServiceData checkRoomAvailability
    tzOffset eid d user now w = (r, w') ->
  isValid r = false ->
  w' = w.
Proof.
  intros eid d user now w r w' Hrun Hbad.
  destruct (updateEvent_lines _ _ _ _ _ _ _ _ _ _ _ _ _ _ _ Hrun)
    as [[_ Hw]|[Hok _]]; [exact Hw | congruence].
Qed.

(** X9. The policy of an update. For a CUSTOMER, an event of another
    account is refused, and so is an event of their own that starts less than
    24 hours after the call; an event of their own at least 24 hours ahead is
    treated as for an unrestricted caller. Any other role is unrestricted. *)
Theorem updateEvent_policy : forall eid d u now w old,
  findEvent (db w) eid = Some old ->
  (role u = "CUSTOMER" ->
   account_id old <> Some (u_account_id u) ->
   update eid d (Some u) now w = (invalid ["You can only update your own events."], w))
  /\ (role u = "CUSTOMER" ->
      account_id old = Some (u_account_id u) ->
      policyStart old - now < 24 * MS_PER_HOUR ->
      update eid d (Some u) now w
      = (invalid ["You can only update events at least 24 hours in advance."], w))
  /\ (role u = "CUSTOMER" ->
      account_id old = Some (u_account_id u) ->
      24 * MS_PER_HOUR <= policyStart old - now ->
      update eid d (Some u) now w = update eid d None now w)
  /\ (role u <> "CUSTOMER" ->
      update eid d (Some u) now w = update eid d None now w).
Proof.
  intros eid d u now w old Hfind. unfold updateEvent. rewrite Hfind.
  unfold policyError, policyStart.
  split; [|split; [|split]].
  - intros Hr Hacc. rewrite Hr, String.eqb_refl. unfold opt_eqb.
    destruct (account_id old) as [a|]; cbn [negb]; [|reflexivity].
    destruct (Z.eqb_spec a (u_account_id u)); [congruence | reflexivity].
  - intros Hr Hacc Hlt. rewrite Hr, Hacc, String.eqb_refl. unfold opt_eqb.
    rewrite Z.eqb_refl. cbn [negb].
    apply Z.ltb_lt in Hlt. now rewrite Hlt.
  - intros Hr Hacc Hge. rewrite Hr, Hacc, String.eqb_refl. unfold opt_eqb.
    rewrite Z.eqb_refl. cbn [negb].
    apply Z.ltb_ge in Hge. now rewrite Hge.
  - intro Hr. apply String.eqb_neq in Hr. now rewrite Hr.
Qed.

(** X10. An update whose payload carries a scheduled line that strictly
    overlaps a stored CONFIRMED booking of the same variation is never
    accepted. The check excludes nothing, so this holds also when the stored
    booking is a line of the event being updated: re-sending a scheduled line
    the event already holds is refused. *)
Theorem updateEvent_refuses_overlap : forall eid d user now w r w' line row vid t h cstart,
  update eid d user now w = (r, w') ->
  In line (d_event_services d) ->
  sd_variation_id line = Val vid -> vid <> 0 ->
  sd_scheduled_time line = Val t ->
  sd_duration_hours line = Val h -> h <> 0 ->
  In row (eventServices (db w)) ->
  es_variation_id row = Some vid ->
  es_status row = "CONFIRMED" ->
  es_scheduled_time row = Some cstart ->
  t < candidateEnd cstart (es_duration_hours row) ->
  cstart < t + h * MS_PER_HOUR ->
  isValid r = false /\ w' = w.
Proof.
  intros eid d user now w r w' line row vid t h cstart Hrun Hl Hv Hvid Ht Hh Hh0
    Hin Hrv Hst Hsc Ho1 Ho2.
  destruct (isValid r) eqn:Hok.
  - exfalso.
    destruct (updateEvent_success _ _ _ _ _ Hrun Hok) as (old & _ & _ & Htx).
    destruct (updateEventTx_steps _ _ _ Htx)
      as (c1 & c2 & e & w1 & w2 & _ & _ & _ & Hcosts & _).
    pose proof (serviceCosts_passed _ _ _ _ Hcosts) as Hall.
    rewrite Forall_forall in Hall.
    eapply lineAccepted_no_overlap;
      [exact (Hall line Hl) | exact Hv | exact Hvid | exact Ht | exact Hh | exact Hh0
      | exact Hin | exact Hrv | exact Hst | exact Hsc | exact Ho1 | exact Ho2].
  - split; [reflexivity|].
    destruct (updateEvent_lines _ _ _ _ _ _ _ _ _ _ _ _ _ _ _ Hrun)
      as [[_ Hw]|[Hok' _]]; [exact Hw | congruence].
Qed.

End UpdateBehaviour.

(** The event of the booked database starts at 10:00. At instant 0 its
    owner, a customer, is refused for the lead time and another customer for
    the ownership; a member of the staff is treated as an unrestricted
    caller. *)
Lemma updateEvent_policy_witness :
  updateEventRef 1 (resupply [] Undefined) (Some owner) 0 booked
  = (invalid ["You can only update events at least 24 hours in advance."], booked)
  /\ updateEventRef 1 (resupply [] Undefined) (Some stranger) 0 booked
     = (invalid ["You can only update your own events."], booked)
  /\ updateEventRef 1 (resupply [] Undefined) (Some clerk) 0 booked
     = updateEventRef 1 (resupply [] Undefined) None 0 booked.
Proof.
  assert (Hfind : findEvent (db booked) 1 = Some launch) by (vm_compute; reflexivity).
  pose proof (fun u => @updateEvent_policy validateStringRef validateNumberRef
                validateDateRangeRef parseAndValidateIdRef 3 1024 1000
                validateEventServiceDataRef checkRoomAvailabilityRef 0 1
                (resupply [] Undefined) u 0 booked launch Hfind) as P.
  split; [|split].
  - apply (proj1 (proj2 (P owner))); [reflexivity | reflexivity | reflexivity].
  - apply (proj1 (P stranger)); [reflexivity | discriminate].
  - apply (proj2 (proj2 (proj2 (P clerk)))). discriminate.
Defined.

(** The run of an update of the scheduled event that sends its one line
    again. *)
Lemma resend_run :
  exists r,
    updateEventRef 1 (resupply [scheduledLine] Undefined) None 2000 bookedScheduled
    = (r, bookedScheduled)
    /\ isValid r = false
    /\ errors r = ["Variation is busy during the requested time slot"].
Proof. eexists. vm_compute. repeat split. Qed.

(** Event 1 holds the catering from 10:00 for two hours; the update that
    sends the same line again is refused and nothing is written. *)
Lemma updateEvent_refuses_overlap_witness :
  exists r w',
    updateEventRef 1 (resupply [scheduledLine] Undefined) None 2000 bookedScheduled = (r, w')
    /\ isValid r = false /\ w' = bookedScheduled.
Proof.
  destruct resend_run as (r & Hrun & _ & _).
  exists r, bookedScheduled. split; [exact Hrun|].
  assert (H5 : 5 <> 0) by discriminate.
  assert (H2 : 2 <> 0) by discriminate.
  eapply updateEvent_refuses_overlap
    with (line := scheduledLine)
         (row := mkEventService 1 1 9 (Some 5) 2 (Some 50) None "CONFIRMED"
                   (Some (hour 10)) (Some 2))
         (vid := 5) (t := hour 10) (h := 2) (cstart := hour 10).
  - exact Hrun.
  - left. reflexivity.
  - reflexivity.
  - exact H5.
  - reflexivity.
  - reflexivity.
  - exact H2.
  - left. reflexivity.
  - reflexivity.
  - reflexivity.
  - reflexivity.
  - reflexivity.
  - reflexivity.
Defined.

(** The refused update of the scheduled event writes nothing. *)
Lemma updateEvent_atomic_witness :
  snd (updateEventRef 1 (resupply [scheduledLine] Undefined) None 2000 bookedScheduled)
  = bookedScheduled.
Proof.
  destruct resend_run as (r & Hrun & Hbad & _).
  rewrite Hrun at 1. simpl.
  exact (updateEvent_atomic validateStringRef validateNumberRef validateDateRangeRef
           parseAndValidateIdRef 3 1024 1000 validateEventServiceDataRef
           checkRoomAvailabilityRef 0 1 (resupply [scheduledLine] Undefined) None 2000
           bookedScheduled Hrun Hbad).
Defined.

(** *** The invoice of an updated event *)

Lemma find_map_event : forall eid (f : Invoice -> Invoice) (l : list Invoice),
  (forall i, inv_event_id (f i) = inv_event_id i) ->
  find (fun i => inv_event_id i =? eid) (map f l)
  = option_map f (find (fun i => inv_event_id i =? eid) l).
Proof.
  intros eid f l Hf. induction l as [|i l IH]; [reflexivity|].
  simpl. rewrite Hf. destruct (inv_event_id i =? eid); [reflexivity | exact IH].
Qed.

Lemma retotal_event : forall iid total i, inv_event_id (retotal iid total i) = inv_event_id i.
Proof. intros iid total i. unfold retotal. destruct (_ =? _); reflexivity. Qed.

Lemma retotal_id : forall iid total i, invoice_id (retotal iid total i) = invoice_id i.
Proof. intros iid total i. unfold retotal. destruct (_ =? _); reflexivity. Qed.

Section UpdateInvoice.

Variable validateString : Field string -> string -> StringOptions -> list string.
Variable validateNumber : Field Z -> string -> Z -> list string.
Variable validateDateRange : Field Z -> Field Z -> string -> list string.
Variable parseAndValidateId : Field Z -> string -> option Z.
Variable NAME_MIN NAME_MAX DESCRIPTION_MAX : Z.
Variable validateEventServiceData : ServiceData -> list string.
Variable checkRoomAvailability :
  Z -> Field Z -> Field Z -> option Z -> Store -> RoomAvailability.
Variable tzOffset : Z.

Local Abbreviation update :=
  (updateEvent validateString validateNumber validateDateRange parseAndValidateId
     NAME_MIN NAME_MAX DESCRIPTION_MAX validateEventServiceData checkRoomAvailability
     tzOffset).

Lemma writeEvent_invoices : forall old d c w e w1,
  writeEvent tzOffset old d c w = Next e w1 ->
  estimated_cost e = c
  /\ invoices (db w1) = invoices (db w)
  /\ invoiceDetails (db w1) = invoiceDetails (db w).
Proof.
  intros old d c w e w1 H.
  unfold writeEvent, eventDateOf, statusOf, bind, ret, throw, getStore, putStore in H.
  destruct (d_event_date d); destruct (d_start_time d); try discriminate H;
    destruct (d_status d) as [| |v]; try discriminate H;
    try (destruct (status_of_string v); try discriminate H);
    inversion H; subst; simpl; repeat split.
Qed.

Lemma replaceEventServices_invoices : forall eid services w w2,
  replaceEventServices eid services w = Next tt w2 ->
  invoices (db w2) = invoices (db w) /\ invoiceDetails (db w2) = invoiceDetails (db w).
Proof.
  intros eid services w w2 H.
  unfold replaceEventServices, when, deleteEventServices, createEventServices, bind, ret,
    getStore, putStore in H.
  destruct (0 <? List.length services)%nat; simpl in H.
  - destruct (0 <? List.length services)%nat; inversion H; subst; split; reflexivity.
  - inversion H; subst. split; reflexivity.
Qed.

(** What the invoice step of an update does to the invoices: nothing when
    the cost is the stored one or the event has no invoice; otherwise the
    total of the event's invoice becomes the cost. *)
Lemma updateInvoice_effect : forall old d c w2 w3,
  updateInvoice old d c w2 = Next tt w3 ->
  invoices (db w3)
  = (if c =? estimated_cost old then invoices (db w2)
     else match findInvoice (db w2) (event_id old) with
          | Some inv => map (retotal (invoice_id inv) c) (invoices (db w2))
          | None => invoices (db w2)
          end)
  /\ (c = estimated_cost old \/ findInvoice (db w2) (event_id old) = None ->
      invoiceDetails (db w3) = invoiceDetails (db w2)).
Proof.
  intros old d c w2 w3 H. unfold updateInvoice, when in H.
  destruct (Z.eqb_spec c (estimated_cost old)) as [Heq|Hne]; simpl in H.
  { inversion H; subst. split; [reflexivity | intros _; reflexivity]. }
  apply bind_Next in H as (s & wa & Hs & H). inversion Hs; subst s wa. clear Hs.
  destruct (findInvoice (db w2) (event_id old)) as [inv|] eqn:Hf.
  2:{ inversion H; subst. split; [reflexivity | intros _; reflexivity]. }
  split; [|intros [Hc|Hn]; [contradiction | discriminate]].
  apply bind_Next in H as ([] & wr & Hreset & H).
  assert (Hr : invoices (db wr) = map (retotal (invoice_id inv) c) (invoices (db w2))).
  { unfold resetInvoice, bind, getStore, putStore in Hreset.
    inversion Hreset; subst. reflexivity. }
  apply bind_Next in H as ([] & wb & Hroom & H).
  assert (Hb : invoices (db wb) = invoices (db wr)).
  { destruct (invoiceRoomId old d) as [rid|].
    - pose proof (@wp_Next _ _ _ _ _ _ _ (roomDetail_exact (invoice_id inv) rid wr) Hroom)
        as (room & _ & _ & Hi & _).
      now rewrite Hi, app_nil_r.
    - inversion Hroom; subst. reflexivity. }
  assert (Hc : invoices (db w3) = invoices (db wb)).
  { unfold when in H. destruct (0 <? _)%nat.
    - pose proof (@wp_Next _ _ _ _ _ _ _
                    (serviceDetails_exact (invoice_id inv) (d_event_services d) wb) H)
        as (_ & Hi & _).
      now rewrite Hi, app_nil_r.
    - inversion H; subst. reflexivity. }
  congruence.
Qed.

(** The invoices after an accepted update, from those before it. *)
Lemma updateEvent_invoices : forall eid d user now w r w' e n,
  update eid d user now w = (r, w') ->
  isValid r = true ->
  data r = EventData_ e n ->
  exists old,
    findEvent (db w) eid = Some old
    /\ invoices (db w')
       = (if estimated_cost e =? estimated_cost old then invoices (db w)
          else match findInvoice (db w) eid with
               | Some inv => map (retotal (invoice_id inv) (estimated_cost e)) (invoices (db w))
               | None => invoices (db w)
               end)
    /\ (estimated_cost e = estimated_cost old \/ findInvoice (db w) eid = None ->
        invoiceDetails (db w') = invoiceDetails (db w)).
Proof.
  intros eid d user now w r w' e n Hrun Hok Hdata.
  edestruct updateEvent_success as (old & Hfind & _ & Htx); [exact Hrun | exact Hok |].
  destruct (updateEventTx_steps _ _ _ _ _ _ Htx)
    as (c1 & c2 & e0 & w1 & w2 & _ & _ & _ & _ & Hwrite & Hrep & Hinv & Hd).
  rewrite Hdata in Hd. inversion Hd; subst e0. clear Hd.
  destruct (writeEvent_invoices _ _ _ _ Hwrite) as (Hc & Hi1 & Hd1).
  destruct (replaceEventServices_invoices _ _ _ Hrep) as (Hi2 & Hd2).
  destruct (updateInvoice_effect _ _ _ _ Hinv) as (Hi3 & Hd3).
  pose proof (findEvent_id _ _ Hfind) as Hid.
  assert (Hfi : findInvoice (db w2) (event_id old) = findInvoice (db w) eid).
  { unfold findInvoice. now rewrite Hi2, Hi1, Hid. }
  exists old. split; [exact Hfind|].
  subst c2. rewrite Hfi, Hi2, Hi1 in Hi3. rewrite Hfi, Hd2, Hd1 in Hd3.
  split; assumption.
Qed.

(** X11. An update never creates and never deletes an invoice: the keys
    and the events of the invoices are as before. When the computed cost is the
    stored one, or the event has no invoice, the invoices and all invoice
    lines are left exactly as they were, whatever the payload changed. *)
Theorem updateEvent_keeps_invoices : forall eid d user now w r w' e n,
  update eid d user now w = (r, w') ->
  isValid r = true ->
  data r = EventData_ e n ->
  map invoice_id (invoices (db w')) = map invoice_id (invoices (db w))
  /\ map inv_event_id (invoices (db w')) = map inv_event_id (invoices (db w))
  /\ (forall old, findEvent (db w) eid = Some old ->
      estimated_cost e = estimated_cost old \/ findInvoice (db w) eid = None ->
      invoices (db w') = invoices (db w)
      /\ invoiceDetails (db w') = invoiceDetails (db w)).
Proof.
  intros eid d user now w r w' e n Hrun Hok Hdata.
  destruct (updateEvent_invoices _ _ _ _ _ Hrun Hok Hdata) as (old & Hfind & Hi & Hd).
  assert (Hmaps : map invoice_id (invoices (db w')) = map invoice_id (invoices (db w))
                  /\ map inv_event_id (invoices (db w')) = map inv_event_id (invoices (db w))).
  { rewrite Hi. destruct (_ =? _); [split; reflexivity|].
    destruct (findInvoice (db w) eid) as [inv|]; [|split; reflexivity].
    rewrite !map_map. split; apply map_ext; intro i;
      [apply retotal_id | apply retotal_event]. }
  split; [apply Hmaps|]. split; [apply Hmaps|].
  intros old' Hfind' Hcase. rewrite Hfind in Hfind'. inversion Hfind'; subst old'.
  split; [|exact (Hd Hcase)].
  rewrite Hi. destruct Hcase as [Hc|Hn].
  - now rewrite Hc, Z.eqb_refl.
  - rewrite Hn. destruct (_ =? _); reflexivity.
Qed.

(** X12. When an accepted update computes a cost other than the stored one
    and the event has an invoice, the total of that invoice becomes the cost
    stored on the event, under the same invoice key. *)
Theorem updateEvent_invoice_follows_cost : forall eid d user now w r w' e n old inv,
  update eid d user now w = (r, w') ->
  isValid r = true ->
  data r = EventData_ e n ->
  findEvent (db w) eid = Some old ->
  findInvoice (db w) eid = Some inv ->
  estimated_cost e <> estimated_cost old ->
  exists inv',
    findInvoice (db w') eid = Some inv'
    /\ total_amount inv' = estimated_cost e
    /\ invoice_id inv' = invoice_id inv.
Proof.
  intros eid d user now w r w' e n old inv Hrun Hok Hdata Hfind Hinv Hne.
  destruct (updateEvent_invoices _ _ _ _ _ Hrun Hok Hdata) as (old' & Hfind' & Hi & _).
  rewrite Hfind in Hfind'. inversion Hfind'; subst old'.
  apply Z.eqb_neq in Hne. rewrite Hne, Hinv in Hi.
  exists (retotal (invoice_id inv) (estimated_cost e) inv).
  unfold findInvoice in *. rewrite Hi, find_map_event, Hinv by apply retotal_event.
  split; [reflexivity|].
  unfold retotal. rewrite Z.eqb_refl. split; reflexivity.
Qed.

End UpdateInvoice.

(** The run of an update that replaces the line of event 1 by a line
    without variation or price: the cost stays 240. *)
Lemma swap_free_run :
  exists r w' e,
    updateEventRef 1 (resupply [noService] Undefined) None 2000 booked = (r, w')
    /\ isValid r = true
    /\ data r = EventData_ e 1
    /\ estimated_cost e = 240
    /\ map es_custom_price (servicesOf (db w') 1) = [None].
Proof. eexists. eexists. eexists. vm_compute. repeat split. Qed.

(** The line of event 1 is replaced at an unchanged cost: its invoice and
    the two lines of that invoice stay as they were. *)
Lemma updateEvent_keeps_invoices_witness :
  exists r w',
    updateEventRef 1 (resupply [noService] Undefined) None 2000 booked = (r, w')
    /\ invoices (db w') = invoices (db booked)
    /\ invoiceDetails (db w') = invoiceDetails (db booked).
Proof.
  destruct swap_free_run as (r & w' & e & Hrun & Hok & Hdata & Hcost & _).
  exists r, w'. split; [exact Hrun|].
  assert (Hfind : findEvent (db booked) 1 = Some launch) by (vm_compute; reflexivity).
  refine (proj2 (proj2 (updateEvent_keeps_invoices
                   validateStringRef validateNumberRef validateDateRangeRef
                   parseAndValidateIdRef 3 1024 1000 validateEventServiceDataRef
                   checkRoomAvailabilityRef 0 1 (resupply [noService] Undefined) None 2000
                   booked Hrun Hok Hdata)) launch Hfind _).
  left. exact Hcost.
Defined.

(** The run of the update that adds 100 to the cost of event 1. *)
Lemma resupply_run :
  exists r w' e,
    updateEventRef 1 (resupply [customLine (Val 50) (Val 2)] (Val 2)) None 2000 booked
    = (r, w')
    /\ isValid r = true
    /\ data r = EventData_ e 1
    /\ estimated_cost e = 340.
Proof. eexists. eexists. eexists. vm_compute. repeat split. Qed.

(** The invoice of event 1 has a total of 240; after the update that stores
    a cost of 340 its total is 340. *)
Lemma updateEvent_invoice_follows_cost_witness :
  exists r w' inv',
    updateEventRef 1 (resupply [customLine (Val 50) (Val 2)] (Val 2)) None 2000 booked
    = (r, w')
    /\ findInvoice (db w') 1 = Some inv'
    /\ total_amount inv' = 340.
Proof.
  destruct resupply_run as (r & w' & e & Hrun & Hok & Hdata & Hcost).
  assert (Hfind : findEvent (db booked) 1 = Some launch) by (vm_compute; reflexivity).
  assert (Hinv : findInvoice (db booked) 1
                 = Some (mkInvoice 1 "INV-1000" 240 1 (Some 7) "PENDING" 1000 604801000))
    by (vm_compute; reflexivity).
  destruct (updateEvent_invoice_follows_cost
              validateStringRef validateNumberRef validateDateRangeRef
              parseAndValidateIdRef 3 1024 1000 validateEventServiceDataRef
              checkRoomAvailabilityRef 0 1 _ None 2000 booked Hrun Hok Hdata Hfind Hinv)
    as (inv' & Hf & Ht & _).
  - rewrite Hcost. discriminate.
  - exists r, w', inv'. split; [exact Hrun|]. split; [exact Hf|]. now rewrite Ht.
Defined.

(** The run of the update of the dated event that names it and its times
    again. *)
Lemma redate_run :
  exists r w',
    updateEventRef 1 (resupply [] Undefined) None 2000 bookedDated = (r, w')
    /\ isValid r = true.
Proof. eexists. eexists. vm_compute. split; reflexivity. Qed.

(** The update that carries a name and the times only keeps the
    description, the costs and the references of event 1 and stores the cost
    240 again. *)
Lemma updateEvent_stored_event_witness :
  exists r w' old e,
    updateEventRef 1 (resupply [] Undefined) None 2000 bookedDated = (r, w')
    /\ findEvent (db bookedDated) 1 = Some old
    /\ findEvent (db w') 1 = Some e
    /\ room_id e = room_id old
    /\ account_id e = account_id old
    /\ estimated_cost e = updatedCost (db bookedDated) old (resupply [] Undefined).
Proof.
  destruct redate_run as (r & w' & Hrun & Hok).
  destruct (updateEvent_stored_event
              validateStringRef validateNumberRef validateDateRangeRef
              parseAndValidateIdRef 3 1024 1000 validateEventServiceDataRef
              checkRoomAvailabilityRef 0 1 (resupply [] Undefined) None 2000 bookedDated
              Hrun Hok)
    as (old & e & Ho & He & Hk & _ & Hc).
  exists r, w', old, e.
  destruct Hk as (_ & _ & _ & _ & _ & _ & _ & _ & _ & Hacc & Hroom & _).
  split; [exact Hrun|]. split; [exact Ho|]. split; [exact He|].
  split; [exact (Hroom eq_refl)|]. split; [exact (Hacc eq_refl) | exact Hc].
Defined.

(** The invoice of the scenario: 240, over lines of 100 and 100 and an
    unbilled hourly charge of 40. *)
Lemma createEvent_invoice_witness :
  exists invoice,
    invoices (db booked) = invoices (db venue) ++ [invoice]
    /\ total_amount invoice = 240
    /\ unbilledCost (db venue) scenario = 40.
Proof.
  destruct (createEvent_invoice
              validateStringRef validateNumberRef validateDateRangeRef
              parseAndValidateIdRef 3 1024 1000 validateEventServiceDataRef
              checkRoomAvailabilityRef 0 notifierUp scenario 1000 venue
              scenario_booked eq_refl)
    as (invoice & Hi & _ & Ht & _).
  - reflexivity.
  - exists invoice. split; [exact Hi|]. split; [exact Ht | reflexivity].
Defined.

(** ** The tables the service only reads *)

Lemma sameRest_refl : forall w, sameRest w w.
Proof. intro w. repeat split. Qed.

Lemma sameRest_trans : forall w1 w2 w3, sameRest w1 w2 -> sameRest w2 w3 -> sameRest w1 w3.
Proof.
  unfold sameRest. intros w1 w2 w3 (a1 & a2 & a3) (b1 & b2 & b3).
  repeat split; congruence.
Qed.

Lemma wp_bind_rest : forall (A B : Type) (m : Tx B) (k : B -> Tx A) w,
  wp m w (fun _ w' => sameRest w w') never ->
  (forall b w', wp (k b) w' (fun _ w'' => sameRest w' w'') never) ->
  wp (bind m k) w (fun _ w' => sameRest w w') never.
Proof.
  intros A B m k w Hm Hk. apply wp_bind.
  eapply wp_conseq; [exact Hm | | auto].
  intros b w' Hs. eapply wp_conseq; [apply Hk | | auto].
  intros a w'' Hs'. simpl in *. eapply sameRest_trans; eassumption.
Qed.

Lemma when_rest : forall b m w,
  (forall w0, wp m w0 (fun _ w' => sameRest w0 w') never) ->
  wp (when b m) w (fun _ w' => sameRest w w') never.
Proof.
  intros b m w H. apply wp_when; intros _; [apply H | apply sameRest_refl].
Qed.

Lemma addInvoiceDetail_rest : forall line w,
  wp (addInvoiceDetail line) w (fun _ w' => sameRest w w') never.
Proof. intros line w. unfold addInvoiceDetail, sameRest, catalog.
  unfold wp, bind, getStore, putStore. simpl. repeat split.
Qed.

Lemma roomDetail_rest : forall iid rid w,
  wp (roomDetail iid rid) w (fun _ w' => sameRest w w') never.
Proof.
  intros iid rid w. unfold roomDetail. apply wp_bind, wp_getStore.
  destruct (findRoom (db w) rid); [apply addInvoiceDetail_rest | apply wp_throw].
Qed.

Lemma serviceDetails_rest : forall iid services w,
  wp (serviceDetails iid services) w (fun _ w' => sameRest w w') never.
Proof.
  intros iid services. induction services as [|service rest IH]; intro w.
  - apply wp_ret, sameRest_refl.
  - simpl. apply wp_bind, wp_getStore. apply wp_bind_rest.
    + apply addInvoiceDetail_rest.
    + intros u w'. apply IH.
Qed.

Lemma insertInvoice_rest : forall newEvent total now w,
  wp (insertInvoice newEvent total now) w (fun _ w' => sameRest w w') never.
Proof. intros newEvent total now w. unfold insertInvoice, sameRest, catalog.
  unfold wp, bind, ret, getStore, putStore. simpl. repeat split.
Qed.

Lemma createInvoice_rest : forall d newEvent c now w,
  wp (createInvoice d newEvent c now) w (fun _ w' => sameRest w w') never.
Proof.
  intros d newEvent c now w. unfold createInvoice. apply when_rest. clear w. intro w.
  apply wp_bind_rest; [apply insertInvoice_rest|]. intros invoice w1.
  apply wp_bind_rest.
  - apply when_rest. intro w0. apply roomDetail_rest.
  - intros u w2. apply when_rest. intro w0. apply serviceDetails_rest.
Qed.

Lemma resetInvoice_rest : forall existingInvoice total w,
  wp (resetInvoice existingInvoice total) w (fun _ w' => sameRest w w') never.
Proof.
  intros existingInvoice total w. unfold resetInvoice, sameRest, catalog.
  unfold wp, bind, getStore, putStore. simpl. repeat split.
Qed.

Lemma updateInvoice_rest : forall existingEvent d c w,
  wp (updateInvoice existingEvent d c) w (fun _ w' => sameRest w w') never.
Proof.
  intros existingEvent d c w. unfold updateInvoice. apply when_rest. clear w. intro w.
  apply wp_bind, wp_getStore.
  destruct (findInvoice _ _) as [existingInvoice|]; [|apply wp_ret, sameRest_refl].
  apply wp_bind_rest; [apply resetInvoice_rest|]. intros u1 w1.
  apply wp_bind_rest.
  - destruct (invoiceRoomId existingEvent d);
      [apply roomDetail_rest | apply wp_ret, sameRest_refl].
  - intros u2 w2. apply when_rest. intro w0. apply serviceDetails_rest.
Qed.

Lemma insertEvent_rest : forall tzOffset d c now w e w1,
  insertEvent tzOffset d c now w = Next e w1 -> sameRest w w1.
Proof.
  intros tzOffset d c now w e w1 H.
  unfold insertEvent, eventDateOf, statusOf, bind, ret, throw, getStore, putStore in H.
  destruct (d_event_name d) as [| |n]; try discriminate H.
  destruct (d_event_date d); destruct (d_start_time d); try discriminate H;
    destruct (d_status d) as [| |v]; try discriminate H;
    try (destruct (status_of_string v); try discriminate H);
    inversion H; subst; repeat split.
Qed.

Lemma writeEvent_rest : forall tzOffset old d c w e w1,
  writeEvent tzOffset old d c w = Next e w1 -> sameRest w w1.
Proof.
  intros tzOffset old d c w e w1 H.
  unfold writeEvent, eventDateOf, statusOf, bind, ret, throw, getStore, putStore in H.
  destruct (d_event_date d); destruct (d_start_time d); try discriminate H;
    destruct (d_status d) as [| |v]; try discriminate H;
    try (destruct (status_of_string v); try discriminate H);
    inversion H; subst; repeat split.
Qed.

Lemma createEventServices_rest : forall eid services w w2,
  createEventServices eid services w = Next tt w2 -> sameRest w w2.
Proof.
  intros eid services w w2 H.
  unfold createEventServices, when, bind, ret, getStore, putStore in H.
  destruct (0 <? List.length services)%nat; inversion H; subst; repeat split.
Qed.

Lemma replaceEventServices_rest : forall eid services w w2,
  replaceEventServices eid services w = Next tt w2 -> sameRest w w2.
Proof.
  intros eid services w w2 H.
  unfold replaceEventServices, when, deleteEventServices, createEventServices, bind, ret,
    getStore, putStore in H.
  destruct (0 <? List.length services)%nat; simpl in H.
  - destruct (0 <? List.length services)%nat; inversion H; subst; repeat split.
  - inversion H; subst. repeat split.
Qed.

Section ReadOnly.

Variable validateString : Field string -> string -> StringOptions -> list string.
Variable validateNumber : Field Z -> string -> Z -> list string.
Variable validateDateRange : Field Z -> Field Z -> string -> list string.
Variable parseAndValidateId : Field Z -> string -> option Z.
Variable NAME_MIN NAME_MAX DESCRIPTION_MAX : Z.
Variable validateEventServiceData : ServiceData -> list string.
Variable checkRoomAvailability :
  Z -> Field Z -> Field Z -> option Z -> Store -> RoomAvailability.
Variable createNotification : Notification -> option string.
Variable tzOffset : Z.

Local Abbreviation create :=
  (createEvent validateString validateNumber validateDateRange parseAndValidateId
     NAME_MIN NAME_MAX DESCRIPTION_MAX validateEventServiceData checkRoomAvailability
     createNotification tzOffset).
Local Abbreviation update :=
  (updateEvent validateString validateNumber validateDateRange parseAndValidateId
     NAME_MIN NAME_MAX DESCRIPTION_MAX validateEventServiceData checkRoomAvailability
     tzOffset).

Lemma createEvent_rest : forall d now w, sameRest w (snd (create d now w)).
Proof.
  intros d now w. destruct (create d now w) as [r w'] eqn:Hrun. simpl.
  destruct (isValid r) eqn:Hok.
  - edestruct createEvent_success as (e & w1 & Hw & _ & Hdb & _);
      [exact Hrun | exact Hok |].
    destruct (createEventWrites_steps _ _ _ _ _ _ Hw)
      as (c1 & c2 & wa & wb & _ & _ & _ & _ & Hins & Hrows & Hinv).
    pose proof (insertEvent_rest _ _ _ _ _ Hins) as H1.
    pose proof (createEventServices_rest _ _ _ Hrows) as H2.
    pose proof (@wp_Next _ _ _ _ _ _ _ (createInvoice_rest d e c2 now wb) Hinv) as H3.
    simpl in H3.
    pose proof (sameRest_trans (sameRest_trans H1 H2) H3) as H.
    unfold sameRest in *. now rewrite Hdb.
  - edestruct createEvent_outcome as [[_ Hw]|Hok']; [exact Hrun | | congruence].
    rewrite Hw. apply sameRest_refl.
Qed.

Lemma updateEvent_rest : forall eid d user now w, sameRest w (snd (update eid d user now w)).
Proof.
  intros eid d user now w. destruct (update eid d user now w) as [r w'] eqn:Hrun. simpl.
  destruct (isValid r) eqn:Hok.
  - edestruct updateEvent_success as (old & _ & _ & Htx); [exact Hrun | exact Hok |].
    destruct (updateEventTx_steps _ _ _ _ _ _ Htx)
      as (c1 & c2 & e & w1 & w2 & _ & _ & _ & _ & Hwrite & Hrep & Hinv & _).
    pose proof (writeEvent_rest _ _ _ _ _ Hwrite) as H1.
    pose proof (replaceEventServices_rest _ _ _ Hrep) as H2.
    pose proof (@wp_Next _ _ _ _ _ _ _ (updateInvoice_rest old d c2 w2) Hinv) as H3.
    simpl in H3.
    exact (sameRest_trans (sameRest_trans H1 H2) H3).
  - edestruct updateEvent_lines as [[_ Hw]|[Hok' _]]; [exact Hrun | | congruence].
    rewrite Hw. apply sameRest_refl.
Qed.

(** X15. No operation of the service writes the accounts, the rooms, the
    event types or the variations; and a creation, an update and a status
    toggle leave the payments and the reviews as they are. *)
Theorem service_keeps_catalog :
  (forall d now w, sameRest w (snd (create d now w)))
  /\ (forall eid d user now w, sameRest w (snd (update eid d user now w)))
  /\ (forall eid w, sameRest w (snd (toggleEventStatus eid w)))
  /\ (forall eid forceDelete w,
        catalog (db (snd (deleteEvent eid forceDelete w))) = catalog (db w)).
Proof.
  split; [exact createEvent_rest|]. split; [exact updateEvent_rest|]. split.
  - intros eid w. unfold toggleEventStatus.
    destruct (findEvent (db w) eid); repeat split.
  - intros eid forceDelete w. unfold deleteEvent.
    destruct (findEvent (db w) eid); [|reflexivity].
    destruct (_ && negb forceDelete); [reflexivity|].
    unfold transaction, deleteEventTx, when, bind, deleteEventServices, deletePayments,
      deleteReviews, deleteInvoice, deleteEventRow, getStore, putStore, ret.
    destruct forceDelete; [destruct (findInvoice (db w) eid)|]; reflexivity.
Qed.

End ReadOnly.

(** ** Deletion: what goes and what stays *)

Lemma filter_negb_all : forall (A : Type) (p : A -> bool) (l : list A),
  filter p l = [] -> filter (fun x => negb (p x)) l = l.
Proof.
  intros A p l. induction l as [|a l IH]; [reflexivity|].
  simpl. destruct (p a); [discriminate|]. intro H. simpl. now rewrite IH.
Qed.

Lemma filter_split_length : forall (A : Type) (p : A -> bool) (l : list A),
  List.length l
  = (List.length (filter (fun x => negb (p x)) l) + List.length (filter p l))%nat.
Proof.
  intros A p l. induction l as [|a l IH]; [reflexivity|].
  simpl. destruct (p a); simpl; rewrite IH; lia.
Qed.

Lemma find_filter_other : forall (A : Type) (p q : A -> bool) (l : list A),
  (forall x, In x l -> p x = true -> q x = true) ->
  find p (filter q l) = find p l.
Proof.
  intros A p q l H. induction l as [|a l IH]; [reflexivity|].
  simpl. destruct (p a) eqn:Hp.
  - rewrite (H a (or_introl eq_refl) Hp). simpl. now rewrite Hp.
  - destruct (q a); simpl; [rewrite Hp|]; apply IH; intros x Hx; apply H; now right.
Qed.

Lemma filter_filter_other : forall (A : Type) (p q : A -> bool) (l : list A),
  (forall x, p x = true -> q x = true) ->
  filter p (filter q l) = filter p l.
Proof.
  intros A p q l H. rewrite filter_filter. apply filter_ext. intro x.
  destruct (p x) eqn:Hp; [now rewrite (H x Hp) | now rewrite andb_false_r].
Qed.

Lemma other_key : forall a eid other,
  other <> eid -> (a =? other) = true -> negb (a =? eid) = true.
Proof.
  intros a eid other Hne H. apply Z.eqb_eq in H. subst a.
  apply negb_true_iff, Z.eqb_neq. exact Hne.
Qed.

Lemma NoDup_key_unique : forall (l : list Invoice) i j,
  NoDup (map invoice_id l) -> In i l -> In j l -> invoice_id i = invoice_id j -> i = j.
Proof.
  induction l as [|a l IH]; intros i j Hnd Hi Hj Hk; [contradiction|].
  simpl in Hnd. inversion Hnd as [|? ? Hnot Hnd']; subst.
  destruct Hi as [<-|Hi]; destruct Hj as [<-|Hj]; try reflexivity.
  - exfalso. apply Hnot. rewrite Hk. now apply in_map.
  - exfalso. apply Hnot. rewrite <- Hk. now apply in_map.
  - now apply IH.
Qed.

Lemma count_key : forall (l : list Invoice) i,
  NoDup (map invoice_id l) -> In i l ->
  List.length (filter (fun x => invoice_id x =? invoice_id i) l) = 1%nat.
Proof.
  induction l as [|a l IH]; intros i Hnd Hi; [contradiction|].
  simpl in Hnd. inversion Hnd as [|? ? Hnot Hnd']; subst. simpl.
  destruct Hi as [->|Hi].
  - rewrite Z.eqb_refl. simpl. f_equal.
    rewrite filter_none; [reflexivity|]. apply Forall_forall. intros x Hx.
    apply Z.eqb_neq. intro E. apply Hnot. rewrite <- E. now apply in_map.
  - destruct (Z.eqb_spec (invoice_id a) (invoice_id i)) as [E|E].
    + exfalso. apply Hnot. rewrite E. now apply in_map.
    + now apply IH.
Qed.

(** The world a deletion that goes through leaves, and its result. *)
Lemma deleteEvent_done : forall eid forceDelete w old,
  findEvent (db w) eid = Some old ->
  (forceDelete = true
   \/ (servicesOf (db w) eid = [] /\ findInvoice (db w) eid = None
       /\ paymentsOf (db w) eid = [] /\ reviewsOf (db w) eid = [])) ->
  let s := db w in
  let gone (l : list EventService) :=
    if forceDelete then filter (fun x => negb (es_event_id x =? eid)) l else l in
  deleteEvent eid forceDelete w
  = (createValidationResult true []
       (DeletedData eid
          (if forceDelete then List.length (servicesOf s eid) else 0%nat)
          (if forceDelete then List.length (paymentsOf s eid) else 0%nat)
          (if forceDelete then List.length (reviewsOf s eid) else 0%nat)
          (if forceDelete && isSome (findInvoice s eid) then 1%nat else 0%nat)),
     mkWorld
       (mkStore (accounts s) (rooms s) (eventTypes s) (variations s)
          (filter (fun e => negb (event_id e =? eid)) (events s))
          (gone (eventServices s))
          (if forceDelete
           then match findInvoice s eid with
                | Some i => filter (fun x => negb (invoice_id x =? invoice_id i)) (invoices s)
                | None => invoices s
                end
           else invoices s)
          (if forceDelete
           then match findInvoice s eid with
                | Some i =>
                    filter (fun x => negb (id_invoice_id x =? invoice_id i)) (invoiceDetails s)
                | None => invoiceDetails s
                end
           else invoiceDetails s)
          (if forceDelete
           then filter (fun x => negb (p_event_id x =? eid)) (payments s) else payments s)
          (if forceDelete
           then filter (fun x => negb (rv_event_id x =? eid)) (reviews s) else reviews s)
          (next_event_id s) (next_event_service_id s) (next_invoice_id s))
       (outbox w)).
Proof.
  intros eid forceDelete w old Hfind Hcase. unfold deleteEvent. rewrite Hfind.
  destruct forceDelete.
  - rewrite andb_false_r.
    unfold transaction, deleteEventTx, when, bind, deleteEventServices, deletePayments,
      deleteReviews, deleteInvoice, deleteEventRow, getStore, putStore, ret.
    destruct (findInvoice (db w) eid); reflexivity.
  - destruct Hcase as [Hf|(Hs & Hi & Hp & Hr)]; [discriminate|].
    rewrite Hs, Hi, Hp, Hr. reflexivity.
Qed.

(** X16. An event without service line, invoice, payment or review is
    deleted without [forceDelete]: the call succeeds, reports no dependent
    deleted, and removes the row of the event and nothing else. *)
Theorem deleteEvent_without_dependents : forall eid w old r w',
  findEvent (db w) eid = Some old ->
  servicesOf (db w) eid = [] ->
  findInvoice (db w) eid = None ->
  paymentsOf (db w) eid = [] ->
  reviewsOf (db w) eid = [] ->
  deleteEvent eid false w = (r, w') ->
  isValid r = true
  /\ data r = DeletedData eid 0 0 0 0
  /\ events (db w') = filter (fun e => negb (event_id e =? eid)) (events (db w))
  /\ findEvent (db w') eid = None
  /\ eventServices (db w') = eventServices (db w)
  /\ invoices (db w') = invoices (db w)
  /\ invoiceDetails (db w') = invoiceDetails (db w)
  /\ payments (db w') = payments (db w)
  /\ reviews (db w') = reviews (db w).
Proof.
  intros eid w old r w' Hfind Hs Hi Hp Hr Hrun.
  rewrite (@deleteEvent_done eid false w old Hfind) in Hrun
    by (right; repeat split; assumption).
  inversion Hrun; subst. simpl. repeat split.
  unfold findEvent. simpl. apply find_all_false. intros x Hx.
  apply filter_In in Hx as [_ Hx]. now apply negb_true_iff in Hx.
Qed.

(** X17. A deletion, forced or not, leaves every other event and the
    service lines, payments and reviews of every other event as they were;
    with unique invoice keys it leaves the invoice of every other event as
    well. *)
Theorem deleteEvent_frame : forall eid forceDelete w r w' other,
  deleteEvent eid forceDelete w = (r, w') ->
  other <> eid ->
  findEvent (db w') other = findEvent (db w) other
  /\ servicesOf (db w') other = servicesOf (db w) other
  /\ paymentsOf (db w') other = paymentsOf (db w) other
  /\ reviewsOf (db w') other = reviewsOf (db w) other
  /\ (NoDup (map invoice_id (invoices (db w))) ->
      findInvoice (db w') other = findInvoice (db w) other).
Proof.
  intros eid forceDelete w r w' other Hrun Hne.
  destruct (findEvent (db w) eid) as [old|] eqn:Hfind.
  2:{ unfold deleteEvent in Hrun. rewrite Hfind in Hrun. inversion Hrun; subst.
      repeat split. }
  destruct (Bool.bool_dec forceDelete true) as [Hf|Hf].
  - subst forceDelete.
    rewrite (@deleteEvent_done eid true w old Hfind) in Hrun by (left; reflexivity).
    inversion Hrun; subst. clear Hrun.
    unfold findEvent, servicesOf, paymentsOf, reviewsOf, findInvoice. simpl.
    split; [apply find_filter_other; intros x _; apply other_key; exact Hne|].
    split; [apply filter_filter_other; intro x; apply other_key; exact Hne|].
    split; [apply filter_filter_other; intro x; apply other_key; exact Hne|].
    split; [apply filter_filter_other; intro x; apply other_key; exact Hne|].
    intro Hnd. destruct (find _ (invoices (db w))) as [inv|] eqn:Hinv; [|reflexivity].
    apply find_filter_other. intros x Hx Hox.
    apply negb_true_iff, Z.eqb_neq. intro Hk.
    apply find_some in Hinv as [Hin Hev].
    assert (x = inv) by (eapply NoDup_key_unique; eassumption). subst x.
    apply Z.eqb_eq in Hev, Hox. congruence.
  - apply Bool.not_true_is_false in Hf. subst forceDelete.
    unfold deleteEvent in Hrun. rewrite Hfind in Hrun.
    rewrite andb_true_r in Hrun.
    destruct (_ || _) eqn:Hdeps.
    + inversion Hrun; subst. repeat split.
    + unfold transaction, deleteEventTx, when, bind, deleteEventRow, getStore, putStore,
        ret in Hrun.
      inversion Hrun; subst. clear Hrun.
      unfold findEvent, servicesOf, paymentsOf, reviewsOf, findInvoice. simpl.
      split; [apply find_filter_other; intros x _; apply other_key; exact Hne|].
      repeat split.
Qed.

(** X18. The counts a successful deletion reports are the rows it removed:
    the service lines, the payments and the reviews shrink by the reported
    numbers, and with unique invoice keys so do the invoices. *)
Theorem deleteEvent_counts : forall eid forceDelete w r w' key ns np nr ni,
  deleteEvent eid forceDelete w = (r, w') ->
  data r = DeletedData key ns np nr ni ->
  key = eid
  /\ List.length (eventServices (db w)) = (List.length (eventServices (db w')) + ns)%nat
  /\ List.length (payments (db w)) = (List.length (payments (db w')) + np)%nat
  /\ List.length (reviews (db w)) = (List.length (reviews (db w')) + nr)%nat
  /\ (NoDup (map invoice_id (invoices (db w))) ->
      List.length (invoices (db w)) = (List.length (invoices (db w')) + ni)%nat).
Proof.
  intros eid forceDelete w r w' key ns np nr ni Hrun Hdata.
  destruct (findEvent (db w) eid) as [old|] eqn:Hfind.
  2:{ unfold deleteEvent in Hrun. rewrite Hfind in Hrun. inversion Hrun; subst.
      discriminate Hdata. }
  destruct (Bool.bool_dec forceDelete true) as [Hf|Hf].
  - subst forceDelete.
    rewrite (@deleteEvent_done eid true w old Hfind) in Hrun by (left; reflexivity).
    inversion Hrun; subst. clear Hrun. simpl in Hdata. inversion Hdata; subst. clear Hdata.
    simpl. split; [reflexivity|].
    unfold servicesOf, paymentsOf, reviewsOf.
    split; [apply filter_split_length|]. split; [apply filter_split_length|].
    split; [apply filter_split_length|].
    intro Hnd. destruct (findInvoice (db w) _) as [inv|] eqn:Hinv; simpl; [|lia].
    rewrite (filter_split_length (fun x => invoice_id x =? invoice_id inv) (invoices (db w))).
    f_equal. apply count_key; [exact Hnd|].
    unfold findInvoice in Hinv. now apply find_some in Hinv as [Hin _].
  - apply Bool.not_true_is_false in Hf. subst forceDelete.
    unfold deleteEvent in Hrun. rewrite Hfind in Hrun.
    rewrite andb_true_r in Hrun.
    destruct (_ || _) eqn:Hdeps.
    + inversion Hrun; subst. discriminate Hdata.
    + unfold transaction, deleteEventTx, when, bind, deleteEventRow, getStore, putStore,
        ret in Hrun.
      inversion Hrun; subst. clear Hrun. simpl in Hdata. inversion Hdata; subst.
      simpl. repeat split; lia.
Qed.

(** The meetup is event 2 of the database with two bookings. *)
Lemma meetup_stored : findEvent (db twoBooked) 2 = Some meetup.
Proof. vm_compute. reflexivity. Qed.

(** The meetup has nothing attached: deleting it unforced succeeds and
    leaves the launch, its line and its invoice. *)
Lemma deleteEvent_without_dependents_witness :
  exists r w',
    deleteEvent 2 false twoBooked = (r, w')
    /\ isValid r = true
    /\ findEvent (db w') 2 = None
    /\ eventServices (db w') = eventServices (db twoBooked)
    /\ invoices (db w') = invoices (db twoBooked).
Proof.
  destruct (deleteEvent 2 false twoBooked) as [r w'] eqn:Hrun.
  exists r, w'. split; [reflexivity|].
  destruct (@deleteEvent_without_dependents 2 twoBooked meetup r w' meetup_stored)
    as (Hok & _ & _ & Hnone & Hes & Hinv & _); try exact Hrun; try reflexivity.
  repeat split; assumption.
Defined.

(** Forcing the deletion of the launch leaves the meetup stored. *)
Lemma deleteEvent_frame_witness :
  exists r w',
    deleteEvent 1 true twoBooked = (r, w')
    /\ findEvent (db w') 2 = Some meetup.
Proof.
  destruct (deleteEvent 1 true twoBooked) as [r w'] eqn:Hrun.
  exists r, w'. split; [reflexivity|].
  assert (Hne : 2 <> 1) by discriminate.
  destruct (@deleteEvent_frame 1 true twoBooked r w' 2 Hrun Hne) as (He & _).
  rewrite He. exact meetup_stored.
Defined.

(** The run of the forced deletion of event 1 of the settled database. *)
Lemma settled_forced_run :
  exists w',
    deleteEvent 1 true settled
    = (createValidationResult true [] (DeletedData 1 1 1 2 1), w').
Proof. eexists. vm_compute. reflexivity. Qed.

(** The forced deletion of event 1 reports one line, one payment, two
    reviews and one invoice, and the tables shrink by as many rows. *)
Lemma deleteEvent_counts_witness :
  exists w',
    deleteEvent 1 true settled
    = (createValidationResult true [] (DeletedData 1 1 1 2 1), w')
    /\ List.length (reviews (db settled)) = (List.length (reviews (db w')) + 2)%nat
    /\ List.length (invoices (db settled)) = (List.length (invoices (db w')) + 1)%nat.
Proof.
  destruct settled_forced_run as (w' & Hrun).
  exists w'. split; [exact Hrun|].
  destruct (@deleteEvent_counts 1 true settled _ w' 1 1%nat 1%nat 2%nat 1%nat Hrun eq_refl)
    as (_ & _ & _ & Hr & Hi).
  split; [exact Hr|]. apply Hi.
  constructor; [intros [] | constructor].
Defined.

(** ** The status toggle: what it leaves alone *)

Lemma find_setStatus_other : forall eid other st (l : list Event),
  other <> eid ->
  find (fun e => event_id e =? other)
    (map (fun e => if event_id e =? eid then setStatus e st else e) l)
  = find (fun e => event_id e =? other) l.
Proof.
  intros eid other st l Hne. induction l as [|e l IH]; [reflexivity|].
  simpl. destruct (Z.eqb_spec (event_id e) eid) as [E|E].
  - assert (Ho : (event_id e =? other) = false) by (apply Z.eqb_neq; congruence).
    destruct e; simpl in *. rewrite Ho. exact IH.
  - destruct (event_id e =? other); [reflexivity | exact IH].
Qed.

(** X19. A toggle of an unknown id is refused and writes nothing. A toggle
    of a stored event changes the status of that event and nothing else: its
    other columns, every other event, the service lines, the invoices and
    their lines, and what the notifier received are as before. *)
Theorem toggleEventStatus_frame : forall eid w r w',
  toggleEventStatus eid w = (r, w') ->
  (findEvent (db w) eid = None ->
   isValid r = false /\ errors r = ["Event not found"] /\ w' = w)
  /\ (forall e, findEvent (db w) eid = Some e ->
      isValid r = true
      /\ findEvent (db w') eid = Some (setStatus e (toggledStatus (status e)))
      /\ data r = ToggledData (setStatus e (toggledStatus (status e))))
  /\ (forall other, other <> eid -> findEvent (db w') other = findEvent (db w) other)
  /\ eventServices (db w') = eventServices (db w)
  /\ invoices (db w') = invoices (db w)
  /\ invoiceDetails (db w') = invoiceDetails (db w)
  /\ outbox w' = outbox w.
Proof.
  intros eid w r w' Hrun.
  pose proof (toggleEventStatus_found eid w) as Hfound.
  unfold toggleEventStatus in *.
  destruct (findEvent (db w) eid) as [e|] eqn:Hfind.
  - inversion Hrun; subst. clear Hrun. simpl in *.
    split; [discriminate|]. split.
    + intros e' He'. inversion He'; subst e'.
      split; [reflexivity|]. split; [exact (Hfound e eq_refl) | reflexivity].
    + split; [|repeat split].
      intros other Hne. unfold findEvent. simpl. now apply find_setStatus_other.
  - inversion Hrun; subst. clear Hrun.
    split; [intros _; repeat split|]. split; [discriminate|]. repeat split.
Qed.

(** The launch is toggled: its status is CONFIRMED, its cost is still 240,
    and the meetup is untouched. *)
Lemma toggleEventStatus_frame_witness :
  exists r w',
    toggleEventStatus 1 twoBooked = (r, w')
    /\ option_map estimated_cost (findEvent (db w') 1) = Some 240
    /\ findEvent (db w') 2 = Some meetup
    /\ invoices (db w') = invoices (db twoBooked).
Proof.
  destruct (toggleEventStatus 1 twoBooked) as [r w'] eqn:Hrun.
  exists r, w'. split; [reflexivity|].
  destruct (toggleEventStatus_frame 1 twoBooked Hrun) as (_ & Hev & Hother & _ & Hinv & _).
  assert (Hfind : findEvent (db twoBooked) 1 = Some launch) by (vm_compute; reflexivity).
  destruct (Hev launch Hfind) as (_ & Hnew & _).
  split; [rewrite Hnew; reflexivity|]. split; [|exact Hinv].
  rewrite Hother by discriminate. exact meetup_stored.
Defined.

(** X20. Whatever the status of an event, one toggle leaves it PENDING or
    CONFIRMED, so the five other statuses are never restored by toggling; and
    from then on the toggle is an involution: three toggles store what one
    toggle stores. *)
Theorem toggleEventStatus_settles : forall eid w e,
  findEvent (db w) eid = Some e ->
  let once := snd (toggleEventStatus eid w) in
  let thrice := snd (toggleEventStatus eid (snd (toggleEventStatus eid once))) in
  (option_map status (findEvent (db once) eid) = Some PENDING
   \/ option_map status (findEvent (db once) eid) = Some CONFIRMED)
  /\ findEvent (db thrice) eid = findEvent (db once) eid.
Proof.
  intros eid w e Hfind once thrice.
  pose proof (toggleEventStatus_found _ _ Hfind) as H1. fold once in H1.
  pose proof (toggleEventStatus_found _ _ H1) as H2.
  pose proof (toggleEventStatus_found _ _ H2) as H3. fold thrice in H3.
  rewrite H3, H1. split.
  - simpl. unfold toggledStatus. destruct (EventStatus_eqb (status e) PENDING); auto.
  - rewrite !setStatus_twice. simpl. f_equal. f_equal.
    unfold toggledStatus. destruct (status e); reflexivity.
Qed.

(** The launch is PENDING: one toggle and three toggles both store it
    CONFIRMED. *)
Lemma toggleEventStatus_settles_witness :
  findEvent (db (snd (toggleEventStatus 1
                        (snd (toggleEventStatus 1 (snd (toggleEventStatus 1 booked))))))) 1
  = findEvent (db (snd (toggleEventStatus 1 booked))) 1.
Proof.
  assert (Hfind : findEvent (db booked) 1 = Some launch) by (vm_compute; reflexivity).
  exact (proj2 (toggleEventStatus_settles 1 booked Hfind)).
Defined.

(** ** Listing: the filters, the page and the ordering *)

Lemma In_firstn : forall (A : Type) n (l : list A) x, In x (firstn n l) -> In x l.
Proof.
  intros A n. induction n as [|n IH]; intros [|y l] x H; simpl in *; try tauto.
  destruct H as [H|H]; [now left | right; now apply IH].
Qed.

Lemma In_skipn : forall (A : Type) n (l : list A) x, In x (skipn n l) -> In x l.
Proof.
  intros A n. induction n as [|n IH]; intros [|y l] x H; simpl in *; try tauto.
  right. now apply IH.
Qed.

Section ListingMore.

Variable parseAndValidateId : Field Z -> string -> option Z.
Variable validatePagination : Z -> Z -> PaginationCheck.
Variable orderRows : string -> string -> list Event -> list Event.
Variable containsInsensitive : string -> string -> bool.

Local Abbreviation list_events :=
  (getAllEvents parseAndValidateId validatePagination orderRows containsInsensitive).
Local Abbreviation checked f :=
  (validatePagination (NumberF (withDefault (page f) 1))
     (NumberF (withDefault (limit f) 20))).

(** X21. The filters of a listing are honoured, given that the ordering of
    the database returns only rows it was given: every returned event is
    stored, has the status asked for, belongs to the account, the room and the
    event type asked for, and starts within the dates asked for. *)
Theorem getAllEvents_honours_filters : forall f w r evs pg e n,
  (forall field order l x, In x (orderRows field order l) -> In x l) ->
  list_events f w = r ->
  isValid r = true ->
  data r = ListData evs pg ->
  In (e, n) evs ->
  In e (events (db w))
  /\ (forall st, truthyS (f_status f) = true ->
        status_of_string (strOf (f_status f)) = Some st -> status e = st)
  /\ (forall a, truthyZ (f_account_id f) = true ->
        parseAndValidateId (f_account_id f) "Account ID" = Some a ->
        account_id e = Some a)
  /\ (forall a, truthyZ (f_room_id f) = true ->
        parseAndValidateId (f_room_id f) "Room ID" = Some a -> room_id e = Some a)
  /\ (forall a, truthyZ (f_event_type_id f) = true ->
        parseAndValidateId (f_event_type_id f) "Event Type ID" = Some a ->
        event_type_id e = Some a)
  /\ (forall lo, dateMin f = Val lo -> exists t, start_time e = Some t /\ lo <= t)
  /\ (forall hi, dateMax f = Val hi -> exists t, start_time e = Some t /\ t <= hi).
Proof.
  intros f w r evs pg e n Hsub Hrun Hok Hdata Hin.
  rewrite (getAllEvents_listing _ _ _ _ _ _ Hrun Hok) in Hdata.
  inversion Hdata; subst evs. clear Hdata.
  apply in_map_iff in Hin as (x & Hx & Hin). inversion Hx; subst x. clear Hx.
  apply In_firstn, In_skipn, Hsub in Hin.
  unfold selectedEvents in Hin. apply filter_In in Hin as [Hstored Hm].
  split; [exact Hstored|].
  unfold matchesWhere in Hm.
  repeat (apply andb_true_iff in Hm; destruct Hm as [Hm ?]).
  assert (Hopt : forall c col a, optMatches c col = true -> c = Some a -> col = Some a).
  { intros c col a Ho ->. unfold optMatches, opt_eqb in Ho.
    destruct col as [v|]; [|discriminate]. apply Z.eqb_eq in Ho. now subst. }
  split; [|split; [|split; [|split; [|split]]]].
  - intros st Ht Hs. unfold statusClauseOf in *. rewrite Ht, Hs in *.
    destruct (status e), st; try reflexivity; discriminate.
  - intros a Ht Hp. eapply Hopt; [eassumption|]. unfold clauseOf. now rewrite Ht.
  - intros a Ht Hp. eapply Hopt; [eassumption|]. unfold clauseOf. now rewrite Ht.
  - intros a Ht Hp. eapply Hopt; [eassumption|]. unfold clauseOf. now rewrite Ht.
  - intros lo Hlo. rewrite Hlo in *.
    destruct (start_time e) as [t|]; [|discriminate].
    exists t. split; [reflexivity | now apply Z.leb_le].
  - intros hi Hhi. rewrite Hhi in *.
    destruct (start_time e) as [t|]; [|discriminate].
    exists t. split; [reflexivity | now apply Z.leb_le].
Qed.

(** X22. The size of a page, given that the ordering of the database keeps
    the number of rows: with a validated page [p >= 1] and limit [l >= 1], a
    listing returns [min l (totalCount - (p - 1) * l)] events, and none when
    that is negative; so every page before the last is full and a page past
    the end is empty. *)
Theorem getAllEvents_page_size : forall f w r evs pg,
  (forall field order l, List.length (orderRows field order l) = List.length l) ->
  getAllEvents parseAndValidateId validatePagination orderRows containsInsensitive f w
  = r ->
  isValid r = true ->
  data r = ListData evs pg ->
  1 <= validPage (checked f) ->
  1 <= validLimit (checked f) ->
  Z.of_nat (List.length evs)
  = Z.max 0 (Z.min (validLimit (checked f))
               (totalCount pg - (validPage (checked f) - 1) * validLimit (checked f))).
Proof.
  intros f w r evs pg Hlen Hrun Hok Hdata Hp Hl.
  rewrite (getAllEvents_listing _ _ _ _ _ _ Hrun Hok) in Hdata.
  inversion Hdata; subst evs pg. clear Hdata. simpl.
  rewrite length_map, length_firstn, length_skipn, Hlen.
  set (total := List.length (selectedEvents _ _ f (db w))).
  set (l := validLimit (checked f)) in *.
  set (p := validPage (checked f)) in *.
  assert (Hk : 0 <= (p - 1) * l) by nia.
  lia.
Qed.

End ListingMore.

Lemma includes_In : forall l s, includes l s = true -> In s l.
Proof.
  intros l s H. unfold includes in H. apply existsb_exists in H as (x & Hin & Hx).
  apply String.eqb_eq in Hx. now subst x.
Qed.

Lemma buildSortOrder_eq : forall sortBy sortOrder,
  buildSortOrder sortBy sortOrder
  = (match sortBy with
     | Val f => if includes validSortFields f then f else "date_create"
     | _ => "date_create"
     end,
     match sortOrder with
     | Val o => if includes ["asc"; "desc"] (toLowerCase o) then toLowerCase o else "asc"
     | _ => "asc"
     end).
Proof. reflexivity. Qed.

(** X23. The ordering handed to the database is always whitelisted: the
    field is one of the eight sortable columns, a listed field being kept and
    any other replaced by [date_create], and the direction is [asc] or
    [desc], read without regard to case, anything else being [asc]. *)
Theorem buildSortOrder_whitelisted : forall sortBy sortOrder,
  In (fst (buildSortOrder sortBy sortOrder)) validSortFields
  /\ (snd (buildSortOrder sortBy sortOrder) = "asc"
      \/ snd (buildSortOrder sortBy sortOrder) = "desc")
  /\ (forall x, sortBy = Val x -> In x validSortFields ->
        fst (buildSortOrder sortBy sortOrder) = x)
  /\ (forall x, sortBy = Val x -> ~ In x validSortFields ->
        fst (buildSortOrder sortBy sortOrder) = "date_create")
  /\ (forall o, sortOrder = Val o -> toLowerCase o = "desc" ->
        snd (buildSortOrder sortBy sortOrder) = "desc").
Proof.
  intros sortBy sortOrder. rewrite buildSortOrder_eq. cbn [fst snd].
  assert (Hdc : In "date_create" validSortFields)
    by (unfold validSortFields; simpl; tauto).
  split; [|split; [|split; [|split]]].
  - destruct sortBy as [| |x]; try exact Hdc.
    destruct (includes validSortFields x) eqn:E;
      [apply includes_In; exact E | exact Hdc].
  - destruct sortOrder as [| |o]; try (left; reflexivity).
    destruct (includes ["asc"; "desc"] (toLowerCase o)) eqn:E; [|left; reflexivity].
    apply includes_In in E. destruct E as [E|[E|[]]]; auto.
  - intros x -> Hin.
    assert (E : includes validSortFields x = true).
    { unfold includes. apply existsb_exists. exists x. split; [exact Hin|].
      apply String.eqb_refl. }
    now rewrite E.
  - intros x -> Hnot.
    destruct (includes validSortFields x) eqn:E; [|reflexivity].
    exfalso. apply Hnot. now apply includes_In.
  - intros o -> Ho. rewrite Ho. reflexivity.
Qed.

Lemma orderRowsRef_In : forall field order l (x : Event),
  In x (orderRowsRef field order l) -> In x l.
Proof. intros field order l x H. exact H. Qed.

Lemma orderRowsRef_length : forall field order l,
  List.length (orderRowsRef field order l) = List.length l.
Proof. reflexivity. Qed.

Lemma confirmed_listing_run :
  exists r pg,
    getAllEventsRef confirmedOnly twoToggled = r
    /\ isValid r = true
    /\ data r = ListData [(confirmedLaunch, 0%nat)] pg
    /\ List.length (events (db twoToggled)) = 2%nat.
Proof.
  eexists. eexists. split; [reflexivity|].
  split; [vm_compute; reflexivity|]. split; vm_compute; reflexivity.
Qed.

(** Of the two stored bookings only the launch is CONFIRMED; a listing that
    asks for the CONFIRMED events returns it, and it has that status. *)
Lemma getAllEvents_honours_filters_witness :
  exists r pg,
    getAllEventsRef confirmedOnly twoToggled = r
    /\ data r = ListData [(confirmedLaunch, 0%nat)] pg
    /\ In confirmedLaunch (events (db twoToggled))
    /\ status confirmedLaunch = CONFIRMED.
Proof.
  destruct confirmed_listing_run as (r & pg & Hrun & Hok & Hd & _).
  exists r, pg. split; [exact Hrun|]. split; [exact Hd|].
  destruct (getAllEvents_honours_filters parseAndValidateIdRef validatePaginationRef
              orderRowsRef containsInsensitiveRef confirmedOnly twoToggled
              confirmedLaunch 0%nat orderRowsRef_In Hrun Hok Hd (or_introl eq_refl))
    as (Hstored & Hst & _).
  split; [exact Hstored|]. apply Hst; reflexivity.
Defined.

Lemma second_page_run :
  exists r evs pg,
    getAllEventsRef secondOfOne twoBooked = r
    /\ isValid r = true
    /\ data r = ListData evs pg
    /\ totalCount pg = 2.
Proof.
  eexists. eexists. eexists. split; [reflexivity|].
  split; [vm_compute; reflexivity|]. split; vm_compute; reflexivity.
Qed.

(** Two bookings listed one by page: page 2 holds [min 1 (2 - 1 * 1)], one
    event. *)
Lemma getAllEvents_page_size_witness :
  exists r evs pg,
    getAllEventsRef secondOfOne twoBooked = r
    /\ data r = ListData evs pg
    /\ Z.of_nat (List.length evs) = Z.max 0 (Z.min 1 (totalCount pg - (2 - 1) * 1)).
Proof.
  destruct second_page_run as (r & evs & pg & Hrun & Hok & Hd & _).
  exists r, evs, pg. split; [exact Hrun|]. split; [exact Hd|].
  assert (Hp : 1 <= 2) by discriminate.
  assert (Hl : 1 <= 1) by discriminate.
  exact (getAllEvents_page_size parseAndValidateIdRef validatePaginationRef
           orderRowsRef containsInsensitiveRef secondOfOne twoBooked
           orderRowsRef_length Hrun Hok Hd Hp Hl).
Defined.

(** ** The events of a type *)

Section TypeListingProps.

Variable orderRows : string -> string -> list Event -> list Event.

(** X24. The listing of a type always succeeds and, given that the ordering
    of the database returns exactly the rows it was given, holds exactly the
    stored events of that type: each returned event is stored and has the
    type, each stored event of the type is returned, [totalCount] is the
    number returned, and no event carries its service lines, its event type
    or a count other than 0. *)
Theorem getEventsByEventTypeId_scoped : forall id options w,
  (forall field order l x, In x (orderRows field order l) <-> In x l) ->
  exists listing,
    getEventsByEventTypeId orderRows id options w = mkFetch true [] (Some listing)
    /\ tl_eventTypeId listing = id
    /\ tl_totalCount listing = List.length (tl_events listing)
    /\ (forall fe, In fe (tl_events listing) ->
          In (fe_event fe) (events (db w))
          /\ event_type_id (fe_event fe) = Some id
          /\ fe_event_services fe = None
          /\ fe_event_type fe = None
          /\ fe_eventServicesCount fe = 0%nat)
    /\ (forall e, In e (events (db w)) -> event_type_id e = Some id ->
          exists fe, In fe (tl_events listing) /\ fe_event fe = e).
Proof.
  intros id options w Hperm. unfold getEventsByEventTypeId.
  eexists. split; [reflexivity|]. cbn [tl_eventTypeId tl_totalCount tl_events].
  split; [reflexivity|]. split; [reflexivity|]. split.
  - intros fe Hin. apply in_map_iff in Hin as (e & <- & Hin).
    apply Hperm, filter_In in Hin as [Hst Hty]. cbn.
    split; [exact Hst|]. split; [|repeat split].
    unfold opt_eqb in Hty. destruct (event_type_id e) as [t|]; [|discriminate].
    apply Z.eqb_eq in Hty. now subst.
  - intros e Hin Hty. eexists. split; [|shelve].
    apply in_map. apply Hperm. apply filter_In. split; [exact Hin|].
    rewrite Hty. apply Z.eqb_refl.
    Unshelve. reflexivity.
Qed.

(** X25. A request for the events of a type that names no [sortBy] is
    ordered by [date_create]: the controller's default, [event_date], is not
    a sortable column, so neither it nor the service's own default,
    [start_time], is ever used; the reply is 200 with the count of the
    events sent. *)
Theorem getEventsByEventTypeIdController_default_order : forall id q w,
  truthyS (q_sortBy q) = false ->
  let rows :=
    orderRows "date_create"
      (snd (buildSortOrder (Val "event_date") (Val (orQuery (q_sortOrder q) "asc"))))
      (filter (fun e => opt_eqb (event_type_id e) id) (events (db w))) in
  getEventsByEventTypeIdController orderRows id q w
  = (200,
     map (fetched (db w) (isTrue (q_includeAccount q)) (isTrue (q_includeRoom q))
            false false) rows,
     List.length rows).
Proof.
  intros id q w Hs rows. subst rows.
  unfold getEventsByEventTypeIdController, getEventsByEventTypeId, orQuery.
  rewrite Hs. cbn [f_data f_isValid tl_events tl_totalCount optionOr withDefault].
  rewrite length_map. rewrite !buildSortOrder_eq. cbn [fst snd].
  change (includes validSortFields "event_date") with false. cbv iota.
  reflexivity.
Qed.

End TypeListingProps.

Lemma orderRowsRef_iff : forall field order l (x : Event),
  In x (orderRowsRef field order l) <-> In x l.
Proof. intros field order l x. reflexivity. Qed.

Lemma seminar_stored : In seminar (events (db threeBooked)).
Proof. vm_compute. right. right. left. reflexivity. Qed.

(** Of the three bookings only the seminar has type 1: the listing of type
    1 returns it. *)
Lemma getEventsByEventTypeId_scoped_witness :
  exists listing,
    getEventsByEventTypeId orderRowsRef 1
      (mkTypeListingOptions Undefined Undefined Undefined Undefined) threeBooked
    = mkFetch true [] (Some listing)
    /\ tl_totalCount listing = List.length (tl_events listing)
    /\ exists fe, In fe (tl_events listing) /\ fe_event fe = seminar.
Proof.
  destruct (getEventsByEventTypeId_scoped orderRowsRef 1
              (mkTypeListingOptions Undefined Undefined Undefined Undefined) threeBooked
              orderRowsRef_iff)
    as (listing & Hrun & _ & Hcount & _ & Hall).
  exists listing. split; [exact Hrun|]. split; [exact Hcount|].
  apply Hall; [exact seminar_stored | reflexivity].
Defined.

(** The plain query for type 1 over the three bookings is answered with 200
    and one event. *)
Lemma getEventsByEventTypeIdController_default_order_witness :
  fst (fst (getEventsByEventTypeIdController orderRowsRef 1 plainQuery threeBooked)) = 200
  /\ snd (getEventsByEventTypeIdController orderRowsRef 1 plainQuery threeBooked) = 1%nat.
Proof.
  rewrite (getEventsByEventTypeIdController_default_order orderRowsRef 1 plainQuery
             threeBooked eq_refl).
  split; vm_compute; reflexivity.
Defined.

(** ** Who may read the details of an event *)

(** X26. [getEventDetails] answers 200 exactly when the event exists and the
    user is its account or has the role ADMIN or STAFF, 404 exactly when
    there is no such event, and 403 otherwise; a 403 carries no data, and a
    200 carries the stored event. *)
Theorem getEventDetails_authorization : forall id user w,
  let reply := getEventDetails id user w in
  (fst reply = 200
   <-> exists e, findEvent (db w) id = Some e
                 /\ (account_id e = Some (u_account_id user)
                     \/ In (role user) staffRoles))
  /\ (fst reply = 404 <-> findEvent (db w) id = None)
  /\ (fst reply = 403
      <-> exists e, findEvent (db w) id = Some e
                    /\ account_id e <> Some (u_account_id user)
                    /\ ~ In (role user) staffRoles)
  /\ (fst reply = 403 -> f_data (snd reply) = None /\ f_isValid (snd reply) = false)
  /\ (fst reply = 200 ->
      option_map fe_event (f_data (snd reply)) = findEvent (db w) id).
Proof.
  intros id user w reply. subst reply. unfold getEventDetails, getEventById.
  destruct (findEvent (db w) id) as [e|] eqn:Hfind; cbn [f_data f_isValid andb fe_event fetched].
  2:{ cbn [fst snd].
      split; [split; [discriminate | intros (e & He & _); discriminate]|].
      split; [split; reflexivity|].
      split; [split; [discriminate | intros (e & He & _); discriminate]|].
      split; discriminate. }
  assert (Hacc : opt_eqb (account_id e) (u_account_id user) = true
                 <-> account_id e = Some (u_account_id user)).
  { unfold opt_eqb. destruct (account_id e) as [a|].
    - rewrite Z.eqb_eq. split; [now intros -> | now intros [= ->]].
    - split; discriminate. }
  assert (Hrole : includes staffRoles (role user) = true <-> In (role user) staffRoles).
  { split; [apply includes_In|]. intro Hin. unfold includes. apply existsb_exists.
    exists (role user). split; [exact Hin | apply String.eqb_refl]. }
  destruct (opt_eqb (account_id e) (u_account_id user)) eqn:Ea;
    destruct (includes staffRoles (role user)) eqn:Er; cbn [negb andb fst snd f_data f_isValid option_map fe_event].
  - split; [split; [intros _; exists e; split; [reflexivity | left; now apply Hacc]
                   | reflexivity]|].
    split; [split; discriminate|].
    split; [split; [discriminate|]|split; [discriminate | reflexivity]].
    intros (e' & [= <-] & Hn & _). exfalso. apply Hn. now apply Hacc.
  - split; [split; [intros _; exists e; split; [reflexivity | left; now apply Hacc]
                   | reflexivity]|].
    split; [split; discriminate|].
    split; [split; [discriminate|]|split; [discriminate | reflexivity]].
    intros (e' & [= <-] & Hn & _). exfalso. apply Hn. now apply Hacc.
  - split; [split; [intros _; exists e; split; [reflexivity | right; now apply Hrole]
                   | reflexivity]|].
    split; [split; discriminate|].
    split; [split; [discriminate|]|split; [discriminate | reflexivity]].
    intros (e' & [= <-] & _ & Hn). exfalso. apply Hn. now apply Hrole.
  - split.
    { split; [discriminate|]. intros (e' & [= <-] & [Ha|Hr]).
      - apply Hacc in Ha. discriminate.
      - apply Hrole in Hr. discriminate. }
    split; [split; discriminate|].
    split; [|split; [intros _; split; reflexivity | discriminate]].
    split; [|reflexivity]. intros _. exists e. split; [reflexivity|].
    split; [intro Ha; apply Hacc in Ha; discriminate
           | intro Hr; apply Hrole in Hr; discriminate].
Qed.

(** ** Creation seen through the controller and the fetch *)

Lemma findEvent_appended : forall s s' e,
  events s' = events s ++ [e] ->
  (forall x, In x (events s) -> event_id x <> event_id e) ->
  findEvent s' (event_id e) = Some e
  /\ forall other, other <> event_id e -> findEvent s' other = findEvent s other.
Proof.
  intros s s' e Hev Hfresh. unfold findEvent. rewrite Hev. clear Hev. split.
  - induction (events s) as [|x l IH]; simpl.
    + now rewrite Z.eqb_refl.
    + destruct (event_id x =? event_id e) eqn:E.
      * apply Z.eqb_eq in E. exfalso. apply (Hfresh x); [now left | exact E].
      * apply IH. intros y Hy. apply Hfresh. now right.
  - intros other Hne. clear Hfresh. induction (events s) as [|x l IH]; simpl.
    + apply Z.eqb_neq in Hne. rewrite Z.eqb_sym in Hne. now rewrite Hne.
    + destruct (event_id x =? other); [reflexivity | exact IH].
Qed.

Lemma filter_all_false : forall (A : Type) (p : A -> bool) (l : list A),
  (forall x, In x l -> p x = false) -> filter p l = [].
Proof.
  intros A p l H. induction l as [|a l IH]; [reflexivity|].
  simpl. rewrite (H a (or_introl eq_refl)). apply IH. intros x Hx. apply H. now right.
Qed.

Lemma servicesOf_rows : forall eid k services,
  filter (fun l => es_event_id l =? eid) (serviceRows eid k services)
  = serviceRows eid k services.
Proof.
  intros eid k services. revert k.
  induction services as [|x l IH]; intro k; simpl; [reflexivity|].
  rewrite Z.eqb_refl. f_equal. apply IH.
Qed.

Section CreationRoundTrip.

Variable validateString : Field string -> string -> StringOptions -> list string.
Variable validateNumber : Field Z -> string -> Z -> list string.
Variable validateDateRange : Field Z -> Field Z -> string -> list string.
Variable parseAndValidateId : Field Z -> string -> option Z.
Variable NAME_MIN NAME_MAX DESCRIPTION_MAX : Z.
Variable validateEventServiceData : ServiceData -> list string.
Variable checkRoomAvailability :
  Z -> Field Z -> Field Z -> option Z -> Store -> RoomAvailability.
Variable tzOffset : Z.

Local Abbreviation createWith notifier :=
  (createEvent validateString validateNumber validateDateRange parseAndValidateId
     NAME_MIN NAME_MAX DESCRIPTION_MAX validateEventServiceData checkRoomAvailability
     notifier tzOffset).
Local Abbreviation controllerWith notifier :=
  (createEventController validateString validateNumber validateDateRange
     parseAndValidateId NAME_MIN NAME_MAX DESCRIPTION_MAX validateEventServiceData
     checkRoomAvailability notifier tzOffset).

(** What an accepted creation stored. *)
Lemma createEvent_stored : forall notifier d now w r w',
  createWith notifier d now w = (r, w') ->
  isValid r = true ->
  exists e,
    r = createValidationResult true [] (EventData_ e 0)
    /\ event_id e = next_event_id (db w)
    /\ account_id e = numOrNull (d_account_id d)
    /\ events (db w') = events (db w) ++ [e]
    /\ eventServices (db w')
       = eventServices (db w)
         ++ serviceRows (event_id e) (next_event_service_id (db w)) (d_event_services d)
    /\ outbox w'
       = outbox w
         ++ match account_id e with
            | Some aid => [bookingNotification e aid]
            | None => []
            end.
Proof.
  intros notifier d now w r w' Hrun Hok.
  edestruct createEvent_success as (e & w1 & Hw & Hr & Hdb & Hout);
    [exact Hrun | exact Hok |].
  pose proof (@wp_Next _ _ _ _ _ _ _ (createEventWrites_wp validateEventServiceData
                checkRoomAvailability tzOffset d now w) Hw)
    as (_ & Hid & Hacc & Hev & Hes & Hob & _).
  exists e. split; [exact Hr|]. split; [exact Hid|]. split; [exact Hacc|].
  rewrite Hdb. split; [exact Hev|]. split; [exact Hes|].
  rewrite Hout, Hob. reflexivity.
Qed.

(** X27. An event created through the controller for an authenticated user
    with an account belongs to the account the body names and, when the body
    names none, to the account of the user; the reply is 201 with the stored
    event, and the booking notification goes to that account. *)
Theorem createEventController_attaches_account :
  forall notifier u body now w code msg payload w',
  controllerWith notifier (Some u) body now w = (Success code msg payload, w') ->
  u_account_id u <> 0 ->
  exists e,
    code = 201
    /\ payload = EventData_ e 0
    /\ In e (events (db w'))
    /\ account_id e
       = Some (if truthyZ (d_account_id body) then NumberF (d_account_id body)
               else u_account_id u)
    /\ outbox w'
       = outbox w
         ++ [bookingNotification e
               (if truthyZ (d_account_id body) then NumberF (d_account_id body)
                else u_account_id u)].
Proof.
  intros notifier u body now w code msg payload w' Hrun Hu.
  unfold createEventController in Hrun.
  destruct (createWith notifier (attachAccount (Some u) body) now w) as [r w0] eqn:Hc.
  cbn [fst snd] in Hrun.
  destruct (isValid r) eqn:Hok; cbn [negb] in Hrun; [|discriminate].
  inversion Hrun; subst code msg payload w0. clear Hrun.
  destruct (createEvent_stored _ _ _ _ Hc Hok) as (e & Hr & _ & Hacc & Hev & _ & Hout).
  assert (Ha : numOrNull (d_account_id (attachAccount (Some u) body))
               = Some (if truthyZ (d_account_id body) then NumberF (d_account_id body)
                       else u_account_id u)).
  { unfold attachAccount. apply Z.eqb_neq in Hu. rewrite Hu. cbn [negb andb].
    destruct (truthyZ (d_account_id body)) eqn:Ht; cbn [negb].
    - unfold numOrNull. now rewrite Ht.
    - unfold numOrNull, withAccount. cbn [d_account_id truthyZ NumberF].
      now rewrite Hu. }
  rewrite Ha in Hacc.
  exists e. split; [reflexivity|]. split; [now subst r|].
  split; [rewrite Hev; apply in_or_app; right; now left|].
  split; [exact Hacc|]. rewrite Hout, Hacc. reflexivity.
Qed.

(** X28. A created event can be fetched: when no stored event already has
    the next key, [getEventById] on the key of the new event succeeds and
    returns the event the creation returned, every other key fetches what it
    fetched before, and, when no stored service row already refers to the
    key, fetching with the service lines counts one line per line of the
    payload. *)
Theorem createEvent_then_getEventById : forall notifier d now w r w' e n options,
  createWith notifier d now w = (r, w') ->
  isValid r = true ->
  data r = EventData_ e n ->
  (forall x, In x (events (db w)) -> event_id x <> next_event_id (db w)) ->
  f_isValid (getEventById (event_id e) options w') = true
  /\ option_map fe_event (f_data (getEventById (event_id e) options w')) = Some e
  /\ (forall other, other <> event_id e ->
        option_map fe_event (f_data (getEventById other options w'))
        = option_map fe_event (f_data (getEventById other options w)))
  /\ ((forall l, In l (eventServices (db w)) -> es_event_id l <> next_event_id (db w)) ->
      o_includeEventServices options = Val true ->
      option_map fe_eventServicesCount (f_data (getEventById (event_id e) options w'))
      = Some (List.length (d_event_services d))).
Proof.
  intros notifier d now w r w' e n options Hrun Hok Hdata Hfresh.
  destruct (createEvent_stored _ _ _ _ Hrun Hok) as (e0 & Hr & Hid & _ & Hev & Hes & _).
  subst r. cbn in Hdata. inversion Hdata; subst e0 n. clear Hdata.
  rewrite <- Hid in Hfresh.
  destruct (findEvent_appended (db w) (db w') e Hev Hfresh) as [Hnew Hold].
  unfold getEventById. rewrite Hnew. cbn [f_isValid f_data option_map fe_event fetched].
  split; [reflexivity|]. split; [reflexivity|]. split.
  - intros other Hne. rewrite (Hold other Hne).
    destruct (findEvent (db w) other); reflexivity.
  - intros Hrows Hinc. rewrite Hinc. cbn [optionOr fe_eventServicesCount].
    f_equal. unfold fetched. cbn [fe_eventServicesCount].
    unfold includedServices, servicesOf. rewrite length_map, Hes, filter_app.
    rewrite servicesOf_rows, length_app, serviceRows_length.
    rewrite filter_all_false; [reflexivity|].
    intros l Hl. apply Z.eqb_neq. rewrite Hid. now apply Hrows.
Qed.

End CreationRoundTrip.

Lemma owner_booking_run :
  exists msg e w',
    createEventControllerRef notifierUp (Some owner) freeBooking 1500 booked
    = (Success 201 msg (EventData_ e 0), w').
Proof. eexists. eexists. eexists. vm_compute. reflexivity. Qed.

(** Customer 7 books the meetup without naming an account: the stored event
    is theirs, and they are notified. *)
Lemma createEventController_attaches_account_witness :
  exists e w',
    In e (events (db w'))
    /\ account_id e = Some 7
    /\ outbox w' = outbox booked ++ [bookingNotification e 7].
Proof.
  destruct owner_booking_run as (msg & e & w' & Hrun).
  assert (Hne : u_account_id owner <> 0) by (vm_compute; discriminate).
  destruct (createEventController_attaches_account
              validateStringRef validateNumberRef validateDateRangeRef
              parseAndValidateIdRef 3 1024 1000 validateEventServiceDataRef
              checkRoomAvailabilityRef 0 notifierUp owner freeBooking 1500 booked
              Hrun Hne)
    as (e' & _ & Hp & Hin & Hacc & Hout).
  inversion Hp; subst e'.
  exists e, w'. split; [exact Hin|]. split; [exact Hacc | exact Hout].
Defined.

Lemma second_booking_run :
  exists e w',
    createEventRef notifierUp freeBooking 1500 booked
    = (createValidationResult true [] (EventData_ e 0), w').
Proof. eexists. eexists. vm_compute. reflexivity. Qed.

Lemma booked_fresh_key : forall x,
  In x (events (db booked)) -> event_id x <> next_event_id (db booked).
Proof.
  intros x Hx. vm_compute in Hx. destruct Hx as [<-|[]]. vm_compute. discriminate.
Qed.

(** The meetup booked after the launch is fetched under its key. *)
Lemma createEvent_then_getEventById_witness :
  exists e w',
    createEventRef notifierUp freeBooking 1500 booked
    = (createValidationResult true [] (EventData_ e 0), w')
    /\ f_isValid (getEventById (event_id e) noOptions w') = true
    /\ option_map fe_event (f_data (getEventById (event_id e) noOptions w')) = Some e.
Proof.
  destruct second_booking_run as (e & w' & Hrun).
  exists e, w'. split; [exact Hrun|].
  destruct (@createEvent_then_getEventById
              validateStringRef validateNumberRef validateDateRangeRef
              parseAndValidateIdRef 3 1024 1000 validateEventServiceDataRef
              checkRoomAvailabilityRef 0 notifierUp freeBooking 1500 booked _ w' e 0%nat
              noOptions Hrun eq_refl eq_refl booked_fresh_key)
    as (Hok & He & _).
  split; [exact Hok | exact He].
Defined.

(** ** A deleted event is gone for every operation *)

(** A deletion ends in one of two ways: refused with nothing written, or
    done with the event no longer stored. *)
Lemma deleteEvent_outcome : forall eid forceDelete w r w',
  deleteEvent eid forceDelete w = (r, w') ->
  (isValid r = false /\ w' = w) \/ (isValid r = true /\ findEvent (db w') eid = None).
Proof.
  intros eid forceDelete w r w' Hrun.
  destruct (findEvent (db w) eid) as [old|] eqn:Hfind.
  2:{ unfold deleteEvent in Hrun. rewrite Hfind in Hrun. inversion Hrun; subst.
      left. split; reflexivity. }
  destruct forceDelete.
  - rewrite (@deleteEvent_done eid true w old Hfind) in Hrun by (left; reflexivity).
    inversion Hrun; subst. right. split; [reflexivity|].
    unfold findEvent. cbn [db events]. apply find_all_false. intros x Hx.
    apply filter_In in Hx as [_ Hx]. now apply negb_true_iff in Hx.
  - destruct (servicesOf (db w) eid) eqn:Hs;
      [destruct (findInvoice (db w) eid) eqn:Hi;
         [|destruct (paymentsOf (db w) eid) eqn:Hp;
             [destruct (reviewsOf (db w) eid) eqn:Hr|]]|].
    2:{ rewrite (@deleteEvent_done eid false w old Hfind) in Hrun
          by (right; repeat split; assumption).
        inversion Hrun; subst. right. split; [reflexivity|].
        unfold findEvent. cbn [db events]. apply find_all_false. intros x Hx.
        apply filter_In in Hx as [_ Hx]. now apply negb_true_iff in Hx. }
    all: unfold deleteEvent in Hrun; rewrite Hfind in Hrun;
      try rewrite Hs in Hrun; try rewrite Hi in Hrun; try rewrite Hp in Hrun;
      try rewrite Hr in Hrun; cbn [List.length Nat.ltb Nat.leb isSome orb andb negb] in Hrun;
      rewrite ?orb_true_r in Hrun; cbn [andb negb] in Hrun;
      inversion Hrun; subst; left; split; reflexivity.
Qed.

Section AfterDeletion.

Variable validateString : Field string -> string -> StringOptions -> list string.
Variable validateNumber : Field Z -> string -> Z -> list string.
Variable validateDateRange : Field Z -> Field Z -> string -> list string.
Variable parseAndValidateId : Field Z -> string -> option Z.
Variable NAME_MIN NAME_MAX DESCRIPTION_MAX : Z.
Variable validateEventServiceData : ServiceData -> list string.
Variable checkRoomAvailability :
  Z -> Field Z -> Field Z -> option Z -> Store -> RoomAvailability.
Variable createNotification : Notification -> option string.
Variable tzOffset : Z.

Local Abbreviation update :=
  (updateEvent validateString validateNumber validateDateRange parseAndValidateId
     NAME_MIN NAME_MAX DESCRIPTION_MAX validateEventServiceData checkRoomAvailability
     tzOffset).
Local Abbreviation createController :=
  (createEventController validateString validateNumber validateDateRange
     parseAndValidateId NAME_MIN NAME_MAX DESCRIPTION_MAX validateEventServiceData
     checkRoomAvailability createNotification tzOffset).
Local Abbreviation updateController :=
  (updateEventController validateString validateNumber validateDateRange
     parseAndValidateId NAME_MIN NAME_MAX DESCRIPTION_MAX validateEventServiceData
     checkRoomAvailability tzOffset).

(** X29. Once an event is deleted, forced or not, every operation on its
    key answers that the event is not found and writes nothing: the fetch
    (404 from its controller and from [getEventDetails]), a second deletion,
    the toggle and the update. *)
Theorem deleteEvent_then_not_found : forall eid forceDelete w r w',
  deleteEvent eid forceDelete w = (r, w') ->
  isValid r = true ->
  (forall options,
     getEventById eid options w' = mkFetch false ["Event not found"] None)
  /\ (forall qa qr qt qs, fst (getEventByIdController eid qa qr qt qs w') = 404)
  /\ (forall user, fst (getEventDetails eid user w') = 404)
  /\ (forall force, deleteEvent eid force w' = (invalid ["Event not found"], w'))
  /\ toggleEventStatus eid w' = (invalid ["Event not found"], w')
  /\ (forall d user now, update eid d user now w' = (invalid ["Event not found"], w')).
Proof.
  intros eid forceDelete w r w' Hrun Hok.
  destruct (deleteEvent_outcome _ _ _ Hrun) as [[Hbad _]|[_ Hgone]]; [congruence|].
  split; [intro options; unfold getEventById; now rewrite Hgone|].
  split; [intros qa qr qt qs; unfold getEventByIdController, getEventById;
          now rewrite Hgone|].
  split; [intro user; unfold getEventDetails, getEventById; now rewrite Hgone|].
  split; [intro force; unfold deleteEvent; now rewrite Hgone|].
  split; [unfold toggleEventStatus; now rewrite Hgone|].
  intros d user now. unfold updateEvent. now rewrite Hgone.
Qed.

(** X30. The replies of the writing controllers: a creation answers 201 or
    400, an update and a deletion 200 or 400, a toggle 200 or 404; whenever
    the reply is a failure, the database and what the notifier received are
    as before the request. *)
Theorem controllers_failure_writes_nothing : forall w,
  (forall user body now,
     match fst (createController user body now w) with
     | Failure code _ => code = 400 /\ snd (createController user body now w) = w
     | Success code _ _ => code = 201
     end)
  /\ (forall id user body now,
        match fst (updateController id user body now w) with
        | Failure code _ => code = 400 /\ snd (updateController id user body now w) = w
        | Success code _ _ => code = 200
        end)
  /\ (forall id force,
        match fst (deleteEventController id force w) with
        | Failure code _ => code = 400 /\ snd (deleteEventController id force w) = w
        | Success code _ _ => code = 200
        end)
  /\ (forall id,
        match fst (toggleEventStatusController id w) with
        | Failure code _ => code = 404 /\ snd (toggleEventStatusController id w) = w
        | Success code _ _ => code = 200
        end).
Proof.
  intro w. split; [|split; [|split]].
  - intros user body now. unfold createEventController.
    destruct (createEvent _ _ _ _ _ _ _ _ _ _ _ (attachAccount user body) now w)
      as [r w'] eqn:Hc.
    cbn [fst snd].
    destruct (createEvent_outcome _ _ _ _ _ _ _ _ _ _ _ _ _ _ Hc) as [[Hbad Hw]|Hok].
    + rewrite Hbad. cbn. split; [reflexivity | exact Hw].
    + rewrite Hok. reflexivity.
  - intros id user body now. unfold updateEventController.
    destruct (update id body user now w) as [r w'] eqn:Hc. cbn [fst snd].
    edestruct updateEvent_lines as [[Hbad Hw]|[Hok _]]; [exact Hc| |].
    + rewrite Hbad. cbn. split; [reflexivity | exact Hw].
    + rewrite Hok. reflexivity.
  - intros id force. unfold deleteEventController.
    destruct (deleteEvent id (isTrue force) w) as [r w'] eqn:Hc. cbn [fst snd].
    destruct (deleteEvent_outcome _ _ _ Hc) as [[Hbad Hw]|[Hok _]].
    + rewrite Hbad. cbn. split; [reflexivity | exact Hw].
    + rewrite Hok. reflexivity.
  - intro id. unfold toggleEventStatusController, toggleEventStatus.
    destruct (findEvent (db w) id); cbn; [reflexivity | split; reflexivity].
Qed.

End AfterDeletion.

(** The meetup, deleted, is not found by the fetch, the toggle, a second
    deletion or an update. *)
Lemma deleteEvent_then_not_found_witness :
  exists r w',
    deleteEvent 2 false twoBooked = (r, w')
    /\ getEventById 2 noOptions w' = mkFetch false ["Event not found"] None
    /\ toggleEventStatus 2 w' = (invalid ["Event not found"], w')
    /\ updateEventRef 2 freeBooking None 2000 w' = (invalid ["Event not found"], w').
Proof.
  destruct (deleteEvent 2 false twoBooked) as [r w'] eqn:Hrun.
  assert (Hok : isValid r = true).
  { revert Hrun. vm_compute. intro H. inversion H. reflexivity. }
  exists r, w'. split; [reflexivity|].
  destruct (deleteEvent_then_not_found validateStringRef validateNumberRef
              validateDateRangeRef parseAndValidateIdRef 3 1024 1000
              validateEventServiceDataRef checkRoomAvailabilityRef 0
              2 false twoBooked Hrun Hok)
    as (Hget & _ & _ & _ & Htoggle & Hupdate).
  split; [apply Hget|]. split; [exact Htoggle | apply Hupdate].
Defined.
